(** * tvj::forward_list: a heap model of TVJ_Forward_List.h

    The container is a chain of heap-allocated nodes bracketed by two
    sentinels.  The model keeps the heap explicit (a finite map from
    addresses to nodes), threads it through every member function with a
    small state-and-error monad, and keeps the loops of the source as
    fuel-bounded fixpoints, one per loop. *)

From stdpp Require Import gmap list.
From Stdlib Require Import ZArith Lia.

(** ** Error codes (enum TVJ_FORWARD_LIST_EXCEPTION) *)

Inductive TVJ_FORWARD_LIST_EXCEPTION :=
| TVJ_FORWARD_LIST_UNDERFLOW
| TVJ_FORWARD_LIST_OVERFLOW
| TVJ_FORWARD_LIST_TYPE_MISMATCH
| TVJ_FORWARD_LIST_NULLPTR
| TVJ_FORWARD_LIST_ITER_RANGE.

(** ** Nodes, pointers, the heap *)

(** The element type of the sample driver ([int], read as an integer). *)
Definition Elem := Z.

Definition loc := nat.

(** A [Node*]; [None] is [nullptr]. *)
Definition ptr := option loc.

Record Node := mkNode { data : Elem; succ : ptr }.

Abbreviation heap := (gmap loc Node).

(** [class forward_list]: the three data members. [size_] is a [size_t]. *)
Record forward_list := mkList { head : ptr; tail : ptr; size_ : Z }.

Definition size_t_wrap (z : Z) : Z := (z mod 2 ^ 64)%Z.

(** ** Outcomes of running a member function

    [Throw] is an exception raised through [error_info] (out of a
    [noexcept] function it ends the program; the model keeps it as the
    same [Throw]); [Undefined] is a dereference (or a delete) of a null or
    freed pointer; [OutOfFuel] is a loop that did not finish within the
    given bound. *)

Inductive outcome (A : Type) :=
| Done (a : A) (h : heap)
| Throw (e : TVJ_FORWARD_LIST_EXCEPTION)
| Undefined
| OutOfFuel.
Arguments Done {A} a h.
Arguments Throw {A} e.
Arguments Undefined {A}.
Arguments OutOfFuel {A}.

Definition M (A : Type) : Type := heap -> outcome A.

Definition ret {A} (a : A) : M A := fun h => Done a h.

Definition bind {A B} (m : M A) (k : A -> M B) : M B :=
  fun h =>
    match m h with
    | Done a h' => k a h'
    | Throw e => Throw e
    | Undefined => Undefined
    | OutOfFuel => OutOfFuel
    end.

Notation "x <- m ;; k" := (bind m (fun x => k))
  (at level 100, m at next level, right associativity).
Notation "m ;;; k" := (bind m (fun _ => k))
  (at level 100, right associativity).

Definition error_info {A} (e : TVJ_FORWARD_LIST_EXCEPTION) : M A :=
  fun _ => Throw e.

Definition undefined {A} : M A := fun _ => Undefined.
Definition out_of_fuel {A} : M A := fun _ => OutOfFuel.

Definition load (p : ptr) : M Node :=
  fun h =>
    match p with
    | Some a => match h !! a with Some n => Done n h | None => Undefined end
    | None => Undefined
    end.

Definition store (p : ptr) (n : Node) : M unit :=
  fun h =>
    match p with
    | Some a => match h !! a with
                | Some _ => Done tt (<[a := n]> h)
                | None => Undefined
                end
    | None => Undefined
    end.

(** [p->succ], [p->data], [p->succ = q], [p->data = x]. *)
Definition get_succ (p : ptr) : M ptr := n <- load p ;; ret (succ n).
Definition get_data (p : ptr) : M Elem := n <- load p ;; ret (data n).
Definition set_succ (p q : ptr) : M unit :=
  n <- load p ;; store p (mkNode (data n) q).
Definition set_data (p : ptr) (x : Elem) : M unit :=
  n <- load p ;; store p (mkNode x (succ n)).

(** [delete p]: a no-op on [nullptr], undefined on a freed node. *)
Definition delete_Node (p : ptr) : M unit :=
  fun h =>
    match p with
    | Some a => match h !! a with
                | Some _ => Done tt (delete a h)
                | None => Undefined
                end
    | None => Done tt h
    end.

Definition ptr_eqb (p q : ptr) : bool := bool_decide (p = q).
Definition is_null (p : ptr) : bool := bool_decide (p = None).

Section Forward_List.

(** The build switch: [NDEBUG = true] is the fast build, [false] the
    checked one. *)
Variable NDEBUG : bool.

(** [Node::Node() { }] leaves [data] uninitialised; the model stores this
    value in a node made by [new Node]. *)
Variable indeterminate : Elem.

(** [new Node] *)
Definition new_Node : M ptr :=
  fun h =>
    let a := fresh (dom h) in
    Done (Some a) (<[a := mkNode indeterminate None]> h).

(** ** const_iterator: a node and, for the checks, the owning list *)

(** The checks of [operator*] and [operator->]. *)
Definition check_deref (parent : forward_list) (node : ptr) : M unit :=
  if NDEBUG then ret tt
  else if is_null node then error_info TVJ_FORWARD_LIST_NULLPTR
  else if ptr_eqb node (head parent) then error_info TVJ_FORWARD_LIST_UNDERFLOW
  else if ptr_eqb node (tail parent) then error_info TVJ_FORWARD_LIST_OVERFLOW
  else ret tt.

(** The checks of [operator++], [operator+] and [operator+=]; the
    underflow test is commented out in the source. *)
Definition check_advance (parent : forward_list) (node : ptr) : M unit :=
  if NDEBUG then ret tt
  else if is_null node then error_info TVJ_FORWARD_LIST_NULLPTR
  else if ptr_eqb node (tail parent) then error_info TVJ_FORWARD_LIST_OVERFLOW
  else ret tt.

(** [operator*] *)
Definition op_deref (parent : forward_list) (node : ptr) : M Elem :=
  check_deref parent node ;;; get_data node.

(** [operator++] in both forms: the cursor after the step. *)
Definition op_incr (parent : forward_list) (node : ptr) : M ptr :=
  check_advance parent node ;;; get_succ node.

(** The loop of [operator+]: [_node = _node->succ], [n] times.  The checks
    inside the loop test [node], not [_node], so they repeat the entry
    checks and never fire once those have passed. *)
Fixpoint advance (n : nat) (_node : ptr) : M ptr :=
  match n with
  | O => ret _node
  | S k => q <- get_succ _node ;; advance k q
  end.

(** [operator+] *)
Definition op_plus (parent : forward_list) (node : ptr) (n : nat) : M ptr :=
  check_advance parent node ;;; advance n node.

(** ** Construction and the cursors of a list *)

(** The default member initialisers:
    [head = new Node; tail = head->succ = new Node; size_ = 0]. *)
Definition forward_list_new : M forward_list :=
  hd <- new_Node ;;
  tl <- new_Node ;;
  set_succ hd tl ;;;
  ret (mkList hd tl 0).

Definition size (l : forward_list) : Z := size_ l.
Definition empty (l : forward_list) : bool := (size_ l =? 0)%Z.

Definition before_begin (l : forward_list) : ptr := head l.
Definition begin_ (l : forward_list) : M ptr := get_succ (head l).
Definition front (l : forward_list) : M ptr := get_succ (head l).
Definition end_ (l : forward_list) : ptr := tail l.
Definition cbefore_begin (l : forward_list) : ptr := head l.
Definition cbegin (l : forward_list) : M ptr := get_succ (head l).
Definition cend (l : forward_list) : ptr := tail l.

(** [push_back] *)
Definition push_back (l : forward_list) (elem : Elem) : M forward_list :=
  set_data (tail l) elem ;;;
  n <- new_Node ;;
  set_succ (tail l) n ;;;
  set_succ n None ;;;
  ret (mkList (head l) n (size_t_wrap (size_ l + 1))).

(** The loop [while (i + 1 != end()) i++] of the mutable [back]. *)
Fixpoint back_loop (fuel : nat) (l : forward_list) (i : ptr) : M ptr :=
  match fuel with
  | O => out_of_fuel
  | S f =>
      n <- op_plus l i 1 ;;
      if negb (ptr_eqb n (end_ l))
      then i' <- op_incr l i ;; back_loop f l i'
      else ret i
  end.

(** [iterator back() noexcept] *)
Definition back (fuel : nat) (l : forward_list) : M ptr :=
  back_loop fuel l (before_begin l).

(** [const_iterator back() const noexcept] *)
Definition back_const (l : forward_list) : M ptr := get_succ (head l).

(** The range-for over a list, as [printForwardList] of the sample driver
    runs it: [for (it = begin(); it != end(); ++it)] reading [*it]. *)
Fixpoint range_for (fuel : nat) (l : forward_list) (it : ptr) : M (list Elem) :=
  match fuel with
  | O => out_of_fuel
  | S f =>
      if negb (ptr_eqb it (end_ l))
      then c_ <- op_deref l it ;;
           it' <- op_incr l it ;;
           rest <- range_for f l it' ;;
           ret (c_ :: rest)
      else ret []
  end.

Definition printForwardList (fuel : nat) (l : forward_list) : M (list Elem) :=
  it <- begin_ l ;; range_for fuel l it.

(** [forward_list(arr, arr + n)] for an array of [n] elements, given as
    the list of its elements: both pointers are non-null, and the loop
    pushes the elements one by one. *)
Fixpoint push_back_all (l : forward_list) (arr : list Elem) : M forward_list :=
  match arr with
  | [] => ret l
  | x :: arr' => l' <- push_back l x ;; push_back_all l' arr'
  end.

Definition forward_list_of_array (arr : list Elem) : M forward_list :=
  l <- forward_list_new ;; push_back_all l arr.

(** A [const Elem*] into an array [arr] of the caller: [Some i] is
    [arr + i], [None] is [nullptr]. *)
Definition elem_ptr := option nat.

Definition elem_ptr_eqb (p q : elem_ptr) : bool := bool_decide (p = q).

(** [*iter] for a [const Elem*]: reading through [nullptr] or outside the
    array is undefined. *)
Definition elem_ptr_deref (arr : list Elem) (iter : elem_ptr) : M Elem :=
  match iter with
  | Some i => match arr !! i with
              | Some x => ret x
              | None => undefined
              end
  | None => undefined
  end.

(** [++iter] for a [const Elem*]. *)
Definition elem_ptr_incr (iter : elem_ptr) : elem_ptr := S <$> iter.

(** The loop of the constructor from two pointers:
    [for (auto iter = i_beg; iter != i_end; ++iter)], each round pushing
    [*iter]. *)
Fixpoint forward_list_of_pointers_loop (fuel : nat) (arr : list Elem)
  (l : forward_list) (iter i_end : elem_ptr) : M forward_list :=
  match fuel with
  | O => out_of_fuel
  | S f =>
      if negb (elem_ptr_eqb iter i_end)
      then x <- elem_ptr_deref arr iter ;;
           l' <- push_back l x ;;
           forward_list_of_pointers_loop f arr l' (elem_ptr_incr iter) i_end
      else ret l
  end.

(** [forward_list(const Elem* i_beg, const Elem* i_end)]: the default
    member initialisers, the two null checks of the checked build, then
    the loop. *)
Definition forward_list_of_pointers (fuel : nat) (arr : list Elem)
  (i_beg i_end : elem_ptr) : M forward_list :=
  l <- forward_list_new ;;
  (if NDEBUG then ret tt
   else if bool_decide (i_beg = None) then error_info TVJ_FORWARD_LIST_NULLPTR
   else if bool_decide (i_end = None) then error_info TVJ_FORWARD_LIST_NULLPTR
   else ret tt) ;;;
  forward_list_of_pointers_loop fuel arr l i_beg i_end.

(** The copy made by [forward_list<Elem> new_list = list_]: a range-for
    over the source that pushes each element. *)
Fixpoint copy_loop (fuel : nat) (list_ l : forward_list) (it : ptr)
  : M forward_list :=
  match fuel with
  | O => out_of_fuel
  | S f =>
      if negb (ptr_eqb it (end_ list_))
      then elem <- op_deref list_ it ;;
           l' <- push_back l elem ;;
           it' <- op_incr list_ it ;;
           copy_loop f list_ l' it'
      else ret l
  end.

Definition forward_list_copy (fuel : nat) (list_ : forward_list) : M forward_list :=
  l <- forward_list_new ;;
  it <- begin_ list_ ;;
  copy_loop fuel list_ l it.

(** ** Lookup and predicates *)

(** The loop of [search]:
    [while (iter + 1 != cend() && (is_ascending ? *(iter + 1) >= elem
                                                : *(iter + 1) <= elem)) ++iter]. *)
Fixpoint search_loop (fuel : nat) (l : forward_list) (elem : Elem)
  (is_ascending : bool) (iter : ptr) : M ptr :=
  match fuel with
  | O => out_of_fuel
  | S f =>
      n <- op_plus l iter 1 ;;
      if negb (ptr_eqb n (cend l))
      then n' <- op_plus l iter 1 ;;
           x <- op_deref l n' ;;
           if (if is_ascending then (x >=? elem)%Z else (x <=? elem)%Z)
           then iter' <- op_incr l iter ;; search_loop f l elem is_ascending iter'
           else ret iter
      else ret iter
  end.

(** [search] *)
Definition search (fuel : nat) (l : forward_list) (elem : Elem)
  (is_ascending : bool) : M ptr :=
  let iter := before_begin l in
  n <- op_plus l iter 1 ;;
  x <- op_deref l n ;;
  if (if is_ascending then (x <? elem)%Z else (x >? elem)%Z)
  then ret (before_begin l)
  else search_loop fuel l elem is_ascending iter.

(** The loop of [sorted]:
    [for (iter = cbegin(); iter + 1 != cend(); ++iter)]. *)
Fixpoint sorted_loop (fuel : nat) (l : forward_list) (is_ascending : bool)
  (iter : ptr) : M bool :=
  match fuel with
  | O => out_of_fuel
  | S f =>
      n <- op_plus l iter 1 ;;
      if negb (ptr_eqb n (cend l))
      then a <- op_deref l iter ;;
           n1 <- op_plus l iter 1 ;;
           b <- op_deref l n1 ;;
           if (a =? b)%Z
           then iter' <- op_incr l iter ;; sorted_loop f l is_ascending iter'
           else a' <- op_deref l iter ;;
                n2 <- op_plus l iter 1 ;;
                b' <- op_deref l n2 ;;
                if xorb (a' <? b')%Z is_ascending
                then ret false
                else iter' <- op_incr l iter ;;
                     sorted_loop f l is_ascending iter'
      else ret true
  end.

(** [sorted] *)
Definition sorted (fuel : nat) (l : forward_list) (is_ascending : bool) : M bool :=
  if (size_ l <? 2)%Z then ret true
  else iter <- cbegin l ;; sorted_loop fuel l is_ascending iter.

(** ** Mutation *)

(** The loop [while (i + 2 != cend()) i++] of [pop_back]. *)
Fixpoint pop_back_loop (fuel : nat) (l : forward_list) (i : ptr) : M ptr :=
  match fuel with
  | O => out_of_fuel
  | S f =>
      n <- op_plus l i 2 ;;
      if negb (ptr_eqb n (cend l))
      then i' <- op_incr l i ;; pop_back_loop f l i'
      else ret i
  end.

(** [pop_back] *)
Definition pop_back (fuel : nat) (l : forward_list) : M forward_list :=
  let i := cbefore_begin l in
  if empty l then ret l
  else
    i <- pop_back_loop fuel l i ;;
    tmp <- get_succ i ;;
    set_succ i (tail l) ;;;
    (if negb (is_null tmp) then delete_Node tmp else ret tt) ;;;
    ret (mkList (head l) (tail l) (size_t_wrap (size_ l - 1))).

(** [pop_front] *)
Definition pop_front (l : forward_list) : M forward_list :=
  if empty l then ret l
  else
    hd <- get_succ (head l) ;;
    ret (mkList hd (tail l) (size_t_wrap (size_ l - 1))).

(** The loop of [remove_at]; the result is the returned element, the flag
    written through [ok], and the list. *)
Fixpoint remove_at_loop (fuel : nat) (l : forward_list) (iter : ptr) (i : ptr)
  : M (Elem * bool * forward_list) :=
  match fuel with
  | O => out_of_fuel
  | S f =>
      n <- op_plus l i 1 ;;
      if negb (ptr_eqb n (cend l))
      then n1 <- op_plus l i 1 ;;
           if negb (ptr_eqb n1 iter)
           then i' <- op_incr l i ;; remove_at_loop f l iter i'
           else n2 <- op_plus l i 1 ;;
                ret_ <- op_deref l n2 ;;
                n3 <- op_plus l i 1 ;;
                s <- get_succ n3 ;;
                set_succ i s ;;;
                ret (ret_, true, mkList (head l) (tail l) (size_t_wrap (size_ l - 1)))
      else x <- get_data (tail l) ;; ret (x, false, l)
  end.

(** [remove_at(iter, &ok)] *)
Definition remove_at (fuel : nat) (l : forward_list) (iter : ptr)
  : M (Elem * bool * forward_list) :=
  remove_at_loop fuel l iter (cbefore_begin l).

(** The inner loop of the one-cursor [erase_after]:
    [while (j.node && j != iter2)], freeing nodes in the fast build only. *)
Fixpoint erase_after1_inner (fuel : nat) (l : forward_list) (iter2 : ptr)
  (j : ptr) (tmp_size : Z) : M (ptr * Z) :=
  match fuel with
  | O => out_of_fuel
  | S f =>
      if negb (is_null j) && negb (ptr_eqb j iter2)
      then let to_delete := j in
           j' <- op_incr l j ;;
           (if NDEBUG
            then if negb (is_null to_delete) then delete_Node to_delete else ret tt
            else ret tt) ;;;
           erase_after1_inner f l iter2 j' (size_t_wrap (tmp_size + 1))
      else ret (j, tmp_size)
  end.

Fixpoint erase_after1_loop (fuel : nat) (l : forward_list) (iter1 iter2 : ptr)
  (i : ptr) : M forward_list :=
  match fuel with
  | O => out_of_fuel
  | S f =>
      n <- op_plus l i 1 ;;
      if negb (ptr_eqb n (cend l))
      then n1 <- op_plus l i 1 ;;
           if negb (ptr_eqb n1 iter1)
           then i' <- op_incr l i ;; erase_after1_loop f l iter1 iter2 i'
           else j <- op_plus l i 1 ;;
                r <- erase_after1_inner fuel l iter2 j 0 ;;
                set_succ i (fst r) ;;;
                ret (mkList (head l) (tail l) (size_t_wrap (size_ l - snd r)))
      else ret l
  end.

(** [erase_after(iter1)] *)
Definition erase_after1 (fuel : nat) (l : forward_list) (iter1 : ptr)
  : M forward_list :=
  if empty l then ret l
  else
    let iter2 := cend l in
    erase_after1_loop fuel l iter1 iter2 (cbefore_begin l).

(** The inner loop of the two-cursor [erase_after]:
    [while (j != iter2 && j != cend())]. *)
Fixpoint erase_after2_inner (fuel : nat) (l : forward_list) (iter2 : ptr)
  (j : ptr) (tmp_size : Z) : M (ptr * Z) :=
  match fuel with
  | O => out_of_fuel
  | S f =>
      if negb (ptr_eqb j iter2) && negb (ptr_eqb j (cend l))
      then let to_delete := j in
           j' <- op_incr l j ;;
           (if NDEBUG
            then if negb (is_null to_delete) then delete_Node to_delete else ret tt
            else ret tt) ;;;
           erase_after2_inner f l iter2 j' (size_t_wrap (tmp_size + 1))
      else ret (j, tmp_size)
  end.

Fixpoint erase_after2_loop (fuel : nat) (l : forward_list) (iter1 iter2 : ptr)
  (i : ptr) : M forward_list :=
  match fuel with
  | O => out_of_fuel
  | S f =>
      n <- op_plus l i 1 ;;
      if negb (ptr_eqb n (cend l))
      then
        c <- (if negb (is_null i)
              then n1 <- op_plus l i 1 ;; ret (negb (ptr_eqb n1 iter1))
              else ret false) ;;
        if c : bool
        then i' <- op_incr l i ;; erase_after2_loop f l iter1 iter2 i'
        else j <- op_plus l i 1 ;;
             r <- erase_after2_inner fuel l iter2 j 0 ;;
             set_succ i (fst r) ;;;
             ret (mkList (head l) (tail l) (size_t_wrap (size_ l - snd r)))
      else ret l
  end.

(** [erase_after(iter1, iter2)] *)
Definition erase_after2 (fuel : nat) (l : forward_list) (iter1 iter2 : ptr)
  : M forward_list :=
  if empty l then ret l
  else erase_after2_loop fuel l iter1 iter2 (cbefore_begin l).

(** [clear] *)
Definition clear (fuel : nat) (l : forward_list) : M forward_list :=
  it <- cbegin l ;; erase_after1 fuel l it.

(** [~forward_list]: the nodes are erased, and in the fast build the two
    sentinels are freed. *)
Definition forward_list_destroy (fuel : nat) (l : forward_list) : M unit :=
  it <- cbegin l ;;
  l' <- erase_after1 fuel l it ;;
  if NDEBUG
  then (if negb (is_null (head l')) then delete_Node (head l') else ret tt) ;;;
       (if negb (is_null (tail l')) then delete_Node (tail l') else ret tt)
  else ret tt.

(** ** The merge-sort engine *)

(** [p && p != bound->succ], the two halves of the loop tests of
    [_inplace_merge]; [bound->succ] is read again at every test. *)
Definition in_range (p bound : ptr) : M bool :=
  if is_null p then ret false
  else s <- get_succ bound ;; ret (negb (ptr_eqb p s)).

(** First loop of [_inplace_merge]:
    [while (i && i != mid_->succ && j && j != last_->succ)]. *)
Fixpoint _inplace_merge_both (fuel : nat) (mid_ last_ : ptr) (is_ascending : bool)
  (i j h : ptr) : M (ptr * ptr * ptr) :=
  match fuel with
  | O => out_of_fuel
  | S f =>
      ci <- in_range i mid_ ;;
      cj <- (if ci : bool then in_range j last_ else ret false) ;;
      if cj : bool
      then di <- get_data i ;;
           dj <- get_data j ;;
           if xorb (di <? dj)%Z (negb is_ascending)
           then set_succ h i ;;;
                i' <- get_succ i ;;
                _inplace_merge_both f mid_ last_ is_ascending i' j i
           else set_succ h j ;;;
                j' <- get_succ j ;;
                _inplace_merge_both f mid_ last_ is_ascending i j' j
      else ret (i, j, h)
  end.

(** Second and third loop of [_inplace_merge]:
    [while (p && p != bound->succ) { h = h->succ = p; p = p->succ; }]. *)
Fixpoint _inplace_merge_rest (fuel : nat) (bound : ptr) (p h : ptr) : M (ptr * ptr) :=
  match fuel with
  | O => out_of_fuel
  | S f =>
      c <- in_range p bound ;;
      if c : bool
      then set_succ h p ;;;
           p' <- get_succ p ;;
           _inplace_merge_rest f bound p' p
      else ret (p, h)
  end.

(** [_inplace_merge]; the closing [h = pre_end] assigns a local only. *)
Definition _inplace_merge (fuel : nat) (first_ mid_ last_ : ptr)
  (is_ascending : bool) : M ptr :=
  i <- get_succ first_ ;;
  j <- get_succ mid_ ;;
  pre_end <- get_succ last_ ;;
  let h := first_ in
  r <- _inplace_merge_both fuel mid_ last_ is_ascending i j h ;;
  let '(i, j, h) := r in
  r1 <- _inplace_merge_rest fuel mid_ i h ;;
  let '(i, h) := r1 in
  r2 <- _inplace_merge_rest fuel last_ j h ;;
  dl <- get_data last_ ;;
  dm <- get_data mid_ ;;
  ret (if xorb (dl <? dm)%Z (negb is_ascending) then mid_ else last_).

(** [_sort2] *)
Definition _sort2 (first : ptr) (is_ascending : bool) : M ptr :=
  a <- get_succ first ;;
  da <- get_data a ;;
  b <- get_succ a ;;
  db <- get_data b ;;
  (if xorb is_ascending (da <? db)%Z
   then set_data a db ;;; set_data b da
   else ret tt) ;;;
  a' <- get_succ first ;;
  get_succ a'.

(** [_sort]: [depth] bounds the recursion, [fuel] the loops of the merge. *)
Fixpoint _sort (depth fuel : nat) (first : ptr) (bound : Z) (is_ascending : bool)
  : M ptr :=
  match depth with
  | O => out_of_fuel
  | S d =>
      if (bound =? 0)%Z then ret None
      else if (bound =? 1)%Z then get_succ first
      else if (bound =? 2)%Z then _sort2 first is_ascending
      else
        let half_bound := (bound / 2)%Z in
        mid_node <- _sort d fuel first half_bound is_ascending ;;
        last_node <- _sort d fuel mid_node (bound - half_bound)%Z is_ascending ;;
        _inplace_merge fuel first mid_node last_node is_ascending
  end.

(** [sort] *)
Definition sort (fuel : nat) (l : forward_list) (is_ascending : bool) : M unit :=
  _sort fuel fuel (head l) (size_ l) is_ascending ;;; ret tt.

(** ** unique *)

(** The inner loop of [unique]: [while (i != cend() && *i == *(i + 1))]. *)
Fixpoint unique_inner (fuel : nat) (l : forward_list) (i : ptr) : M forward_list :=
  match fuel with
  | O => out_of_fuel
  | S f =>
      if negb (ptr_eqb i (cend l))
      then a <- op_deref l i ;;
           n <- op_plus l i 1 ;;
           b <- op_deref l n ;;
           if (a =? b)%Z
           then tmp <- op_plus l i 1 ;;
                n2 <- op_plus l i 2 ;;
                s <- get_succ n2 ;;
                set_succ i s ;;;
                delete_Node tmp ;;;
                unique_inner f (mkList (head l) (tail l) (size_t_wrap (size_ l - 1))) i
           else ret l
      else ret l
  end.

(** The test of the outer loop of [unique]:
    [i != cend() && i + 1 != cend() && i + 2 != cend()]. *)
Definition unique_test (l : forward_list) (i : ptr) : M bool :=
  if negb (ptr_eqb i (cend l))
  then n1 <- op_plus l i 1 ;;
       if negb (ptr_eqb n1 (cend l))
       then n2 <- op_plus l i 2 ;; ret (negb (ptr_eqb n2 (cend l)))
       else ret false
  else ret false.

Fixpoint unique_loop (fuel : nat) (l : forward_list) (i : ptr)
  : M (forward_list * ptr) :=
  match fuel with
  | O => out_of_fuel
  | S f =>
      c <- unique_test l i ;;
      if c : bool
      then l' <- unique_inner fuel l i ;;
           i' <- op_incr l' i ;;
           unique_loop f l' i'
      else ret (l, i)
  end.

(** [unique] *)
Definition unique (fuel : nat) (l : forward_list) : M forward_list :=
  if (size_ l <? 2)%Z then ret l
  else
    (if NDEBUG then ret tt
     else s <- sorted fuel l true ;;
          if negb s then sort fuel l true else ret tt) ;;;
    i <- cbegin l ;;
    r <- unique_loop fuel l i ;;
    let '(l', i) := r in
    a <- op_deref l' i ;;
    n <- op_plus l' i 1 ;;
    b <- op_deref l' n ;;
    if (a =? b)%Z then pop_back fuel l' else ret l'.

(** ** merge *)

(** First loop of [merge]: [while (i && i != end_1 && j && j != end_2)]. *)
Fixpoint merge_both (fuel : nat) (end_1 end_2 : ptr) (is_ascending : bool)
  (i j h : ptr) (new_size : Z) : M (ptr * ptr * ptr * Z) :=
  match fuel with
  | O => out_of_fuel
  | S f =>
      if negb (is_null i) && negb (ptr_eqb i end_1)
         && negb (is_null j) && negb (ptr_eqb j end_2)
      then di <- get_data i ;;
           dj <- get_data j ;;
           if (di =? dj)%Z
           then set_succ h i ;;;
                i' <- get_succ i ;;
                j' <- get_succ j ;;
                merge_both f end_1 end_2 is_ascending i' j' i (size_t_wrap (new_size + 1))
           else
             di' <- get_data i ;;
             dj' <- get_data j ;;
             if xorb (di' <? dj')%Z (negb is_ascending)
             then set_succ h i ;;;
                  i' <- get_succ i ;;
                  merge_both f end_1 end_2 is_ascending i' j i (size_t_wrap (new_size + 1))
             else set_succ h j ;;;
                  j' <- get_succ j ;;
                  merge_both f end_1 end_2 is_ascending i j' j (size_t_wrap (new_size + 1))
      else ret (i, j, h, new_size)
  end.

(** Second and third loop of [merge]:
    [while (p && p != end_) { h = h->succ = p; p = p->succ; new_size++; }]. *)
Fixpoint merge_rest (fuel : nat) (end_ : ptr) (p h : ptr) (new_size : Z)
  : M (ptr * ptr * Z) :=
  match fuel with
  | O => out_of_fuel
  | S f =>
      if negb (is_null p) && negb (ptr_eqb p end_)
      then set_succ h p ;;;
           p' <- get_succ p ;;
           merge_rest f end_ p' p (size_t_wrap (new_size + 1))
      else ret (p, h, new_size)
  end.

(** [merge]; [new_list] is a local, destroyed when the function returns. *)
Definition merge (fuel : nat) (l list_ : forward_list) (is_ascending : bool)
  : M forward_list :=
  if empty list_ then ret l
  else
    new_list <- forward_list_copy fuel list_ ;;
    (if NDEBUG then ret tt
     else
       s1 <- sorted fuel l is_ascending ;;
       (if negb s1 then sort fuel l is_ascending else ret tt) ;;;
       s2 <- sorted fuel list_ is_ascending ;;
       if negb s2 then sort fuel new_list is_ascending else ret tt) ;;;
    let first_1 := head l in
    let end_1 := tail l in
    let first_2 := head new_list in
    let end_2 := tail new_list in
    i <- get_succ first_1 ;;
    j <- get_succ first_2 ;;
    let h := head l in
    r <- merge_both fuel end_1 end_2 is_ascending i j h 0 ;;
    let '(i, j, h, new_size) := r in
    r1 <- merge_rest fuel end_1 i h new_size ;;
    let '(i, h, new_size) := r1 in
    r2 <- merge_rest fuel end_2 j h new_size ;;
    let '(j, h, new_size) := r2 in
    tl <- get_succ h ;;
    forward_list_destroy fuel new_list ;;;
    ret (mkList (head l) tl new_size).

(** ** Lookup by value *)

(** The loop of [find]: [for (iter = begin(); iter != end(); iter++)],
    leaving with [iter] at the first node whose element is [elem]. *)
Fixpoint find_loop (fuel : nat) (l : forward_list) (elem : Elem) (iter : ptr)
  : M ptr :=
  match fuel with
  | O => out_of_fuel
  | S f =>
      if negb (ptr_eqb iter (end_ l))
      then x <- op_deref l iter ;;
           if (x =? elem)%Z then ret iter
           else iter' <- op_incr l iter ;; find_loop f l elem iter'
      else ret (end_ l)
  end.

(** [find] *)
Definition find (fuel : nat) (l : forward_list) (elem : Elem) : M ptr :=
  iter <- begin_ l ;; find_loop fuel l elem iter.

(** The range-for of [contains], left at the first match. *)
Fixpoint contains_loop (fuel : nat) (l : forward_list) (elem : Elem) (it : ptr)
  : M bool :=
  match fuel with
  | O => out_of_fuel
  | S f =>
      if negb (ptr_eqb it (end_ l))
      then elem_ <- op_deref l it ;;
           if (elem =? elem_)%Z then ret true
           else it' <- op_incr l it ;; contains_loop f l elem it'
      else ret false
  end.

(** [contains] *)
Definition contains (fuel : nat) (l : forward_list) (elem : Elem) : M bool :=
  it <- begin_ l ;; contains_loop fuel l elem it.

(** The range-for of [count]; the counter is a [size_t]. *)
Fixpoint count_loop (fuel : nat) (l : forward_list) (elem : Elem) (it : ptr)
  (count : Z) : M Z :=
  match fuel with
  | O => out_of_fuel
  | S f =>
      if negb (ptr_eqb it (end_ l))
      then elem_ <- op_deref l it ;;
           let count' := if (elem =? elem_)%Z then size_t_wrap (count + 1)
                         else count in
           it' <- op_incr l it ;;
           count_loop f l elem it' count'
      else ret count
  end.

(** [count] *)
Definition count (fuel : nat) (l : forward_list) (elem : Elem) : M Z :=
  it <- begin_ l ;; count_loop fuel l elem it 0.

(** ** assign, insert_after, push_front *)

(** [assign]; the checks compare with the sentinels of the receiver. *)
Definition assign (l : forward_list) (iter : ptr) (elem : Elem) : M unit :=
  (if NDEBUG then ret tt
   else if is_null iter then error_info TVJ_FORWARD_LIST_NULLPTR
   else if ptr_eqb iter (head l) then error_info TVJ_FORWARD_LIST_UNDERFLOW
   else if ptr_eqb iter (tail l) then error_info TVJ_FORWARD_LIST_OVERFLOW
   else ret tt) ;;;
  set_data iter elem.

(** [new Node(data_, succ_ptr)] *)
Definition new_Node_with (data_ : Elem) (succ_ptr : ptr) : M ptr :=
  fun h =>
    let a := fresh (dom h) in
    Done (Some a) (<[a := mkNode data_ succ_ptr]> h).

(** The inner loop of [insert_after], run once [i == iter]:
    [for (j = 0; j != n; j++)], each turn linking a new node behind [i]
    and stepping [i] onto it. *)
Fixpoint insert_after_fill (fuel : nat) (l : forward_list) (elem : Elem) (n : Z)
  (i : ptr) (j : Z) : M forward_list :=
  match fuel with
  | O => out_of_fuel
  | S f =>
      if negb (j =? n)%Z
      then s <- get_succ i ;;
           new_node <- new_Node_with elem s ;;
           set_succ i new_node ;;;
           i' <- op_incr l i ;;
           insert_after_fill f
             (mkList (head l) (tail l) (size_t_wrap (size_ l + 1)))
             elem n i' (size_t_wrap (j + 1))
      else ret l
  end.

(** The closing loop of [insert_after]:
    [for (j = 0; j != n; j++) push_back(elem)]. *)
Fixpoint insert_after_push (fuel : nat) (l : forward_list) (elem : Elem) (n : Z)
  (j : Z) : M forward_list :=
  match fuel with
  | O => out_of_fuel
  | S f =>
      if negb (j =? n)%Z
      then l' <- push_back l elem ;;
           insert_after_push f l' elem n (size_t_wrap (j + 1))
      else ret l
  end.

(** The search of [insert_after]:
    [for (i = cbefore_begin(); (i + 1) != cend(); i++)]. *)
Fixpoint insert_after_loop (fuel : nat) (l : forward_list) (iter : ptr)
  (elem : Elem) (n : Z) (i : ptr) : M forward_list :=
  match fuel with
  | O => out_of_fuel
  | S f =>
      n1 <- op_plus l i 1 ;;
      if negb (ptr_eqb n1 (cend l))
      then if ptr_eqb i iter
           then insert_after_fill fuel l elem n i 0
           else i' <- op_incr l i ;; insert_after_loop f l iter elem n i'
      else insert_after_push fuel l elem n 0
  end.

(** [insert_after(iter, elem, n)] *)
Definition insert_after_n (fuel : nat) (l : forward_list) (iter : ptr)
  (elem : Elem) (n : Z) : M forward_list :=
  if (n =? 0)%Z then ret l
  else insert_after_loop fuel l iter elem n (cbefore_begin l).

(** [insert_after(iter, elem)] *)
Definition insert_after (fuel : nat) (l : forward_list) (iter : ptr)
  (elem : Elem) : M forward_list :=
  insert_after_n fuel l iter elem 1.

(** [push_front] *)
Definition push_front (fuel : nat) (l : forward_list) (elem : Elem)
  : M forward_list :=
  insert_after fuel l (head l) elem.

(** ** link *)

(** [link]; [new_list] is a local, destroyed when the function returns. *)
Definition link (fuel : nat) (l list_ : forward_list) : M forward_list :=
  if empty list_ then ret l
  else
    new_list <- forward_list_copy fuel list_ ;;
    let size' := size_t_wrap (size_ l + size_ list_) in
    n1 <- get_succ (head new_list) ;;
    d1 <- get_data n1 ;;
    set_data (tail l) d1 ;;;
    n1' <- get_succ (head new_list) ;;
    s1 <- get_succ n1' ;;
    set_succ (tail l) s1 ;;;
    forward_list_destroy fuel new_list ;;;
    ret (mkList (head l) (tail new_list) size').

End Forward_List.

(** ** Running a scenario from the empty heap *)

Definition run {A} (m : M A) : outcome A := m ∅.

(** What a scenario leaves to look at: the printed elements and [size()],
    without the heap. *)
Definition observe {A} (o : outcome A) : outcome A :=
  match o with
  | Done a _ => Done a ∅
  | o' => o'
  end.

(** Build a list from an array, run [op] on it, print the result;
    uninitialised data reads as 0. *)
Definition scenario (NDEBUG : bool) (arr : list Elem)
  (op : forward_list -> M forward_list) : outcome (list Elem * Z) :=
  observe (run (l <- forward_list_of_array 0%Z arr ;;
                l' <- op l ;;
                xs <- printForwardList NDEBUG 100 l' ;;
                ret (xs, size l'))).

(** * The shape of a well-formed list in the heap *)

(** A cell is a node's address with the element it stores. *)
Abbreviation cell := (loc * Elem)%type.

Definition first_ptr (c : list cell) (q : ptr) : ptr :=
  match c with
  | [] => q
  | n :: _ => Some n.1
  end.

(** [links h c q]: the cells of [c] are nodes of [h], each linked to the
    next one and the last one to [q]. *)
Fixpoint links (h : heap) (c : list cell) (q : ptr) : Prop :=
  match c with
  | [] => True
  | n :: c' => h !! n.1 = Some (mkNode n.2 (first_ptr c' q)) /\ links h c' q
  end.

(** The cursor at the [k]-th cell of a chain; [nullptr] past its end. *)
Definition ptr_at (c : list cell) (k : nat) : ptr := fst <$> c !! k.

(** [cursors_of l c]: the cells of [c] are distinct nodes, the first one
    is the [head] sentinel of [l] and the last one its [tail] sentinel. *)
Definition cursors_of (l : forward_list) (c : list cell) : Prop :=
  NoDup c.*1 /\
  head l = ptr_at c 0 /\ tail l = ptr_at c (length c - 1) /\ 2 <= length c.

(** [chain_of h l c]: [c] is the whole chain of [l], from the [head]
    sentinel to the [tail] sentinel, whose link is null. *)
Definition chain_of (h : heap) (l : forward_list) (c : list cell) : Prop :=
  links h c None /\ cursors_of l c.

(** [is_list h l hd ns tl]: the list [l] owns the sentinel [hd], the
    element nodes [ns] in order, and the sentinel [tl]; [size_] counts
    [ns]. *)
Definition is_list (h : heap) (l : forward_list) (hd : cell) (ns : list cell)
  (tl : cell) : Prop :=
  chain_of h l (hd :: ns ++ [tl]) /\
  size_ l = Z.of_nat (length ns) /\ (Z.of_nat (length ns) < 2 ^ 64)%Z.

(** The elements of a well-formed list, front to back. *)
Definition elems (ns : list cell) : list Elem := ns.*2.

(** ** Freed nodes *)

Definition free_cells (cs : list cell) (h : heap) : heap :=
  foldl (fun h' n => delete n.1 h') h cs.

(** The heap after a loop that frees [cs] in the fast build only. *)
Definition freed (NDEBUG : bool) (cs : list cell) (h : heap) : heap :=
  if NDEBUG then free_cells cs h else h.

(** ** Sequences of push_back, pop_front and pop_back calls *)

Inductive call :=
| call_push_back (elem : Elem)
| call_pop_front
| call_pop_back.

Definition do_call (NDEBUG : bool) (indeterminate : Elem) (fuel : nat)
  (l : forward_list) (c : call) : M forward_list :=
  match c with
  | call_push_back elem => push_back indeterminate l elem
  | call_pop_front => pop_front l
  | call_pop_back => pop_back NDEBUG fuel l
  end.

Fixpoint do_calls (NDEBUG : bool) (indeterminate : Elem) (fuel : nat)
  (l : forward_list) (cs : list call) : M forward_list :=
  match cs with
  | [] => ret l
  | c :: cs' =>
      l' <- do_call NDEBUG indeterminate fuel l c ;;
      do_calls NDEBUG indeterminate fuel l' cs'
  end.

(** What a call does to the sequence of elements: a push appends, a pop
    drops the first or the last element, and does nothing when there is
    none. *)
Definition after_call (xs : list Elem) (c : call) : list Elem :=
  match c with
  | call_push_back elem => xs ++ [elem]
  | call_pop_front => drop 1 xs
  | call_pop_back => take (length xs - 1) xs
  end.

Fixpoint after_calls (xs : list Elem) (cs : list call) : list Elem :=
  match cs with
  | [] => xs
  | c :: cs' => after_calls (after_call xs c) cs'
  end.

(** The number of pushes among the calls. *)
Fixpoint pushes (cs : list call) : nat :=
  match cs with
  | [] => 0
  | call_push_back _ :: cs' => S (pushes cs')
  | _ :: cs' => pushes cs'
  end.

(** The number of pops that found an element to remove, the calls being
    made on a list that holds [xs]. *)
Fixpoint successful_pops (xs : list Elem) (cs : list call) : nat :=
  match cs with
  | [] => 0
  | c :: cs' =>
      (match c, xs with
       | call_push_back _, _ => 0
       | _, [] => 0
       | _, _ :: _ => 1
       end) + successful_pops (after_call xs c) cs'
  end.

(** ** What sorted and merge compute on sequences of elements *)

(** The test [sorted] makes on two neighbours: equal elements pass, and
    otherwise [a < b] must agree with the order asked for. *)
Definition in_order (is_ascending : bool) (a b : Elem) : bool :=
  if (a =? b)%Z then true else negb (xorb (a <? b)%Z is_ascending).

Fixpoint is_sorted (is_ascending : bool) (xs : list Elem) : bool :=
  match xs with
  | a :: rest =>
      match rest with
      | b :: _ => in_order is_ascending a b && is_sorted is_ascending rest
      | [] => true
      end
  | [] => true
  end.

(** The sequence the three loops of [merge] build from two chains: on
    equal heads the left one is taken and the right one is skipped. *)
Fixpoint merge_by {A} (key : A -> Elem) (is_ascending : bool) (ns : list A)
  : list A -> list A :=
  fix go (ms : list A) : list A :=
    match ns, ms with
    | [], _ => ms
    | _, [] => ns
    | n :: ns', m :: ms' =>
        if (key n =? key m)%Z then n :: merge_by key is_ascending ns' ms'
        else if xorb (key n <? key m)%Z (negb is_ascending)
             then n :: merge_by key is_ascending ns' ms
             else m :: go ms'
    end.

(** The right heads the merge skips because they tie with a left head. *)
Fixpoint merge_skipped (is_ascending : bool) (xs : list Elem) : list Elem -> list Elem :=
  fix go (ys : list Elem) : list Elem :=
    match xs, ys with
    | [], _ => []
    | _, [] => []
    | x :: xs', y :: ys' =>
        if (x =? y)%Z then y :: merge_skipped is_ascending xs' ys'
        else if xorb (x <? y)%Z (negb is_ascending)
             then merge_skipped is_ascending xs' ys
             else go ys'
    end.

Definition merge_elems (is_ascending : bool) (xs ys : list Elem) : list Elem :=
  merge_by id is_ascending xs ys.

Definition merge_cells (is_ascending : bool) (ns ms : list cell) : list cell :=
  merge_by snd is_ascending ns ms.

(** [a] may stand in front of the sequence [l]. *)
Definition before (asc : bool) (a : Elem) (l : list Elem) : bool :=
  match l with
  | [] => true
  | b :: _ => in_order asc a b
  end.

(** ** Heaps that grow *)

(** [h'] keeps every node of [h] as it is. *)
Definition extends (h h' : heap) : Prop :=
  forall a n, h !! a = Some n -> h' !! a = Some n.

(** All the cells of [c] are outside [h]. *)
Definition outside (h : heap) (c : list cell) : Prop :=
  forall n, n ∈ c -> h !! n.1 = None.

(** ** The state of merge between two steps

    [h1] is the heap when the loops start and [h'] the heap now.  The
    nodes linked so far are [pre ++ [hl]]: those of [pre] have their new
    links, [hl] (the node [h] points to) still has the link it had in
    [h1].  [nr] and [mr] are what is left of the two chains, before their
    sentinels [tl] and [tl2]. *)
Definition merge_inv (h1 h' : heap) (pre : list cell) (hl : cell)
  (nr : list cell) (tl : cell) (mr : list cell) (tl2 : cell) : Prop :=
  links h' pre (Some hl.1) /\
  (forall a, a ∉ pre.*1 -> h' !! a = h1 !! a) /\
  NoDup ((pre ++ [hl]) ++ (nr ++ [tl]) ++ (mr ++ [tl2])).*1 /\
  links h1 (nr ++ [tl]) None /\
  links h1 (mr ++ [tl2]) None /\
  exists s, h1 !! hl.1 = Some (mkNode hl.2 s) /\
            (s = first_ptr nr (Some tl.1) \/ s = first_ptr mr (Some tl2.1)).

(** ** Walks that end

    [walks h stop p k]: following links from [p] in [h] reaches [nullptr]
    or [stop] within [k] steps, through nodes that are all in [h]. *)
Inductive walks (h : heap) (stop : ptr) : ptr -> nat -> Prop :=
| walks_null k : walks h stop None k
| walks_stop k : walks h stop stop k
| walks_step a nd k :
    Some a <> stop -> h !! a = Some nd -> walks h stop (succ nd) k ->
    walks h stop (Some a) (S k).

(** ** Two lists in one heap, for trying the theorems out

    [example_list] is [10, 20, 30] at addresses 1 to 3 between the
    sentinels 0 and 4; [example_other] is [15, 20] at addresses 6 and 7
    between the sentinels 5 and 8. *)
Definition example_heap : heap :=
  list_to_map
    [(0, mkNode 0%Z (Some 1)); (1, mkNode 10%Z (Some 2)); (2, mkNode 20%Z (Some 3));
     (3, mkNode 30%Z (Some 4)); (4, mkNode 0%Z None);
     (5, mkNode 0%Z (Some 6)); (6, mkNode 15%Z (Some 7)); (7, mkNode 20%Z (Some 8));
     (8, mkNode 0%Z None)].

Definition example_list : forward_list := mkList (Some 0) (Some 4) 3.
Definition example_cells : list cell := [(1, 10%Z); (2, 20%Z); (3, 30%Z)].

Definition example_other : forward_list := mkList (Some 5) (Some 8) 2.
Definition example_other_cells : list cell := [(6, 15%Z); (7, 20%Z)].

(** Pushes and pops, among them pops on the empty list. *)
Definition example_calls : list call :=
  [call_push_back 9; call_push_back (-12); call_pop_front; call_push_back 7;
   call_pop_back; call_pop_back; call_pop_back; call_push_back 1024]%Z.

(** ** The claims of the specification at a given input *)

(** The cursor [begin() + k]. *)
Definition cursor (NDEBUG : bool) (l : forward_list) (k : nat) : M ptr :=
  b <- begin_ l ;; op_plus NDEBUG l b k.

(** "[erase_after(iter1)] keeps the element at [iter1]", for [iter1] at
    position [k] of the list built from [arr]. *)
Definition erase_after_keeps_iter1 (NDEBUG : bool) (arr : list Elem) (k : nat) : Prop :=
  scenario NDEBUG arr
    (fun l => it <- cursor NDEBUG l k ;; erase_after1 NDEBUG 100 l it)
  = Done (take (S k) arr, Z.of_nat (S k)) ∅.

(** "[erase_after(iter1, iter2)] removes the open interval", for the
    cursors at positions [k1 <= k2]. *)
Definition erase_after_open_interval (NDEBUG : bool) (arr : list Elem)
  (k1 k2 : nat) : Prop :=
  scenario NDEBUG arr
    (fun l => it1 <- cursor NDEBUG l k1 ;;
              it2 <- cursor NDEBUG l k2 ;;
              erase_after2 NDEBUG 100 l it1 it2)
  = Done (take (S k1) arr ++ drop k2 arr,
          Z.of_nat (length (take (S k1) arr ++ drop k2 arr))) ∅.

(** "[clear()] leaves what [erase_after(before_begin())] leaves." *)
Definition clear_like_erase_after_before_begin (NDEBUG : bool) (arr : list Elem)
  : Prop :=
  scenario NDEBUG arr (fun l => clear NDEBUG 100 l)
  = scenario NDEBUG arr (fun l => erase_after1 NDEBUG 100 l (before_begin l)).

(** "[merge] of two sorted lists is sorted, has the size of both and the
    elements of both." *)
Definition merge_keeps_everything (NDEBUG : bool) (xs ys : list Elem)
  (is_ascending : bool) : Prop :=
  exists zs,
    scenario NDEBUG xs
      (fun l => other <- forward_list_of_array 0%Z ys ;;
                merge NDEBUG 0%Z 100 l other is_ascending)
    = Done (zs, Z.of_nat (length xs + length ys)) ∅ /\
    is_sorted is_ascending zs = true /\ zs ≡ₚ xs ++ ys.

(** ** What the lookups compute on the sequence of elements *)

(** The position of the first element equal to [elem]; the length of the
    sequence when there is none. *)
Fixpoint first_index (elem : Elem) (xs : list Elem) : nat :=
  match xs with
  | [] => 0
  | x :: xs' => if (x =? elem)%Z then 0 else S (first_index elem xs')
  end.

(** How often [elem] occurs. *)
Definition occurrences (elem : Elem) (xs : list Elem) : nat :=
  length (filter (fun x => x = elem) xs).

(** ** Sequences on which unique has nothing to remove *)

(** No element equals its right neighbour. *)
Fixpoint no_equal_neighbours (xs : list Elem) : bool :=
  match xs with
  | a :: rest =>
      match rest with
      | b :: _ => negb (a =? b)%Z && no_equal_neighbours rest
      | [] => true
      end
  | [] => true
  end.

(** ** What _inplace_merge computes, and its state between two steps *)

(** The sequence the three loops of [_inplace_merge] build from two
    ranges: the left head is taken when [(a < b) ^ !is_ascending], the
    right head otherwise. *)
Fixpoint inplace_merge_cells (is_ascending : bool) (ns : list cell)
  : list cell -> list cell :=
  fix go (ms : list cell) : list cell :=
    match ns, ms with
    | [], _ => ms
    | _, [] => ns
    | n :: ns', m :: ms' =>
        if xorb (n.2 <? m.2)%Z (negb is_ascending)
        then n :: inplace_merge_cells is_ascending ns' ms
        else m :: go ms'
    end.

(** [h1] is the heap when the loops start and [h'] the heap now.  The
    nodes linked so far are [pre ++ [hl]]: those of [pre] have their new
    links, [hl] (the node [h] points to) still has the link it had in
    [h1], like the nodes [free] that are still to come. *)
Definition inplace_inv (h1 h' : heap) (pre : list cell) (hl : cell)
  (free : list cell) : Prop :=
  links h' pre (Some hl.1) /\
  (forall a, a ∉ pre.*1 -> h' !! a = h1 !! a) /\
  NoDup ((pre ++ [hl]) ++ free).*1 /\
  exists s, h1 !! hl.1 = Some (mkNode hl.2 s).

(** What is left of one of the two ranges: the nodes [X], linked in [h1]
    up to [q], the link of the last node [bound] of the range; once [X]
    is used up, [bound] is the node linked last. *)
Definition inplace_range (h1 : heap) (X : list cell) (q : ptr) (bound hl : cell)
  : Prop :=
  links h1 X q /\ h1 !! bound.1 = Some (mkNode bound.2 q) /\
  (forall x, x ∈ X -> Some x.1 <> q) /\
  (last X = Some bound \/ (X = [] /\ hl = bound)).

(** ** An unsorted list, for trying the theorems out

    [example_mixed] is [30, 10, 20] at addresses 1 to 3 between the
    sentinels 0 and 4. *)
Definition example_mixed_heap : heap :=
  list_to_map
    [(0, mkNode 0%Z (Some 1)); (1, mkNode 30%Z (Some 2)); (2, mkNode 10%Z (Some 3));
     (3, mkNode 20%Z (Some 4)); (4, mkNode 0%Z None)].

Definition example_mixed : forward_list := mkList (Some 0) (Some 4) 3.
Definition example_mixed_cells : list cell := [(1, 30%Z); (2, 10%Z); (3, 20%Z)].

(** ** Stepping through monadic code *)

Lemma bind_Done {A B} (m : M A) (k : A -> M B) h a h' :
  m h = Done a h' -> bind m k h = k a h'.
Proof. intros E. unfold bind. by rewrite E. Qed.

(** One step of a sequence whose first action is known to finish. *)
Tactic Notation "step" uconstr(E) := rewrite (bind_Done _ _ _ _ _ E).

Lemma load_Some h a n : h !! a = Some n -> load (Some a) h = Done n h.
Proof. intros E. unfold load. by rewrite E. Qed.

Lemma get_succ_Some h a n :
  h !! a = Some n -> get_succ (Some a) h = Done (succ n) h.
Proof. intros E. unfold get_succ. by step (load_Some _ _ _ E). Qed.

Lemma get_data_Some h a n :
  h !! a = Some n -> get_data (Some a) h = Done (data n) h.
Proof. intros E. unfold get_data. by step (load_Some _ _ _ E). Qed.

Lemma set_succ_Some h a n q :
  h !! a = Some n -> set_succ (Some a) q h = Done tt (<[a := mkNode (data n) q]> h).
Proof.
  intros E. unfold set_succ. rewrite (bind_Done _ _ _ _ _ (load_Some _ _ _ E)).
  unfold store. by rewrite E.
Qed.

Lemma set_data_Some h a n x :
  h !! a = Some n -> set_data (Some a) x h = Done tt (<[a := mkNode x (succ n)]> h).
Proof.
  intros E. unfold set_data. rewrite (bind_Done _ _ _ _ _ (load_Some _ _ _ E)).
  unfold store. by rewrite E.
Qed.

Lemma delete_Node_Some h a n :
  h !! a = Some n -> delete_Node (Some a) h = Done tt (delete a h).
Proof. intros E. unfold delete_Node. by rewrite E. Qed.

Lemma ptr_eqb_true p q : ptr_eqb p q = true <-> p = q.
Proof. unfold ptr_eqb. apply bool_decide_eq_true. Qed.

Lemma ptr_eqb_false p q : ptr_eqb p q = false <-> p <> q.
Proof. unfold ptr_eqb. apply bool_decide_eq_false. Qed.

Lemma ptr_eqb_refl p : ptr_eqb p p = true.
Proof. by apply ptr_eqb_true. Qed.

(** ** Chains *)

Lemma first_ptr_drop (c : list cell) k : first_ptr (drop k c) None = ptr_at c k.
Proof.
  unfold ptr_at. revert k. induction c as [|n c IH]; intros [|k]; simpl; done.
Qed.

Lemma links_app h c1 c2 q :
  links h (c1 ++ c2) q <-> links h c1 (first_ptr c2 q) /\ links h c2 q.
Proof.
  induction c1 as [|n c1 IH]; simpl; [tauto|].
  rewrite IH. destruct c1; simpl; tauto.
Qed.

Lemma links_lookup h c q k n :
  links h c q -> c !! k = Some n ->
  h !! n.1 = Some (mkNode n.2 (first_ptr (drop (S k) c) q)).
Proof.
  revert k. induction c as [|m c IH]; intros [|k]; simpl; try done.
  - intros [E _] [= ->]. by rewrite drop_0.
  - intros [_ L] E. by apply IH.
Qed.

Lemma links_insert h c q a n :
  a ∉ c.*1 -> links h c q -> links (<[a := n]> h) c q.
Proof.
  induction c as [|m c IH]; simpl; [done|].
  intros Hn [E L]. apply not_elem_of_cons in Hn as [Hne Hn].
  split; [|by apply IH]. by rewrite lookup_insert_ne.
Qed.

Lemma links_delete h c q a :
  a ∉ c.*1 -> links h c q -> links (delete a h) c q.
Proof.
  induction c as [|m c IH]; simpl; [done|].
  intros Hn [E L]. apply not_elem_of_cons in Hn as [Hne Hn].
  split; [|by apply IH]. by rewrite lookup_delete_ne.
Qed.

Lemma ptr_at_Some (c : list cell) k n : c !! k = Some n -> ptr_at c k = Some n.1.
Proof. unfold ptr_at. by intros ->. Qed.

Lemma ptr_at_None (c : list cell) k : length c <= k -> ptr_at c k = None.
Proof. unfold ptr_at. intros H. by rewrite lookup_ge_None_2. Qed.

Lemma ptr_at_lt (c : list cell) k :
  k < length c -> exists n, c !! k = Some n /\ ptr_at c k = Some n.1.
Proof.
  intros H. destruct (lookup_lt_is_Some_2 c k H) as [n E].
  exists n. split; [done|]. by apply ptr_at_Some.
Qed.

Lemma ptr_at_inj (c : list cell) i j :
  NoDup c.*1 -> i < length c -> ptr_at c i = ptr_at c j -> i = j.
Proof.
  intros ND Hi E. destruct (ptr_at_lt c i Hi) as (n & En & Pn).
  rewrite Pn in E. unfold ptr_at in E.
  destruct (c !! j) as [m|] eqn:Em; simpl in E; [|done].
  injection E as E.
  eapply NoDup_lookup; [exact ND| |].
  - rewrite list_lookup_fmap, En. done.
  - rewrite list_lookup_fmap, Em. simpl. by rewrite E.
Qed.

Lemma ptr_eqb_at (c : list cell) i j :
  NoDup c.*1 -> i < length c -> ptr_eqb (ptr_at c i) (ptr_at c j) = bool_decide (i = j).
Proof.
  intros ND Hi. unfold ptr_eqb. apply bool_decide_ext. split.
  - by apply ptr_at_inj.
  - by intros ->.
Qed.

Lemma advance_chain h (c : list cell) n k :
  links h c None -> k + n <= length c ->
  advance n (ptr_at c k) h = Done (ptr_at c (k + n)) h.
Proof.
  intros L. revert k. induction n as [|n IH]; intros k Hk; simpl.
  - by rewrite Nat.add_0_r.
  - destruct (ptr_at_lt c k ltac:(lia)) as (m & Em & Pm).
    rewrite Pm. pose proof (links_lookup _ _ _ _ _ L Em) as Hm.
    rewrite (bind_Done _ _ _ _ _ (get_succ_Some _ _ _ Hm)). simpl.
    rewrite first_ptr_drop. rewrite IH by lia. f_equal. f_equal. lia.
Qed.

(** ** Cursors over a chain *)

Section Cursors.

Variable NDEBUG : bool.
Variables (l : forward_list) (c : list cell).
Hypothesis C : cursors_of l c.

Lemma check_advance_chain h k :
  k < length c - 1 -> check_advance NDEBUG l (ptr_at c k) h = Done tt h.
Proof.
  intros Hk. destruct C as (ND & Hh & Ht & Hlen).
  unfold check_advance. destruct NDEBUG; [done|].
  destruct (ptr_at_lt c k ltac:(lia)) as (n & En & Pn).
  unfold is_null. rewrite Pn. rewrite bool_decide_eq_false_2 by done.
  rewrite <- Pn, Ht, ptr_eqb_at by (done || lia).
  rewrite bool_decide_eq_false_2 by lia. done.
Qed.

Lemma check_deref_chain h k :
  0 < k < length c - 1 -> check_deref NDEBUG l (ptr_at c k) h = Done tt h.
Proof.
  intros Hk. destruct C as (ND & Hh & Ht & Hlen).
  unfold check_deref. destruct NDEBUG; [done|].
  destruct (ptr_at_lt c k ltac:(lia)) as (n & En & Pn).
  unfold is_null. rewrite Pn. rewrite bool_decide_eq_false_2 by done.
  rewrite <- Pn, Hh, Ht, !ptr_eqb_at by (done || lia).
  rewrite !bool_decide_eq_false_2 by lia. done.
Qed.

Lemma op_plus_chain h k n :
  links h c None -> k < length c - 1 -> k + n <= length c ->
  op_plus NDEBUG l (ptr_at c k) n h = Done (ptr_at c (k + n)) h.
Proof.
  intros L Hk Hn. unfold op_plus.
  step ((check_advance_chain h k Hk)).
  by apply advance_chain.
Qed.

(** One step from a cell whose node is in the heap, whatever became of
    the cells before it. *)
Lemma op_incr_cell h k n :
  k < length c - 1 -> c !! k = Some n ->
  h !! n.1 = Some (mkNode n.2 (ptr_at c (S k))) ->
  op_incr NDEBUG l (ptr_at c k) h = Done (ptr_at c (S k)) h.
Proof.
  intros Hk En Hn. unfold op_incr.
  step ((check_advance_chain h k Hk)).
  rewrite (ptr_at_Some _ _ _ En).
  by rewrite (get_succ_Some _ _ _ Hn).
Qed.

Lemma op_incr_chain h k :
  links h c None -> k < length c - 1 ->
  op_incr NDEBUG l (ptr_at c k) h = Done (ptr_at c (S k)) h.
Proof.
  intros L Hk.
  destruct (ptr_at_lt c k ltac:(lia)) as (n & En & Pn).
  apply (op_incr_cell h k n Hk En).
  rewrite (links_lookup _ _ _ _ _ L En). by rewrite first_ptr_drop.
Qed.

Lemma op_deref_chain h k n :
  links h c None -> 0 < k < length c - 1 -> c !! k = Some n ->
  op_deref NDEBUG l (ptr_at c k) h = Done n.2 h.
Proof.
  intros L Hk En. unfold op_deref.
  step ((check_deref_chain h k Hk)).
  rewrite (ptr_at_Some _ _ _ En).
  by rewrite (get_data_Some _ _ _ (links_lookup _ _ _ _ _ L En)).
Qed.

Lemma cend_at : cend l = ptr_at c (length c - 1).
Proof. apply C. Qed.

Lemma head_at : head l = ptr_at c 0.
Proof. apply C. Qed.

Lemma begin_chain h : links h c None -> begin_ l h = Done (ptr_at c 1) h.
Proof.
  intros L. unfold begin_. rewrite head_at.
  destruct C as (_ & _ & _ & Hlen).
  destruct (ptr_at_lt c 0 ltac:(lia)) as (n & En & Pn). rewrite Pn.
  rewrite (get_succ_Some _ _ _ (links_lookup _ _ _ _ _ L En)). simpl.
  by rewrite first_ptr_drop.
Qed.

End Cursors.

(** ** remove_at on a cursor that is not an element of the list *)

Lemma remove_at_loop_not_found NDEBUG h l c iter tl fuel k :
  chain_of h l c ->
  (forall j, 0 < j < length c - 1 -> ptr_at c j <> iter) ->
  c !! (length c - 1) = Some tl ->
  k < length c - 1 -> length c - 1 - k <= fuel ->
  remove_at_loop NDEBUG fuel l iter (ptr_at c k) h = Done (tl.2, false, l) h.
Proof.
  intros [L C] Hit Ha. revert k. induction fuel as [|fuel IH]; intros k Hk Hf; [lia|].
  simpl. pose proof C as (ND & Hh & Ht & Hlen).
  step ((op_plus_chain NDEBUG l c C h k 1 L Hk ltac:(lia))).
  rewrite (cend_at l c C), ptr_eqb_at by (done || lia).
  case_bool_decide as Hlast; simpl.
  - rewrite Ht, (ptr_at_Some _ _ _ Ha).
    step ((get_data_Some _ _ _ (links_lookup _ _ _ _ _ L Ha))).
    done.
  - step ((op_plus_chain NDEBUG l c C h k 1 L Hk ltac:(lia))).
    assert (ptr_eqb (ptr_at c (k + 1)) iter = false) as ->.
    { apply ptr_eqb_false. apply Hit. lia. }
    simpl.
    step ((op_incr_chain NDEBUG l c C h k L Hk)).
    apply IH; lia.
Qed.

(** ** Freed nodes *)

Lemma free_cells_lookup cs h a : a ∉ cs.*1 -> free_cells cs h !! a = h !! a.
Proof.
  revert h. induction cs as [|n cs IH]; intros h Hn; simpl; [done|].
  apply not_elem_of_cons in Hn as [Hne Hn].
  unfold free_cells in *. simpl. rewrite IH by done. by rewrite lookup_delete_ne.
Qed.

Lemma freed_lookup b cs h a : a ∉ cs.*1 -> freed b cs h !! a = h !! a.
Proof. destruct b; simpl; [apply free_cells_lookup | done]. Qed.

Lemma links_frame h h' c q :
  (forall a, a ∈ c.*1 -> h' !! a = h !! a) -> links h c q -> links h' c q.
Proof.
  induction c as [|n c IH]; simpl; [done|].
  intros Hs [E L]. split.
  - rewrite Hs; [done | apply list_elem_of_here].
  - apply IH; [|done]. intros a Ha. apply Hs. by apply list_elem_of_further.
Qed.

Lemma size_t_wrap_small z : (0 <= z < 2 ^ 64)%Z -> size_t_wrap z = z.
Proof. intros H. unfold size_t_wrap. by apply Z.mod_small. Qed.

Lemma NoDup_later (c : list cell) m n :
  NoDup c.*1 -> c !! m = Some n -> n.1 ∉ (drop (S m) c).*1.
Proof.
  intros ND E. rewrite <- (take_drop_middle c m n E) in ND.
  rewrite fmap_app, fmap_cons in ND.
  apply NoDup_app in ND as (_ & _ & ND). by apply NoDup_cons in ND as [? _].
Qed.

Lemma NoDup_earlier (c : list cell) m n :
  NoDup c.*1 -> c !! m = Some n -> n.1 ∉ (take m c).*1.
Proof.
  intros ND E. rewrite <- (take_drop_middle c m n E) in ND.
  rewrite fmap_app, fmap_cons in ND.
  apply NoDup_app in ND as (_ & ND & _). intros Hin. apply (ND _ Hin).
  apply list_elem_of_here.
Qed.

Lemma links_drop h c q m n :
  links h (drop m c) q -> c !! m = Some n ->
  h !! n.1 = Some (mkNode n.2 (first_ptr (drop (S m) c) q)) /\
  links h (drop (S m) c) q.
Proof. intros L E. by rewrite (drop_S _ _ _ E) in L. Qed.

(** ** The inner loops of erase_after *)

Lemma erase_after2_inner_chain NDEBUG l c s fuel :
  cursors_of l c -> s <= length c - 1 ->
  forall m t h,
    m <= s -> links h (drop m c) None -> s - m < fuel ->
    (0 <= t)%Z -> (t + Z.of_nat (s - m) < 2 ^ 64)%Z ->
    erase_after2_inner NDEBUG fuel l (ptr_at c s) (ptr_at c m) t h
    = Done (ptr_at c s, (t + Z.of_nat (s - m))%Z)
        (freed NDEBUG (take (s - m) (drop m c)) h).
Proof.
  intros C Hs. pose proof C as (ND & Hh & Ht & Hlen).
  induction fuel as [|fuel IH]; intros m t h Hm L Hf Ht0 Ht1; [lia|].
  simpl. rewrite (cend_at l c C).
  rewrite !ptr_eqb_at by (done || lia).
  destruct (decide (m = s)) as [->|Hne].
  - rewrite bool_decide_eq_true_2 by done. simpl.
    rewrite Nat.sub_diag. simpl. rewrite Z.add_0_r. by destruct NDEBUG.
  - rewrite !bool_decide_eq_false_2 by lia. simpl.
    destruct (ptr_at_lt c m ltac:(lia)) as (n & En & Pn).
    destruct (links_drop _ _ _ _ _ L En) as [Hn L'].
    rewrite first_ptr_drop in Hn.
    step ((op_incr_cell NDEBUG l c C h m n ltac:(lia) En Hn)).
    replace (s - m) with (S (s - S m)) by lia.
    rewrite (drop_S _ _ _ En). simpl take.
    destruct NDEBUG; simpl.
    + rewrite Pn. unfold is_null. rewrite bool_decide_eq_false_2 by done. simpl.
      step ((delete_Node_Some _ _ _ Hn)).
      rewrite size_t_wrap_small by lia.
      rewrite IH; try lia.
      * f_equal. f_equal. lia.
      * apply links_delete; [|done]. by apply NoDup_later.
    + unfold bind at 1. unfold ret at 1.
      rewrite size_t_wrap_small by lia.
      rewrite IH; try lia; [|done]. f_equal. f_equal. lia.
Qed.

Lemma erase_after1_inner_chain NDEBUG l c fuel :
  cursors_of l c ->
  forall m t h,
    m <= length c - 1 -> links h (drop m c) None -> length c - 1 - m < fuel ->
    (0 <= t)%Z -> (t + Z.of_nat (length c - 1 - m) < 2 ^ 64)%Z ->
    erase_after1_inner NDEBUG fuel l (ptr_at c (length c - 1)) (ptr_at c m) t h
    = Done (ptr_at c (length c - 1), (t + Z.of_nat (length c - 1 - m))%Z)
        (freed NDEBUG (take (length c - 1 - m) (drop m c)) h).
Proof.
  intros C. pose proof C as (ND & Hh & Ht & Hlen).
  induction fuel as [|fuel IH]; intros m t h Hm L Hf Ht0 Ht1; [lia|].
  simpl.
  rewrite !ptr_eqb_at by (done || lia).
  destruct (ptr_at_lt c m ltac:(lia)) as (n & En & Pn).
  assert (is_null (ptr_at c m) = false) as ->.
  { rewrite Pn. by apply bool_decide_eq_false_2. }
  destruct (decide (m = length c - 1)) as [Heq|Hne].
  - rewrite bool_decide_eq_true_2 by done. simpl.
    replace (length c - 1 - m) with 0 by lia. simpl. rewrite Z.add_0_r.
    rewrite <- Heq. by destruct NDEBUG.
  - rewrite !bool_decide_eq_false_2 by lia. simpl.
    destruct (links_drop _ _ _ _ _ L En) as [Hn L'].
    rewrite first_ptr_drop in Hn.
    step ((op_incr_cell NDEBUG l c C h m n ltac:(lia) En Hn)).
    replace (length c - 1 - m) with (S (length c - 1 - S m)) by lia.
    rewrite (drop_S _ _ _ En). simpl take.
    destruct NDEBUG; simpl.
    + rewrite Pn at 1.
      step ((delete_Node_Some _ _ _ Hn)).
      rewrite size_t_wrap_small by lia.
      rewrite IH; try lia.
      * f_equal. f_equal. lia.
      * apply links_delete; [|done]. by apply NoDup_later.
    + unfold bind at 1. unfold ret at 1.
      rewrite size_t_wrap_small by lia.
      rewrite IH; try lia; [|done]. f_equal. f_equal. lia.
Qed.

(** ** Cutting a range out of a chain *)

Lemma cell_index_inj (c : list cell) i j n m :
  NoDup c.*1 -> c !! i = Some n -> c !! j = Some m -> n.1 = m.1 -> i = j.
Proof.
  intros ND En Em E. eapply NoDup_lookup; [exact ND| |].
  - rewrite list_lookup_fmap, En. done.
  - rewrite list_lookup_fmap, Em. simpl. by rewrite E.
Qed.

Lemma elem_of_slice (c : list cell) u t a :
  a ∈ (take t (drop u c)).*1 ->
  exists i n, u <= i < u + t /\ c !! i = Some n /\ n.1 = a.
Proof.
  intros Ha. apply list_elem_of_fmap in Ha as (n & -> & Hn).
  apply list_elem_of_lookup in Hn as (i & Hi).
  apply lookup_take_Some in Hi as [Hi Hlt]. rewrite lookup_drop in Hi.
  exists (u + i), n. split; [lia|done].
Qed.

Lemma elem_of_take_fst (c : list cell) t a :
  a ∈ (take t c).*1 -> exists i n, i < t /\ c !! i = Some n /\ n.1 = a.
Proof.
  intros Ha. rewrite <- (drop_0 c) in Ha.
  apply elem_of_slice in Ha as (i & n & Hi & E & Hn).
  exists i, n. split; [lia|done].
Qed.

Lemma elem_of_drop_fst (c : list cell) u a :
  a ∈ (drop u c).*1 -> exists i n, u <= i /\ c !! i = Some n /\ n.1 = a.
Proof.
  intros Ha. rewrite <- (take_ge (drop u c) (length c)) in Ha
    by (rewrite length_drop; lia).
  apply elem_of_slice in Ha as (i & n & Hi & E & Hn).
  exists i, n. split; [lia|done].
Qed.

Lemma links_suffix h (c : list cell) q m : links h c q -> links h (drop m c) q.
Proof. intros L. rewrite <- (take_drop m c) in L. apply links_app in L. apply L. Qed.

Lemma links_prefix h (c : list cell) q m :
  links h c q -> links h (take m c) (first_ptr (drop m c) q).
Proof. intros L. rewrite <- (take_drop m c) in L. apply links_app in L. apply L. Qed.

Lemma chain_cut b h (c : list cell) k s x :
  links h c None -> NoDup c.*1 -> c !! k = Some x -> k < s -> s <= length c - 1 ->
  links (<[x.1 := mkNode x.2 (ptr_at c s)]>
           (freed b (take (s - S k) (drop (S k) c)) h))
        (take (S k) c ++ drop s c) None.
Proof.
  intros L ND Ex Hks Hs.
  set (h' := <[x.1 := _]> _).
  assert (Hframe : forall i n, c !! i = Some n -> (i < k \/ s <= i) ->
                               h' !! n.1 = h !! n.1).
  { intros i n En Hi. unfold h'. rewrite lookup_insert_ne.
    - apply freed_lookup. intros Ha.
      apply elem_of_slice in Ha as (j & m & Hj & Em & E).
      pose proof (cell_index_inj c j i m n ND Em En E). lia.
    - intros E. pose proof (cell_index_inj c k i x n ND Ex En E). lia. }
  rewrite (take_S_r c k x Ex), <- app_assoc. simpl.
  apply links_app. split.
  - eapply links_frame.
    + intros a Ha. apply elem_of_take_fst in Ha as (i & n & Hi & En & <-).
      apply (Hframe i n En). lia.
    + rewrite <- (take_drop_middle c k x Ex) in L. apply links_app in L. apply L.
  - simpl. split.
    + unfold h'. rewrite lookup_insert_eq. by rewrite first_ptr_drop.
    + eapply links_frame.
      * intros a Ha. apply elem_of_drop_fst in Ha as (i & n & Hi & En & <-).
        apply (Hframe i n En). lia.
      * rewrite <- (take_drop s c) in L. apply links_app in L. apply L.
Qed.

(** ** The outer loops of erase_after *)

Lemma bind_bind {A B C} (m : M A) (f : A -> M B) (g : B -> M C) h :
  bind (bind m f) g h = bind m (fun x => bind (f x) g) h.
Proof. unfold bind. by destruct (m h). Qed.

Lemma bind_ret {A B} (a : A) (k : A -> M B) h : bind (ret a) k h = k a h.
Proof. done. Qed.

Lemma erase_after2_loop_chain NDEBUG h l c k s x fuel :
  chain_of h l c -> c !! k = Some x ->
  S k < length c - 1 -> S k <= s <= length c - 1 ->
  (Z.of_nat (length c - 2) < 2 ^ 64)%Z -> size_ l = Z.of_nat (length c - 2) ->
  forall m, m <= k -> length c - m <= fuel ->
  erase_after2_loop NDEBUG fuel l (ptr_at c (S k)) (ptr_at c s) (ptr_at c m) h
  = Done (mkList (head l) (tail l) (size_ l - Z.of_nat (s - S k)))
      (<[x.1 := mkNode x.2 (ptr_at c s)]>
         (freed NDEBUG (take (s - S k) (drop (S k) c)) h)).
Proof.
  intros [L C] Ex Hk Hs Hlen Hsz. pose proof C as (ND & Hh & Ht & Hl2).
  induction fuel as [|fuel IH]; intros m Hm Hf; [lia|].
  simpl.
  step ((op_plus_chain NDEBUG l c C h m 1 L ltac:(lia) ltac:(lia))).
  rewrite (cend_at l c C), ptr_eqb_at by (done || lia).
  rewrite bool_decide_eq_false_2 by lia. simpl.
  destruct (ptr_at_lt c m ltac:(lia)) as (n & En & Pn).
  assert (is_null (ptr_at c m) = false) as ->.
  { rewrite Pn. by apply bool_decide_eq_false_2. }
  simpl.
  rewrite bind_bind.
  step ((op_plus_chain NDEBUG l c C h m 1 L ltac:(lia) ltac:(lia))).
  rewrite bind_ret. rewrite ptr_eqb_at by (done || lia).
  destruct (decide (m = k)) as [->|Hne].
  - rewrite bool_decide_eq_true_2 by lia. simpl.
    step ((op_plus_chain NDEBUG l c C h k 1 L ltac:(lia) ltac:(lia))).
    rewrite Nat.add_1_r.
    rewrite <- (cend_at l c C).
    rewrite (bind_Done _ _ _ _ _
               (erase_after2_inner_chain NDEBUG l c s (S fuel) C ltac:(lia) (S k) 0%Z h
                  ltac:(lia) (links_suffix _ _ _ _ L)
                  ltac:(lia) ltac:(lia) ltac:(lia))).
    simpl. rewrite (ptr_at_Some _ _ _ Ex).
    assert (Hx : freed NDEBUG (take (s - S k) (drop (S k) c)) h !! x.1
                 = Some (mkNode x.2 (ptr_at c (S k)))).
    { rewrite freed_lookup.
      - rewrite (links_lookup _ _ _ _ _ L Ex). by rewrite first_ptr_drop.
      - intros Ha. apply elem_of_slice in Ha as (j & m' & Hj & Em & E).
        pose proof (cell_index_inj c j k m' x ND Em Ex E). lia. }
    step ((set_succ_Some _ _ _ _ Hx)). simpl.
    unfold ret. rewrite size_t_wrap_small by lia. done.
  - rewrite bool_decide_eq_false_2 by lia. simpl.
    step ((op_incr_chain NDEBUG l c C h m L ltac:(lia))).
    apply IH; lia.
Qed.

Lemma erase_after1_loop_chain NDEBUG h l c k x fuel :
  chain_of h l c -> c !! k = Some x ->
  S k < length c - 1 ->
  (Z.of_nat (length c - 2) < 2 ^ 64)%Z -> size_ l = Z.of_nat (length c - 2) ->
  forall m, m <= k -> length c - m <= fuel ->
  erase_after1_loop NDEBUG fuel l (ptr_at c (S k)) (ptr_at c (length c - 1))
    (ptr_at c m) h
  = Done (mkList (head l) (tail l) (Z.of_nat k))
      (<[x.1 := mkNode x.2 (ptr_at c (length c - 1))]>
         (freed NDEBUG (take (length c - 1 - S k) (drop (S k) c)) h)).
Proof.
  intros [L C] Ex Hk Hlen Hsz. pose proof C as (ND & Hh & Ht & Hl2).
  induction fuel as [|fuel IH]; intros m Hm Hf; [lia|].
  simpl.
  step ((op_plus_chain NDEBUG l c C h m 1 L ltac:(lia) ltac:(lia))).
  rewrite (cend_at l c C), ptr_eqb_at by (done || lia).
  rewrite bool_decide_eq_false_2 by lia. simpl.
  step ((op_plus_chain NDEBUG l c C h m 1 L ltac:(lia) ltac:(lia))).
  rewrite ptr_eqb_at by (done || lia).
  destruct (decide (m = k)) as [->|Hne].
  - rewrite bool_decide_eq_true_2 by lia. simpl.
    step ((op_plus_chain NDEBUG l c C h k 1 L ltac:(lia) ltac:(lia))).
    rewrite Nat.add_1_r.
    rewrite (bind_Done _ _ _ _ _
               (erase_after1_inner_chain NDEBUG l c (S fuel) C (S k) 0%Z h
                  ltac:(lia) (links_suffix _ _ _ _ L)
                  ltac:(lia) ltac:(lia) ltac:(lia))).
    simpl. rewrite (ptr_at_Some _ _ _ Ex).
    assert (Hx : freed NDEBUG (take (length c - 1 - S k) (drop (S k) c)) h !! x.1
                 = Some (mkNode x.2 (ptr_at c (S k)))).
    { rewrite freed_lookup.
      - rewrite (links_lookup _ _ _ _ _ L Ex). by rewrite first_ptr_drop.
      - intros Ha. apply elem_of_slice in Ha as (j & m' & Hj & Em & E).
        pose proof (cell_index_inj c j k m' x ND Em Ex E). lia. }
    step ((set_succ_Some _ _ _ _ Hx)). simpl.
    unfold ret. rewrite size_t_wrap_small by lia. do 2 f_equal. lia.
  - rewrite bool_decide_eq_false_2 by lia. simpl.
    step ((op_incr_chain NDEBUG l c C h m L ltac:(lia))).
    apply IH; lia.
Qed.

(** ** From [is_list] to chains and back *)

Lemma is_list_chain h l hd ns tl :
  is_list h l hd ns tl -> chain_of h l (hd :: ns ++ [tl]).
Proof. by intros [? _]. Qed.

Lemma chain_length (hd : cell) ns (tl : cell) : length (hd :: ns ++ [tl]) = length ns + 2.
Proof. simpl. rewrite length_app. simpl. lia. Qed.

Lemma chain_last (hd : cell) ns (tl : cell) :
  (hd :: ns ++ [tl]) !! (length ns + 1) = Some tl.
Proof.
  rewrite Nat.add_1_r. simpl. rewrite lookup_app_r by lia.
  by rewrite Nat.sub_diag.
Qed.

Lemma chain_tail_ptr (hd : cell) ns (tl : cell) :
  ptr_at (hd :: ns ++ [tl]) (length (hd :: ns ++ [tl]) - 1) = Some tl.1.
Proof.
  rewrite chain_length. replace (length ns + 2 - 1) with (length ns + 1) by lia.
  apply ptr_at_Some, chain_last.
Qed.

Lemma ptr_at_cons (n : cell) c k : ptr_at (n :: c) (S k) = ptr_at c k.
Proof. done. Qed.

Lemma ptr_at_app_l (c1 c2 : list cell) k :
  k < length c1 -> ptr_at (c1 ++ c2) k = ptr_at c1 k.
Proof. intros H. unfold ptr_at. by rewrite lookup_app_l. Qed.

Lemma chain_cut_cells (hd : cell) ns (tl : cell) k1 k2 :
  k1 <= k2 <= length ns ->
  take (S k1) (hd :: ns ++ [tl]) ++ drop (S k2) (hd :: ns ++ [tl])
  = hd :: (take k1 ns ++ drop k2 ns) ++ [tl].
Proof.
  intros H. simpl. rewrite take_app_le, drop_app_le by lia.
  by rewrite <- app_assoc.
Qed.

Lemma NoDup_cut {A} (c : list A) k s :
  k <= s -> NoDup c -> NoDup (take k c ++ drop s c).
Proof.
  intros Hks ND. apply (sublist_NoDup _ c); [done|].
  rewrite <- (take_drop k c) at 3. apply sublist_app; [done|].
  replace s with (k + (s - k)) by lia. rewrite <- drop_drop. apply sublist_drop.
Qed.

Lemma is_list_cut h l hd ns tl k1 k2 h' l' :
  is_list h l hd ns tl -> k1 <= k2 <= length ns ->
  links h' (take (S k1) (hd :: ns ++ [tl]) ++ drop (S k2) (hd :: ns ++ [tl])) None ->
  head l' = head l -> tail l' = tail l ->
  size_ l' = (size_ l - Z.of_nat (k2 - k1))%Z ->
  is_list h' l' hd (take k1 ns ++ drop k2 ns) tl.
Proof.
  intros ((L & ND & Hh & Ht & Hlen) & Hsz & Hb) Hk L' Hh' Ht' Hsz'.
  assert (Hl : length (take k1 ns ++ drop k2 ns) = length ns - (k2 - k1)).
  { rewrite length_app, length_take, length_drop. lia. }
  split; [split; [|split; [|split; [|split]]]|split].
  - by rewrite <- chain_cut_cells.
  - rewrite <- chain_cut_cells by done. rewrite fmap_app, fmap_take, fmap_drop.
    apply NoDup_cut; [lia|done].
  - by rewrite Hh', Hh.
  - by rewrite Ht', Ht, !chain_tail_ptr.
  - rewrite chain_length. lia.
  - rewrite Hsz', Hsz, Hl. lia.
  - rewrite Hl. lia.
Qed.

Lemma is_list_nonempty h l hd ns tl :
  is_list h l hd ns tl -> 0 < length ns -> empty l = false.
Proof. intros (_ & Hsz & _) H. unfold empty. rewrite Hsz. apply Z.eqb_neq. lia. Qed.

Lemma is_list_empty h l hd tl : is_list h l hd [] tl -> empty l = true.
Proof. intros (_ & Hsz & _). unfold empty. by rewrite Hsz. Qed.

Lemma erase_after2_is_list NDEBUG fuel h l hd ns tl k1 k2 :
  is_list h l hd ns tl -> k1 < length ns -> k1 <= k2 <= length ns ->
  length ns + 2 <= fuel ->
  exists l' h',
    erase_after2 NDEBUG fuel l (ptr_at ns k1) (ptr_at (ns ++ [tl]) k2) h = Done l' h'
    /\ is_list h' l' hd (take k1 ns ++ drop k2 ns) tl.
Proof.
  intros I Hk1 Hk2 Hf. pose proof I as (C & Hsz & Hb).
  set (c := hd :: ns ++ [tl]) in *.
  assert (Hc : length c = length ns + 2) by apply chain_length.
  destruct (lookup_lt_is_Some_2 c k1 ltac:(lia)) as [x Ex].
  unfold erase_after2. rewrite (is_list_nonempty _ _ _ _ _ I) by lia.
  unfold cbefore_begin. rewrite (head_at l c (proj2 C)).
  replace (ptr_at ns k1) with (ptr_at c (S k1))
    by (unfold c; rewrite ptr_at_cons; by apply ptr_at_app_l).
  replace (ptr_at (ns ++ [tl]) k2) with (ptr_at c (S k2)) by done.
  rewrite (erase_after2_loop_chain NDEBUG h l c k1 (S k2) x fuel C Ex)
    by (rewrite ?Hc; (done || lia)).
  eexists _, _. split; [done|].
  apply (is_list_cut h l hd ns tl k1 k2 _ _ I Hk2); [|done..].
  apply (chain_cut NDEBUG h c k1 (S k2) x); [apply C|apply C|done|lia|lia].
Qed.

Lemma erase_after1_is_list NDEBUG fuel h l hd ns tl k1 :
  is_list h l hd ns tl -> k1 < length ns -> length ns + 2 <= fuel ->
  exists l' h',
    erase_after1 NDEBUG fuel l (ptr_at ns k1) h = Done l' h'
    /\ is_list h' l' hd (take k1 ns) tl.
Proof.
  intros I Hk1 Hf. pose proof I as (C & Hsz & Hb).
  set (c := hd :: ns ++ [tl]) in *.
  assert (Hc : length c = length ns + 2) by apply chain_length.
  destruct (lookup_lt_is_Some_2 c k1 ltac:(lia)) as [x Ex].
  unfold erase_after1. rewrite (is_list_nonempty _ _ _ _ _ I) by lia.
  unfold cbefore_begin. rewrite (head_at l c (proj2 C)), (cend_at l c (proj2 C)).
  replace (ptr_at ns k1) with (ptr_at c (S k1))
    by (unfold c; rewrite ptr_at_cons; by apply ptr_at_app_l).
  rewrite (erase_after1_loop_chain NDEBUG h l c k1 x fuel C Ex)
    by (rewrite ?Hc; (done || lia)).
  eexists _, _. split; [done|].
  rewrite <- (app_nil_r (take k1 ns)), <- (drop_all ns).
  apply (is_list_cut h l hd ns tl k1 (length ns) _ _ I ltac:(lia)); [|done|done|].
  - replace (S (length ns)) with (length c - 1) by lia.
    apply (chain_cut NDEBUG h c k1 (length c - 1) x); [apply C|apply C|done|lia|lia].
  - simpl. lia.
Qed.

(** ** Construction and push_back *)

Lemma fresh_not_in (h : heap) : h !! fresh (dom h) = None.
Proof. apply not_elem_of_dom. apply is_fresh. Qed.

Lemma new_Node_fresh junk h :
  new_Node junk h
  = Done (Some (fresh (dom h))) (<[fresh (dom h) := mkNode junk None]> h).
Proof. done. Qed.

Lemma forward_list_new_is_list junk h :
  exists l h' hd tl,
    forward_list_new junk h = Done l h' /\ is_list h' l hd [] tl /\
    h !! hd.1 = None /\ h !! tl.1 = None /\
    (forall a, a <> hd.1 -> a <> tl.1 -> h' !! a = h !! a).
Proof.
  set (a := fresh (dom h)).
  set (h1 := <[a := mkNode junk None]> h).
  set (b := fresh (dom h1)).
  assert (Hab : a <> b).
  { intros E. pose proof (fresh_not_in h1) as Hb. fold b in Hb.
    rewrite <- E in Hb. unfold h1 in Hb. by rewrite lookup_insert_eq in Hb. }
  assert (Hb : h !! b = None).
  { pose proof (fresh_not_in h1) as Hb. fold b in Hb. unfold h1 in Hb.
    by rewrite lookup_insert_ne in Hb. }
  exists (mkList (Some a) (Some b) 0),
    (<[a := mkNode junk (Some b)]> (<[b := mkNode junk None]> h1)),
    (a, junk), (b, junk).
  split; [|split; [|split; [|split]]].
  - unfold forward_list_new.
    step ((new_Node_fresh junk h)). fold a h1.
    step ((new_Node_fresh junk h1)). fold b.
    assert (Ha : <[b := mkNode junk None]> h1 !! a = Some (mkNode junk None)).
    { rewrite lookup_insert_ne by done. unfold h1. by rewrite lookup_insert_eq. }
    by rewrite (bind_Done _ _ _ _ _ (set_succ_Some _ a _ (Some b) Ha)).
  - split; [|done]. split; [|split; [|done]].
    + simpl. split; [by rewrite lookup_insert_eq|]. split; [|done].
      rewrite lookup_insert_ne by done. by rewrite lookup_insert_eq.
    + simpl. apply NoDup_cons. split; [|apply NoDup_singleton].
      by apply not_elem_of_cons; split; [|apply not_elem_of_nil].
  - apply fresh_not_in.
  - done.
  - intros c Hca Hcb. simpl in *. rewrite !lookup_insert_ne by done.
    unfold h1. by rewrite lookup_insert_ne.
Qed.

(** [push_back] turns the old tail sentinel into the new last element and
    allocates a new tail; no other node changes. *)
Lemma push_back_is_list junk h l hd ns tl x :
  is_list h l hd ns tl -> (Z.of_nat (length ns) + 1 < 2 ^ 64)%Z ->
  exists l' h' b,
    push_back junk l x h = Done l' h' /\
    is_list h' l' hd (ns ++ [(tl.1, x)]) (b, junk) /\
    h !! b = None /\
    (forall a, a <> tl.1 -> a <> b -> h' !! a = h !! a).
Proof.
  intros ((L & ND & Hh & Ht & Hlen) & Hsz & Hb) Hfit.
  rewrite chain_tail_ptr in Ht.
  assert (Htl : h !! tl.1 = Some (mkNode tl.2 None)).
  { pose proof (links_lookup _ _ _ _ _ L (chain_last hd ns tl)) as E.
    rewrite first_ptr_drop in E. rewrite E. do 2 f_equal.
    apply ptr_at_None. rewrite chain_length. lia. }
  set (t := tl.1) in *.
  set (h1 := <[t := mkNode x None]> h).
  set (b := fresh (dom h1)).
  assert (Hbt : b <> t).
  { intros E. pose proof (fresh_not_in h1) as Hf. fold b in Hf.
    rewrite E in Hf. unfold h1 in Hf. by rewrite lookup_insert_eq in Hf. }
  assert (Hbh : h !! b = None).
  { pose proof (fresh_not_in h1) as Hf. fold b in Hf. unfold h1 in Hf.
    by rewrite lookup_insert_ne in Hf. }
  set (h2 := <[b := mkNode junk None]> h1).
  set (h3 := <[t := mkNode x (Some b)]> h2).
  set (h4 := <[b := mkNode junk None]> h3).
  exists (mkList (head l) (Some b) (size_t_wrap (size_ l + 1))), h4, b.
  assert (Hother : forall a, a <> t -> a <> b -> h4 !! a = h !! a).
  { intros a Hat Hab. unfold h4, h3, h2, h1. by rewrite !lookup_insert_ne. }
  split; [|split; [|split]]; [| |done|done].
  - unfold push_back. rewrite Ht.
    step ((set_data_Some _ _ _ x Htl)). simpl. fold h1.
    step ((new_Node_fresh junk h1)). fold b h2.
    assert (H2 : h2 !! t = Some (mkNode x None)).
    { unfold h2. rewrite lookup_insert_ne by done. unfold h1. by rewrite lookup_insert_eq. }
    step ((set_succ_Some h2 t _ (Some b) H2)). simpl. fold h3.
    assert (H3 : h3 !! b = Some (mkNode junk None)).
    { unfold h3. rewrite lookup_insert_ne by done. unfold h2. by rewrite lookup_insert_eq. }
    by rewrite (bind_Done _ _ _ _ _ (set_succ_Some h3 b _ None H3)).
  - assert (Hnb : b ∉ (hd :: ns ++ [tl]).*1).
    { intros Hin. apply list_elem_of_fmap in Hin as (n & -> & Hn).
      apply list_elem_of_lookup in Hn as (i & Hi).
      pose proof (links_lookup _ _ _ _ _ L Hi) as E. by rewrite Hbh in E. }
    split; [split; [|split; [|split; [|split]]]|split].
    + replace (hd :: (ns ++ [(t, x)]) ++ [(b, junk)])
        with ((hd :: ns) ++ [(t, x); (b, junk)]) by (simpl; by rewrite <- app_assoc).
      apply links_app. split.
      * eapply links_frame.
        -- intros a Ha. apply Hother.
           ++ intros ->. rewrite app_comm_cons, fmap_app in ND.
              apply NoDup_app in ND as (_ & ND & _). apply (ND _ Ha).
              simpl. apply list_elem_of_here.
           ++ intros ->. apply Hnb. rewrite app_comm_cons, fmap_app.
              apply elem_of_app. by left.
        -- rewrite app_comm_cons in L. apply links_app in L. apply L.
      * simpl. split; [|split; [|done]].
        -- unfold h4. rewrite lookup_insert_ne by done. unfold h3.
           by rewrite lookup_insert_eq.
        -- unfold h4. by rewrite lookup_insert_eq.
    + assert (E : (hd :: (ns ++ [(t, x)]) ++ [(b, junk)]).*1
                  = (hd :: ns ++ [tl]).*1 ++ [b]).
      { rewrite !fmap_cons, !fmap_app. done. }
      rewrite E. apply NoDup_app. split; [done|]. split; [|apply NoDup_singleton].
      intros a Ha Hab. apply list_elem_of_singleton in Hab as ->. by apply Hnb.
    + done.
    + simpl tail. by rewrite chain_tail_ptr.
    + rewrite chain_length. lia.
    + simpl. rewrite length_app. simpl. rewrite Hsz.
      rewrite size_t_wrap_small by lia. lia.
    + rewrite length_app. simpl. lia.
Qed.

(** ** pop_front, pop_back and the traversal *)

Lemma pop_front_is_list h l hd n ns tl :
  is_list h l hd (n :: ns) tl ->
  exists l', pop_front l h = Done l' h /\ is_list h l' n ns tl.
Proof.
  intros I. pose proof I as ((L & ND & Hh & Ht & Hlen) & Hsz & Hb).
  exists (mkList (Some n.1) (tail l) (size_t_wrap (size_ l - 1))). split.
  - unfold pop_front. rewrite (is_list_nonempty _ _ _ _ _ I) by (simpl; lia).
    rewrite Hh. simpl in L. destruct L as [E _].
    by rewrite (bind_Done _ _ _ _ _ (get_succ_Some _ _ _ E)).
  - simpl in Hsz, Hb. split; [split; [|split; [|split; [|split]]]|split].
    + apply (links_suffix _ _ _ 1 L).
    + simpl in ND. by apply NoDup_cons in ND as [_ ND].
    + done.
    + transitivity (Some tl.1); [|symmetry; apply (chain_tail_ptr n ns tl)].
      simpl tail. rewrite Ht. apply (chain_tail_ptr hd (n :: ns) tl).
    + rewrite chain_length. lia.
    + simpl. rewrite Hsz. rewrite size_t_wrap_small by lia. lia.
    + lia.
Qed.

Lemma pop_back_loop_chain NDEBUG h l c fuel :
  chain_of h l c -> 3 <= length c ->
  forall m, m <= length c - 3 -> length c - 3 - m < fuel ->
  pop_back_loop NDEBUG fuel l (ptr_at c m) h = Done (ptr_at c (length c - 3)) h.
Proof.
  intros [L C] H3. pose proof C as (ND & Hh & Ht & Hlen).
  induction fuel as [|fuel IH]; intros m Hm Hf; [lia|].
  simpl.
  step ((op_plus_chain NDEBUG l c C h m 2 L ltac:(lia) ltac:(lia))).
  rewrite (cend_at l c C), ptr_eqb_at by (done || lia).
  destruct (decide (m = length c - 3)) as [->|Hne].
  - rewrite bool_decide_eq_true_2 by lia. done.
  - rewrite bool_decide_eq_false_2 by lia. simpl.
    step ((op_incr_chain NDEBUG l c C h m L ltac:(lia))).
    apply IH; lia.
Qed.

Lemma pop_back_is_list NDEBUG fuel h l hd ns n tl :
  is_list h l hd (ns ++ [n]) tl -> length ns < fuel ->
  exists l' h', pop_back NDEBUG fuel l h = Done l' h' /\ is_list h' l' hd ns tl.
Proof.
  intros I Hf. pose proof I as (C & Hsz & Hb).
  set (c := hd :: (ns ++ [n]) ++ [tl]) in *.
  assert (Hc : length c = length ns + 3).
  { unfold c. rewrite chain_length, length_app. simpl. lia. }
  pose proof C as (L & ND & Hh & Ht & Hlen).
  destruct (lookup_lt_is_Some_2 c (length ns) ltac:(lia)) as [x Ex].
  assert (En : c !! S (length ns) = Some n).
  { unfold c. simpl. rewrite <- app_assoc. rewrite lookup_app_r by lia.
    by rewrite Nat.sub_diag. }
  assert (Hxn : x.1 <> n.1).
  { intros E. pose proof (cell_index_inj c _ _ _ _ ND Ex En E). lia. }
  rewrite length_app in Hsz, Hb. simpl in Hsz, Hb.
  exists (mkList (head l) (tail l) (size_t_wrap (size_ l - 1))),
    (delete n.1 (<[x.1 := mkNode x.2 (tail l)]> h)).
  split.
  - unfold pop_back. rewrite (is_list_nonempty _ _ _ _ _ I)
      by (rewrite length_app; simpl; lia).
    unfold cbefore_begin. rewrite (head_at l c (proj2 C)).
    rewrite (bind_Done _ _ _ _ _
               (pop_back_loop_chain NDEBUG h l c fuel C ltac:(lia) 0 ltac:(lia) ltac:(lia))).
    replace (length c - 3) with (length ns) by lia.
    rewrite (ptr_at_Some _ _ _ Ex).
    pose proof (links_lookup _ _ _ _ _ L Ex) as Hx. rewrite first_ptr_drop in Hx.
    step ((get_succ_Some _ _ _ Hx)). simpl.
    step ((set_succ_Some _ _ _ (tail l) Hx)). simpl.
    rewrite (ptr_at_Some _ _ _ En).
    unfold is_null. rewrite bool_decide_eq_false_2 by done. simpl.
    pose proof (links_lookup _ _ _ _ _ L En) as Hn.
    rewrite <- (lookup_insert_ne h x.1 n.1 (mkNode x.2 (tail l))) in Hn by done.
    by rewrite (bind_Done _ _ _ _ _ (delete_Node_Some _ n.1 _ Hn)).
  - assert (Hns : take (length ns) (ns ++ [n]) ++ drop (S (length ns)) (ns ++ [n]) = ns).
    { rewrite take_app_length, drop_ge by (rewrite length_app; simpl; lia).
      apply app_nil_r. }
    cut (is_list (delete n.1 (<[x.1 := mkNode x.2 (tail l)]> h))
           (mkList (head l) (tail l) (size_t_wrap (size_ l - 1))) hd
           (take (length ns) (ns ++ [n]) ++ drop (S (length ns)) (ns ++ [n])) tl);
      [by rewrite Hns|].
    apply (is_list_cut h l hd (ns ++ [n]) tl (length ns) (S (length ns)) _ _ I);
      [rewrite length_app; simpl; lia| |done|done|].
    + rewrite delete_insert_ne by done. rewrite Ht.
      replace (S (S (length ns))) with (length c - 1) by lia.
      pose proof (chain_cut true h c (length ns) (length c - 1) x L ND Ex
                    ltac:(lia) ltac:(lia)) as K.
      replace (length c - 1 - S (length ns)) with 1 in K by lia.
      rewrite (drop_S _ _ _ En) in K. exact K.
    + simpl. rewrite Hsz. rewrite size_t_wrap_small by lia. lia.
Qed.

Lemma range_for_chain NDEBUG h l c fuel :
  chain_of h l c ->
  forall m, 1 <= m <= length c - 1 -> length c - m <= fuel ->
  range_for NDEBUG fuel l (ptr_at c m) h
  = Done (drop m (take (length c - 1) c)).*2 h.
Proof.
  intros [L C]. pose proof C as (ND & Hh & Ht & Hlen).
  induction fuel as [|fuel IH]; intros m Hm Hf; [lia|].
  simpl. unfold end_. rewrite Ht, ptr_eqb_at by (done || lia).
  destruct (decide (m = length c - 1)) as [->|Hne].
  - rewrite bool_decide_eq_true_2 by lia. simpl.
    rewrite drop_ge by (rewrite length_take; lia). done.
  - rewrite bool_decide_eq_false_2 by lia. simpl.
    destruct (lookup_lt_is_Some_2 c m ltac:(lia)) as [n En].
    step ((op_deref_chain NDEBUG l c C h m n L ltac:(lia) En)).
    step ((op_incr_chain NDEBUG l c C h m L ltac:(lia))).
    step ((IH (S m) ltac:(lia) ltac:(lia))).
    unfold ret. f_equal.
    rewrite (drop_S (take (length c - 1) c) n m); [done|].
    rewrite lookup_take_lt by lia. done.
Qed.

Lemma printForwardList_is_list NDEBUG fuel h l hd ns tl :
  is_list h l hd ns tl -> length ns < fuel ->
  printForwardList NDEBUG fuel l h = Done (elems ns) h.
Proof.
  intros (C & _) Hf. unfold printForwardList.
  step ((begin_chain l _ (proj2 C) h (proj1 C))).
  rewrite (range_for_chain NDEBUG h l _ fuel C) by (rewrite chain_length; lia).
  rewrite chain_length. replace (length ns + 2 - 1) with (S (length ns)) by lia.
  simpl. rewrite drop_0, take_app_length. done.
Qed.

(** ** Sequences of calls *)

Lemma after_calls_length xs cs :
  length (after_calls xs cs) + successful_pops xs cs = length xs + pushes cs.
Proof.
  revert xs. induction cs as [|c cs IH]; intros xs; simpl; [lia|].
  specialize (IH (after_call xs c)).
  destruct c; unfold after_call in *.
  - remember (xs ++ [elem]) as ys eqn:Ey.
    assert (length ys = length xs + 1) by (subst; rewrite length_app; simpl; lia).
    lia.
  - remember (drop 1 xs) as ys eqn:Ey.
    assert (length ys = length xs - 1) by (subst; rewrite length_drop; lia).
    destruct xs; simpl in *; lia.
  - remember (take (length xs - 1) xs) as ys eqn:Ey.
    assert (length ys = length xs - 1) by (subst; rewrite length_take; lia).
    destruct xs; simpl in *; lia.
Qed.

Lemma after_pushes xs ys : after_calls xs (call_push_back <$> ys) = xs ++ ys.
Proof.
  revert xs. induction ys as [|y ys IH]; intros xs; simpl.
  - by rewrite app_nil_r.
  - rewrite IH. by rewrite <- app_assoc.
Qed.

Lemma elems_app ns1 ns2 : elems (ns1 ++ ns2) = elems ns1 ++ elems ns2.
Proof. apply fmap_app. Qed.

Lemma elems_length ns : length (elems ns) = length ns.
Proof. apply length_fmap. Qed.

Lemma do_call_is_list NDEBUG junk fuel h l hd ns tl c :
  is_list h l hd ns tl -> length ns < fuel ->
  (Z.of_nat (length ns) + 1 < 2 ^ 64)%Z ->
  exists l' h' hd' ns' tl',
    do_call NDEBUG junk fuel l c h = Done l' h' /\
    is_list h' l' hd' ns' tl' /\
    elems ns' = after_call (elems ns) c /\ length ns' <= S (length ns).
Proof.
  intros I Hf Hb. destruct c as [x| |]; simpl.
  - destruct (push_back_is_list junk h l hd ns tl x I Hb) as (l' & h' & b & E & I' & _).
    exists l', h', hd, (ns ++ [(tl.1, x)]), (b, junk).
    split; [done|]. split; [done|]. split; [by rewrite elems_app|].
    rewrite length_app. simpl. lia.
  - destruct ns as [|n ns].
    + exists l, h, hd, [], tl. unfold pop_front.
      rewrite (is_list_empty _ _ _ _ I). simpl. by auto.
    + destruct (pop_front_is_list h l hd n ns tl I) as (l' & E & I').
      exists l', h, n, ns, tl. simpl. rewrite drop_0. auto with lia.
  - destruct (decide (ns = [])) as [->|Hne].
    + exists l, h, hd, [], tl. unfold pop_back.
      rewrite (is_list_empty _ _ _ _ I). simpl. by auto.
    + destruct (exists_last Hne) as (ns0 & n & ->).
      rewrite length_app in Hf. simpl in Hf.
      destruct (pop_back_is_list NDEBUG fuel h l hd ns0 n tl I ltac:(lia))
        as (l' & h' & E & I').
      exists l', h', hd, ns0, tl. split; [done|]. split; [done|]. split.
      * rewrite elems_app, length_app. simpl. rewrite Nat.add_sub.
        by rewrite take_app_length.
      * rewrite length_app. lia.
Qed.

Lemma do_calls_is_list NDEBUG junk fuel cs :
  forall h l hd ns tl,
    is_list h l hd ns tl -> length ns + length cs < fuel ->
    (Z.of_nat (length ns + length cs) < 2 ^ 64)%Z ->
    exists l' h' hd' ns' tl',
      do_calls NDEBUG junk fuel l cs h = Done l' h' /\
      is_list h' l' hd' ns' tl' /\
      elems ns' = after_calls (elems ns) cs /\
      length ns' <= length ns + length cs.
Proof.
  induction cs as [|c cs IH]; intros h l hd ns tl I Hf Hb; simpl.
  - exists l, h, hd, ns, tl. auto with lia.
  - simpl in Hf, Hb.
    destruct (do_call_is_list NDEBUG junk fuel h l hd ns tl c I ltac:(lia) ltac:(lia))
      as (l1 & h1 & hd1 & ns1 & tl1 & E1 & I1 & El1 & Len1).
    destruct (IH h1 l1 hd1 ns1 tl1 I1 ltac:(lia) ltac:(lia))
      as (l2 & h2 & hd2 & ns2 & tl2 & E2 & I2 & El2 & Len2).
    exists l2, h2, hd2, ns2, tl2.
    step E1. split; [done|]. split; [done|].
    split; [by rewrite El2, El1 | lia].
Qed.

(** ** back, and the links between the sentinels *)

Lemma back_loop_chain NDEBUG h l c fuel :
  chain_of h l c ->
  forall m, m <= length c - 2 -> length c - 2 - m < fuel ->
  back_loop NDEBUG fuel l (ptr_at c m) h = Done (ptr_at c (length c - 2)) h.
Proof.
  intros [L C]. pose proof C as (ND & Hh & Ht & Hlen).
  induction fuel as [|fuel IH]; intros m Hm Hf; [lia|].
  simpl.
  assert (A1 : m < length c - 1) by lia.
  assert (A2 : m + 1 <= length c) by lia.
  step ((op_plus_chain NDEBUG l c C h m 1 L A1 A2)).
  unfold end_. rewrite Ht, ptr_eqb_at by (done || lia).
  destruct (decide (m = length c - 2)) as [->|Hne].
  - rewrite bool_decide_eq_true_2 by lia. done.
  - rewrite bool_decide_eq_false_2 by lia. simpl.
    step ((op_incr_chain NDEBUG l c C h m L A1)).
    apply IH; lia.
Qed.

(** The mutable [back] is at the last element of a list that has one, and
    the const overload at the first. *)
Lemma back_is_list NDEBUG fuel h l hd ns tl :
  is_list h l hd ns tl -> 0 < length ns -> length ns < fuel ->
  back NDEBUG fuel l h = Done (ptr_at ns (length ns - 1)) h /\
  back_const l h = Done (ptr_at ns 0) h /\
  op_plus NDEBUG l (ptr_at ns (length ns - 1)) 1 h = Done (end_ l) h.
Proof.
  intros I Hn Hf. pose proof I as (C & _).
  set (c := hd :: ns ++ [tl]) in *.
  assert (Hc : length c = length ns + 2) by apply chain_length.
  assert (Hlast : ptr_at c (length c - 2) = ptr_at ns (length ns - 1)).
  { rewrite Hc. replace (length ns + 2 - 2) with (S (length ns - 1)) by lia.
    unfold c. rewrite ptr_at_cons. apply ptr_at_app_l. lia. }
  split; [|split].
  - unfold back, before_begin. rewrite (head_at l c (proj2 C)).
    assert (A1 : 0 <= length c - 2) by lia.
    assert (A2 : length c - 2 - 0 < fuel) by lia.
    by rewrite (back_loop_chain NDEBUG h l c fuel C 0 A1 A2), Hlast.
  - pose proof (begin_chain l c (proj2 C) h (proj1 C)) as B.
    unfold back_const. unfold begin_ in B. rewrite B.
    unfold c. rewrite ptr_at_cons. f_equal. apply ptr_at_app_l. lia.
  - rewrite <- Hlast.
    assert (A1 : length c - 2 < length c - 1) by lia.
    assert (A2 : length c - 2 + 1 <= length c) by lia.
    rewrite (op_plus_chain NDEBUG l c (proj2 C) h _ 1 (proj1 C) A1 A2).
    unfold end_. rewrite (proj1 (proj2 (proj2 (proj2 C)))).
    do 2 f_equal. lia.
Qed.

(** In a well-formed list the tail sentinel is [size_ + 1] links from the
    head sentinel. *)
Lemma is_list_links_to_tail h l hd ns tl :
  is_list h l hd ns tl ->
  advance (S (Z.to_nat (size_ l))) (head l) h = Done (tail l) h.
Proof.
  intros ((L & ND & Hh & Ht & Hlen) & Hsz & _).
  rewrite Hsz, Nat2Z.id, Hh, Ht.
  assert (A : 0 + S (length ns) <= length (hd :: ns ++ [tl]))
    by (rewrite chain_length; lia).
  rewrite (advance_chain h _ (S (length ns)) 0 L A).
  do 2 f_equal. rewrite chain_length. lia.
Qed.

(** ** The merged sequence *)

Lemma merge_by_nil_l {A} (key : A -> Elem) asc ms : merge_by key asc [] ms = ms.
Proof. by destruct ms. Qed.

Lemma merge_by_nil_r {A} (key : A -> Elem) asc ns : merge_by key asc ns [] = ns.
Proof. by destruct ns. Qed.

Lemma merge_by_cons {A} (key : A -> Elem) asc n ns m ms :
  merge_by key asc (n :: ns) (m :: ms)
  = if (key n =? key m)%Z then n :: merge_by key asc ns ms
    else if xorb (key n <? key m)%Z (negb asc)
         then n :: merge_by key asc ns (m :: ms)
         else m :: merge_by key asc (n :: ns) ms.
Proof. done. Qed.

Lemma merge_by_keys {A} (key : A -> Elem) asc ns ms :
  key <$> merge_by key asc ns ms = merge_by id asc (key <$> ns) (key <$> ms).
Proof.
  revert ms. induction ns as [|n ns IHn]; intros ms.
  - rewrite merge_by_nil_l. change (key <$> []) with (@nil Elem).
    by rewrite merge_by_nil_l.
  - induction ms as [|m ms IHm].
    + rewrite merge_by_nil_r. change (key <$> []) with (@nil Elem).
      by rewrite merge_by_nil_r.
    + rewrite !fmap_cons, !merge_by_cons. unfold id at 1 2 3 4.
      destruct (key n =? key m)%Z.
      * by rewrite fmap_cons, IHn.
      * destruct (xorb _ _).
        -- by rewrite fmap_cons, IHn.
        -- by rewrite fmap_cons, IHm.
Qed.

Lemma elems_merge_cells asc ns ms :
  elems (merge_cells asc ns ms) = merge_elems asc (elems ns) (elems ms).
Proof. apply merge_by_keys. Qed.

Lemma merge_elems_nil_l asc ys : merge_elems asc [] ys = ys.
Proof. apply merge_by_nil_l. Qed.

Lemma merge_elems_nil_r asc xs : merge_elems asc xs [] = xs.
Proof. apply merge_by_nil_r. Qed.

Lemma merge_elems_cons asc x xs y ys :
  merge_elems asc (x :: xs) (y :: ys)
  = if (x =? y)%Z then x :: merge_elems asc xs ys
    else if xorb (x <? y)%Z (negb asc)
         then x :: merge_elems asc xs (y :: ys)
         else y :: merge_elems asc (x :: xs) ys.
Proof. done. Qed.

Lemma merge_skipped_cons asc x xs y ys :
  merge_skipped asc (x :: xs) (y :: ys)
  = if (x =? y)%Z then y :: merge_skipped asc xs ys
    else if xorb (x <? y)%Z (negb asc)
         then merge_skipped asc xs (y :: ys)
         else merge_skipped asc (x :: xs) ys.
Proof. done. Qed.

(** Nothing is lost but the skipped ties. *)
Lemma merge_elems_perm asc xs ys :
  merge_elems asc xs ys ++ merge_skipped asc xs ys ≡ₚ xs ++ ys.
Proof.
  revert ys. induction xs as [|x xs IHx]; intros ys.
  - rewrite merge_elems_nil_l. destruct ys; simpl; by rewrite ?app_nil_r.
  - induction ys as [|y ys IHy].
    + rewrite merge_elems_nil_r. simpl. by rewrite !app_nil_r.
    + rewrite merge_elems_cons, merge_skipped_cons.
      destruct (x =? y)%Z.
      * rewrite <- app_comm_cons, <- Permutation_middle, (IHx ys).
        by rewrite <- app_comm_cons, <- Permutation_middle.
      * destruct (xorb _ _).
        -- by rewrite <- !app_comm_cons, (IHx (y :: ys)).
        -- rewrite <- app_comm_cons, IHy. apply Permutation_middle.
Qed.

Lemma merge_elems_length asc xs ys :
  length (merge_elems asc xs ys) + length (merge_skipped asc xs ys)
  = length xs + length ys.
Proof.
  rewrite <- !length_app. by rewrite (merge_elems_perm asc xs ys).
Qed.

Lemma is_sorted_cons asc a l :
  is_sorted asc (a :: l) = before asc a l && is_sorted asc l.
Proof. by destruct l. Qed.

Lemma before_merge asc a xs ys :
  before asc a xs = true -> before asc a ys = true ->
  before asc a (merge_elems asc xs ys) = true.
Proof.
  destruct xs as [|x xs]; [by rewrite merge_elems_nil_l|].
  destruct ys as [|y ys]; [by rewrite merge_elems_nil_r|].
  rewrite merge_elems_cons. intros Hx Hy.
  destruct (x =? y)%Z; [done|]. by destruct (xorb _ _).
Qed.

Lemma merge_elems_sorted asc xs ys :
  is_sorted asc xs = true -> is_sorted asc ys = true ->
  is_sorted asc (merge_elems asc xs ys) = true.
Proof.
  revert ys. induction xs as [|x xs IHx]; intros ys Hx Hy.
  - by rewrite merge_elems_nil_l.
  - induction ys as [|y ys IHy].
    + by rewrite merge_elems_nil_r.
    + pose proof Hx as Hx'. pose proof Hy as Hy'.
      rewrite is_sorted_cons in Hx', Hy'.
      apply andb_true_iff in Hx' as [Bx Sx]. apply andb_true_iff in Hy' as [By Sy].
      rewrite merge_elems_cons.
      destruct (x =? y)%Z eqn:Exy.
      * apply Z.eqb_eq in Exy as <-.
        rewrite is_sorted_cons. apply andb_true_iff. split.
        -- by apply before_merge.
        -- by apply IHx.
      * destruct (xorb (x <? y)%Z (negb asc)) eqn:Ex.
        -- rewrite is_sorted_cons. apply andb_true_iff. split.
           ++ apply before_merge; [done|]. simpl. unfold in_order.
              rewrite Exy. by destruct (x <? y)%Z, asc.
           ++ by apply IHx.
        -- rewrite is_sorted_cons. apply andb_true_iff. split.
           ++ apply (before_merge asc y (x :: xs) ys); [|done]. simpl.
              unfold in_order. apply Z.eqb_neq in Exy.
              destruct (y =? x)%Z eqn:Eyx; [done|].
              destruct (x <? y)%Z eqn:Hlt, (y <? x)%Z eqn:Hgt, asc; simpl in *;
                try done; lia.
           ++ by apply IHy.
Qed.

(** ** sorted on a sorted list *)

Lemma sorted_loop_chain NDEBUG h l c asc fuel :
  chain_of h l c ->
  forall m, 1 <= m <= length c - 2 ->
    is_sorted asc (drop m (take (length c - 1) c)).*2 = true ->
    length c - m <= fuel ->
    sorted_loop NDEBUG fuel l asc (ptr_at c m) h = Done true h.
Proof.
  intros [L C]. pose proof C as (ND & Hh & Ht & Hlen).
  induction fuel as [|fuel IH]; intros m Hm Hs Hf; [lia|].
  simpl.
  step ((op_plus_chain NDEBUG l c C h m 1 L ltac:(lia) ltac:(lia))).
  rewrite (cend_at l c C), ptr_eqb_at by (done || lia).
  destruct (decide (m + 1 = length c - 1)) as [Heq|Hne].
  - by rewrite bool_decide_eq_true_2.
  - rewrite bool_decide_eq_false_2 by done. simpl.
    destruct (lookup_lt_is_Some_2 c m ltac:(lia)) as [a Ea].
    destruct (lookup_lt_is_Some_2 c (m + 1) ltac:(lia)) as [b Eb].
    pose proof (op_deref_chain NDEBUG l c C h m a L ltac:(lia) Ea) as Da.
    pose proof (op_deref_chain NDEBUG l c C h (m + 1) b L ltac:(lia) Eb) as Db.
    pose proof (op_plus_chain NDEBUG l c C h m 1 L ltac:(lia) ltac:(lia)) as Pl.
    pose proof (op_incr_chain NDEBUG l c C h m L ltac:(lia)) as Inc.
    rewrite (drop_S _ a m) in Hs by (rewrite lookup_take_lt by lia; done).
    rewrite (drop_S _ b (S m)) in Hs
      by (rewrite lookup_take_lt by lia; by rewrite <- Nat.add_1_r).
    rewrite !fmap_cons in Hs. cbn [is_sorted] in Hs.
    apply andb_true_iff in Hs as [Hab Hs].
    assert (Hs' : is_sorted asc (drop (S m) (take (length c - 1) c)).*2 = true).
    { rewrite (drop_S _ b (S m))
        by (rewrite lookup_take_lt by lia; by rewrite <- Nat.add_1_r).
      by rewrite fmap_cons. }
    rewrite (bind_Done _ _ _ _ _ Da), (bind_Done _ _ _ _ _ Pl), (bind_Done _ _ _ _ _ Db).
    unfold in_order in Hab.
    destruct (a.2 =? b.2)%Z.
    + step Inc. apply IH; [lia|done|lia].
    + rewrite (bind_Done _ _ _ _ _ Da), (bind_Done _ _ _ _ _ Pl), (bind_Done _ _ _ _ _ Db).
      apply negb_true_iff in Hab. rewrite Hab.
      step Inc. apply IH; [lia|done|lia].
Qed.

Lemma chain_elems (hd : cell) ns (tl : cell) :
  (drop 1 (take (length (hd :: ns ++ [tl]) - 1) (hd :: ns ++ [tl]))).*2 = elems ns.
Proof.
  rewrite chain_length. replace (length ns + 2 - 1) with (S (length ns)) by lia.
  simpl. by rewrite drop_0, take_app_length.
Qed.

Lemma sorted_is_list NDEBUG fuel h l hd ns tl asc :
  is_list h l hd ns tl -> is_sorted asc (elems ns) = true -> length ns < fuel ->
  sorted NDEBUG fuel l asc h = Done true h.
Proof.
  intros (C & Hsz & Hb) Hs Hf. unfold sorted. rewrite Hsz.
  destruct (Z.of_nat (length ns) <? 2)%Z eqn:Hlt; [done|].
  apply Z.ltb_ge in Hlt. unfold cbegin.
  pose proof (begin_chain l _ (proj2 C) h (proj1 C)) as B. unfold begin_ in B.
  step B.
  apply (sorted_loop_chain NDEBUG h l _ asc fuel C).
  - rewrite chain_length. lia.
  - by rewrite chain_elems.
  - rewrite chain_length. lia.
Qed.

(** ** The copy made for merge and link *)

Lemma extends_refl h : extends h h.
Proof. by intros a n. Qed.

Lemma extends_trans h1 h2 h3 : extends h1 h2 -> extends h2 h3 -> extends h1 h3.
Proof. intros H12 H23 a n E. by apply H23, H12. Qed.

Lemma links_extends h h' c q : extends h h' -> links h c q -> links h' c q.
Proof.
  intros X. induction c as [|n c IH]; simpl; [done|].
  intros [E L]. split; [by apply X | by apply IH].
Qed.

Lemma copy_loop_chain NDEBUG junk h0 list_ c fuel :
  cursors_of list_ c -> links h0 c None ->
  (Z.of_nat (length c - 2) < 2 ^ 64)%Z ->
  forall m l h hd ns tl,
    1 <= m <= length c - 1 -> length c - m <= fuel ->
    extends h0 h -> is_list h l hd ns tl -> outside h0 (hd :: ns ++ [tl]) ->
    elems ns = (take (m - 1) (drop 1 c)).*2 ->
    exists l' h' ns' tl',
      copy_loop NDEBUG junk fuel list_ l (ptr_at c m) h = Done l' h' /\
      extends h0 h' /\ is_list h' l' hd ns' tl' /\ outside h0 (hd :: ns' ++ [tl']) /\
      elems ns' = (take (length c - 2) (drop 1 c)).*2.
Proof.
  intros C L0 Hfit. pose proof C as (ND & Hh & Ht & Hlen).
  induction fuel as [|fuel IH]; intros m l h hd ns tl Hm Hf X I O El; [lia|].
  simpl. unfold end_. rewrite Ht, ptr_eqb_at by (done || lia).
  destruct (decide (m = length c - 1)) as [->|Hne].
  - rewrite bool_decide_eq_true_2 by done. simpl.
    exists l, h, ns, tl. split; [done|]. split; [done|]. split; [done|].
    split; [done|]. rewrite El. do 2 f_equal. lia.
  - rewrite bool_decide_eq_false_2 by done. simpl.
    pose proof (links_extends _ _ _ _ X L0) as L.
    destruct (lookup_lt_is_Some_2 c m ltac:(lia)) as [a Ea].
    step ((op_deref_chain NDEBUG list_ c C h m a L ltac:(lia) Ea)).
    assert (Hns : length ns = m - 1).
    { rewrite <- elems_length, El, length_fmap, length_take, length_drop. lia. }
    destruct (push_back_is_list junk h l hd ns tl a.2 I ltac:(lia))
      as (l1 & h1 & b & E1 & I1 & Hb & Hother).
    step E1.
    assert (X1 : extends h0 h1).
    { intros p n Ep. rewrite Hother; [by apply X| |].
      - intros ->. rewrite O in Ep; [done|].
        apply list_elem_of_further, elem_of_app. right. apply list_elem_of_here.
      - intros ->. apply X in Ep. by rewrite Hb in Ep. }
    pose proof (links_extends _ _ _ _ X1 L0) as L1.
    step ((op_incr_chain NDEBUG list_ c C h1 m L1 ltac:(lia))).
    apply (IH (S m) l1 h1 hd (ns ++ [(tl.1, a.2)]) (b, junk)); try done; try lia.
    + intros n Hn. apply elem_of_cons in Hn as [->|Hn].
      * apply O. apply list_elem_of_here.
      * rewrite <- app_assoc in Hn. apply elem_of_app in Hn as [Hn|Hn].
        -- apply O. apply list_elem_of_further, elem_of_app. by left.
        -- apply elem_of_cons in Hn as [->|Hn].
           ++ simpl. apply (O tl).
              apply list_elem_of_further, elem_of_app. right. apply list_elem_of_here.
           ++ apply list_elem_of_singleton in Hn as ->. simpl.
              destruct (h0 !! b) eqn:E0; [|done]. apply X in E0. by rewrite Hb in E0.
    + rewrite elems_app, El. simpl.
      replace (m - 0) with (S (m - 1)) by lia.
      rewrite (take_S_r _ _ a); [by rewrite fmap_app|].
      rewrite lookup_drop. replace (1 + (m - 1)) with m by lia. done.
Qed.

Lemma forward_list_copy_is_list NDEBUG junk fuel h list_ hd ns tl :
  is_list h list_ hd ns tl -> length ns + 1 < fuel ->
  exists l' h' hd' ns' tl',
    forward_list_copy NDEBUG junk fuel list_ h = Done l' h' /\
    extends h h' /\ is_list h' l' hd' ns' tl' /\ outside h (hd' :: ns' ++ [tl']) /\
    elems ns' = elems ns.
Proof.
  intros ((L & C) & Hsz & Hb) Hf.
  destruct (forward_list_new_is_list junk h)
    as (l0 & h0 & hd0 & tl0 & E0 & I0 & Hhd & Htl & Hother).
  assert (X0 : extends h h0).
  { intros a n E. rewrite Hother; [done| |]; intros ->; congruence. }
  pose proof (begin_chain list_ _ C h0 (links_extends _ _ _ _ X0 L)) as B.
  destruct (copy_loop_chain NDEBUG junk h list_ _ fuel C L
              ltac:(rewrite chain_length; lia) 1 l0 h0 hd0 [] tl0
              ltac:(rewrite chain_length; lia) ltac:(rewrite chain_length; lia)
              X0 I0)
    as (l' & h' & ns' & tl' & E & X & I & O & El).
  - intros n Hn. apply elem_of_cons in Hn as [->|Hn]; [done|].
    by apply list_elem_of_singleton in Hn as ->.
  - done.
  - exists l', h', hd0, ns', tl'. split; [|split; [done|split; [done|split; [done|]]]].
    + unfold forward_list_copy.
      rewrite (bind_Done _ _ _ _ _ E0), (bind_Done _ _ _ _ _ B). exact E.
    + rewrite El, chain_length. replace (length ns + 2 - 2) with (length ns) by lia.
      simpl. by rewrite drop_0, take_app_length.
Qed.

(** ** Steps of merge *)

Lemma NoDup_sub {A} (l k : list A) : l ⊆+ k -> NoDup k -> NoDup l.
Proof.
  intros [k' E]%submseteq_Permutation ND. rewrite E in ND.
  by apply NoDup_app in ND as [? _].
Qed.

Lemma NoDup_fst_sub (l k : list cell) : l ⊆+ k -> NoDup k.*1 -> NoDup l.*1.
Proof. intros S. apply NoDup_sub. by apply fmap_submseteq. Qed.

Lemma NoDup_fst_pair (a b : cell) : NoDup [a; b].*1 -> a.1 <> b.1.
Proof.
  simpl. intros ND E. apply NoDup_cons in ND as [N _]. apply N.
  rewrite E. apply list_elem_of_here.
Qed.

Lemma NoDup_fst_snoc (c : list cell) (a : cell) : NoDup (c ++ [a]).*1 -> a.1 ∉ c.*1.
Proof.
  rewrite fmap_app. intros ND Hin. apply NoDup_app in ND as (_ & N & _).
  apply (N _ Hin). apply list_elem_of_here.
Qed.

Lemma first_ptr_snoc (c : list cell) (t : cell) q :
  first_ptr (c ++ [t]) q = first_ptr c (Some t.1).
Proof. by destruct c. Qed.

Section Merge_steps.

Variable h1 : heap.

Lemma merge_inv_swap h' pre hl nr tl mr tl2 :
  merge_inv h1 h' pre hl nr tl mr tl2 -> merge_inv h1 h' pre hl mr tl2 nr tl.
Proof.
  intros (L & F & ND & Ln & Lm & s & Hs & Hd).
  split; [done|]. split; [done|]. split; [|split; [done|split; [done|]]].
  - eapply NoDup_fst_sub; [|exact ND]. solve_submseteq.
  - exists s. split; [done|]. tauto.
Qed.

(** The node at the head of the left chain is as it was in [h1]. *)
Lemma merge_inv_head h' pre hl n nr tl mr tl2 :
  merge_inv h1 h' pre hl (n :: nr) tl mr tl2 ->
  h' !! n.1 = Some (mkNode n.2 (first_ptr nr (Some tl.1))) /\
  n.1 <> tl.1 /\ n.1 <> hl.1.
Proof.
  intros (L & F & ND & Ln & Lm & s & Hs & Hd).
  split; [|split].
  - rewrite F.
    + simpl in Ln. destruct Ln as [E _]. by rewrite first_ptr_snoc in E.
    + apply NoDup_fst_snoc. eapply NoDup_fst_sub; [|exact ND]. solve_submseteq.
  - apply NoDup_fst_pair. eapply NoDup_fst_sub; [|exact ND]. solve_submseteq.
  - apply NoDup_fst_pair. eapply NoDup_fst_sub; [|exact ND]. solve_submseteq.
Qed.

(** The node [h] points to is as it was in [h1]. *)
Lemma merge_inv_last h' pre hl nr tl mr tl2 :
  merge_inv h1 h' pre hl nr tl mr tl2 ->
  exists s, h' !! hl.1 = Some (mkNode hl.2 s) /\
            (s = first_ptr nr (Some tl.1) \/ s = first_ptr mr (Some tl2.1)).
Proof.
  intros (L & F & ND & Ln & Lm & s & Hs & Hd). exists s. split; [|done].
  rewrite F; [done|].
  apply NoDup_fst_snoc. eapply NoDup_fst_sub; [|exact ND]. solve_submseteq.
Qed.

(** Linking the head of the left chain after [hl], and skipping [d] at
    the head of the right chain. *)
Lemma merge_inv_take h' pre hl n nr tl d mr tl2 :
  merge_inv h1 h' pre hl (n :: nr) tl (d ++ mr) tl2 ->
  merge_inv h1 (<[hl.1 := mkNode hl.2 (Some n.1)]> h') (pre ++ [hl]) n nr tl mr tl2.
Proof.
  intros (L & F & ND & Ln & Lm & s' & Hs & Hd).
  assert (Hhl : hl.1 ∉ pre.*1).
  { apply NoDup_fst_snoc. eapply NoDup_fst_sub; [|exact ND]. solve_submseteq. }
  split; [|split; [|split; [|split; [|split]]]].
  - apply links_app. split; [by apply links_insert|].
    simpl. split; [|done]. by rewrite lookup_insert_eq.
  - intros a Ha. rewrite fmap_app in Ha. apply not_elem_of_app in Ha as [Ha1 Ha2].
    rewrite lookup_insert_ne; [by apply F|].
    intros <-. apply Ha2. apply list_elem_of_here.
  - eapply NoDup_fst_sub; [|exact ND]. solve_submseteq.
  - apply (links_suffix _ _ _ 1 Ln).
  - rewrite <- app_assoc in Lm. apply links_app in Lm. apply Lm.
  - simpl in Ln. destruct Ln as [E _]. rewrite first_ptr_snoc in E.
    eexists. split; [exact E|]. by left.
Qed.


Lemma merge_cells_nil_l asc ms : merge_cells asc [] ms = ms.
Proof. apply merge_by_nil_l. Qed.

Lemma merge_cells_nil_r asc ns : merge_cells asc ns [] = ns.
Proof. apply merge_by_nil_r. Qed.

Lemma merge_cells_cons asc (n : cell) ns (m : cell) ms :
  merge_cells asc (n :: ns) (m :: ms)
  = if (n.2 =? m.2)%Z then n :: merge_cells asc ns ms
    else if xorb (n.2 <? m.2)%Z (negb asc)
         then n :: merge_cells asc ns (m :: ms)
         else m :: merge_cells asc (n :: ns) ms.
Proof. done. Qed.

Lemma is_null_Some (a : loc) : is_null (Some a) = false.
Proof. by apply bool_decide_eq_false_2. Qed.

Lemma ptr_neq (a b : loc) : a <> b -> ptr_eqb (Some a) (Some b) = false.
Proof. intros H. apply ptr_eqb_false. congruence. Qed.

Lemma merge_both_inv asc tl tl2 fuel :
  forall nr mr pre hl h' sz,
    merge_inv h1 h' pre hl nr tl mr tl2 ->
    length nr + length mr < fuel ->
    (0 <= sz)%Z -> (sz + Z.of_nat (length nr + length mr) < 2 ^ 64)%Z ->
    exists taken pre' hl' nr' mr' h'',
      merge_both fuel (Some tl.1) (Some tl2.1) asc
        (first_ptr nr (Some tl.1)) (first_ptr mr (Some tl2.1)) (Some hl.1) sz h'
      = Done (first_ptr nr' (Some tl.1), first_ptr mr' (Some tl2.1), Some hl'.1,
              (sz + Z.of_nat (length taken))%Z) h'' /\
      merge_inv h1 h'' pre' hl' nr' tl mr' tl2 /\
      (nr' = [] \/ mr' = []) /\
      pre' ++ [hl'] = pre ++ hl :: taken /\
      merge_cells asc nr mr = taken ++ merge_cells asc nr' mr' /\
      length taken + length nr' + length mr' <= length nr + length mr.
Proof.
  induction fuel as [|fuel IH]; intros nr mr pre hl h' sz I Hf Hsz Hfit; [lia|].
  destruct nr as [|n nr].
  { exists [], pre, hl, [], mr, h'. cbn [merge_both first_ptr length].
    rewrite is_null_Some, ptr_eqb_refl. cbn [negb andb]. rewrite Z.add_0_r.
    split; [done|]. split; [done|]. split; [by left|]. split; [done|].
    split; [by rewrite merge_cells_nil_l|]. lia. }
  destruct mr as [|m mr].
  { exists [], pre, hl, (n :: nr), [], h'. cbn [merge_both first_ptr length].
    rewrite !is_null_Some, ptr_eqb_refl, andb_false_r. rewrite Z.add_0_r.
    split; [done|]. split; [done|]. split; [by right|]. split; [done|].
    split; [done|]. simpl. lia. }
  destruct (merge_inv_head _ _ _ _ _ _ _ _ I) as (En & Hnt & Hnh).
  destruct (merge_inv_head _ _ _ _ _ _ _ _ (merge_inv_swap _ _ _ _ _ _ _ I)) as (Em & Hmt & Hmh).
  destruct (merge_inv_last _ _ _ _ _ _ _ I) as (s & Es & _).
  cbn [merge_both first_ptr].
  rewrite !is_null_Some, (ptr_neq _ _ Hnt), (ptr_neq _ _ Hmt). cbn [negb andb].
  step ((get_data_Some _ _ _ En)).
  step ((get_data_Some _ _ _ Em)). cbn [data].
  rewrite merge_cells_cons. cbn [length] in Hf, Hfit.
  set (h2n := <[hl.1 := mkNode hl.2 (Some n.1)]> h').
  set (h2m := <[hl.1 := mkNode hl.2 (Some m.1)]> h').
  assert (En2 : h2n !! n.1 = Some (mkNode n.2 (first_ptr nr (Some tl.1))))
    by (unfold h2n; by rewrite lookup_insert_ne).
  assert (Em2 : h2n !! m.1 = Some (mkNode m.2 (first_ptr mr (Some tl2.1))))
    by (unfold h2n; by rewrite lookup_insert_ne).
  assert (Em3 : h2m !! m.1 = Some (mkNode m.2 (first_ptr mr (Some tl2.1))))
    by (unfold h2m; by rewrite lookup_insert_ne).
  destruct (n.2 =? m.2)%Z.
  - step ((set_succ_Some _ _ _ (Some n.1) Es)). cbn [data].
    fold h2n.
    step ((get_succ_Some _ _ _ En2)).
    step ((get_succ_Some _ _ _ Em2)). cbn [succ].
    rewrite size_t_wrap_small by lia.
    destruct (IH nr mr (pre ++ [hl]) n h2n (sz + 1)%Z
                (merge_inv_take h' pre hl n nr tl [m] mr tl2 I) ltac:(lia) ltac:(lia) ltac:(lia))
      as (taken & pre' & hl' & nr' & mr' & h'' & E & I' & Hd & Hp & Hc & Hl).
    exists (n :: taken), pre', hl', nr', mr', h''.
    rewrite E. split; [do 2 f_equal; cbn [length]; lia|]. split; [done|].
    split; [done|]. split; [by rewrite Hp, <- app_assoc|].
    split; [by rewrite Hc|]. cbn [length]. lia.
  - step ((get_data_Some _ _ _ En)).
    step ((get_data_Some _ _ _ Em)). cbn [data].
    destruct (xorb (n.2 <? m.2)%Z (negb asc)).
    + step ((set_succ_Some _ _ _ (Some n.1) Es)). cbn [data].
      fold h2n.
      step ((get_succ_Some _ _ _ En2)). cbn [succ].
      rewrite size_t_wrap_small by lia.
      destruct (IH nr (m :: mr) (pre ++ [hl]) n h2n (sz + 1)%Z
                  (merge_inv_take h' pre hl n nr tl [] (m :: mr) tl2 I)
                  ltac:(cbn [length]; lia) ltac:(lia) ltac:(cbn [length]; lia))
        as (taken & pre' & hl' & nr' & mr' & h'' & E & I' & Hd & Hp & Hc & Hl).
      exists (n :: taken), pre', hl', nr', mr', h''.
      cbn [first_ptr] in E. rewrite E.
      split; [do 2 f_equal; cbn [length]; lia|]. split; [done|].
      split; [done|]. split; [by rewrite Hp, <- app_assoc|].
      split; [by rewrite Hc|]. cbn [length] in *. lia.
    + step ((set_succ_Some _ _ _ (Some m.1) Es)). cbn [data].
      fold h2m.
      step ((get_succ_Some _ _ _ Em3)). cbn [succ].
      rewrite size_t_wrap_small by lia.
      pose proof (merge_inv_swap _ _ _ _ _ _ _
                    (merge_inv_take h' pre hl m mr tl2 [] (n :: nr) tl
                       (merge_inv_swap _ _ _ _ _ _ _ I))) as I2.
      destruct (IH (n :: nr) mr (pre ++ [hl]) m h2m (sz + 1)%Z I2
                  ltac:(cbn [length]; lia) ltac:(lia) ltac:(cbn [length]; lia))
        as (taken & pre' & hl' & nr' & mr' & h'' & E & I' & Hd & Hp & Hc & Hl).
      exists (m :: taken), pre', hl', nr', mr', h''.
      cbn [first_ptr] in E. rewrite E.
      split; [do 2 f_equal; cbn [length]; lia|]. split; [done|].
      split; [done|]. split; [by rewrite Hp, <- app_assoc|].
      split; [by rewrite Hc|]. cbn [length] in *. lia.
Qed.

Lemma merge_rest_inv tl tl2 fuel :
  forall nr mr pre hl h' sz,
    merge_inv h1 h' pre hl nr tl mr tl2 ->
    length nr < fuel ->
    (0 <= sz)%Z -> (sz + Z.of_nat (length nr) < 2 ^ 64)%Z ->
    exists pre' hl' h'',
      merge_rest fuel (Some tl.1) (first_ptr nr (Some tl.1)) (Some hl.1) sz h'
      = Done (Some tl.1, Some hl'.1, (sz + Z.of_nat (length nr))%Z) h'' /\
      merge_inv h1 h'' pre' hl' [] tl mr tl2 /\
      pre' ++ [hl'] = pre ++ hl :: nr.
Proof.
  induction fuel as [|fuel IH]; intros nr mr pre hl h' sz I Hf Hsz Hfit; [lia|].
  destruct nr as [|n nr].
  { exists pre, hl, h'. cbn [merge_rest first_ptr length].
    rewrite is_null_Some, ptr_eqb_refl. cbn [negb andb]. by rewrite Z.add_0_r. }
  destruct (merge_inv_head _ _ _ _ _ _ _ _ I) as (En & Hnt & Hnh).
  destruct (merge_inv_last _ _ _ _ _ _ _ I) as (s & Es & _).
  cbn [merge_rest first_ptr].
  rewrite !is_null_Some, (ptr_neq _ _ Hnt). cbn [negb andb].
  step ((set_succ_Some _ _ _ (Some n.1) Es)). cbn [data].
  set (h2n := <[hl.1 := mkNode hl.2 (Some n.1)]> h').
  assert (En2 : h2n !! n.1 = Some (mkNode n.2 (first_ptr nr (Some tl.1))))
    by (unfold h2n; by rewrite lookup_insert_ne).
  step ((get_succ_Some _ _ _ En2)). cbn [succ].
  cbn [length] in Hf, Hfit.
  rewrite size_t_wrap_small by lia.
  destruct (IH nr mr (pre ++ [hl]) n h2n (sz + 1)%Z
              (merge_inv_take h' pre hl n nr tl [] mr tl2 I) ltac:(lia) ltac:(lia) ltac:(lia))
    as (pre' & hl' & h'' & E & I' & Hp).
  exists pre', hl', h''. rewrite E.
  split; [do 2 f_equal; cbn [length]; lia|]. split; [done|].
  by rewrite Hp, <- app_assoc.
Qed.

End Merge_steps.

(** ** The destructor of merge's copy, checked build *)

Lemma walks_mono h stop p k k' : walks h stop p k -> k <= k' -> walks h stop p k'.
Proof.
  intros W. revert k'. induction W as [k|k|a nd k Hne E W IH]; intros k' Hk.
  - apply walks_null.
  - apply walks_stop.
  - destruct k' as [|k']; [lia|]. apply (walks_step _ _ a nd); [done|done|].
    apply IH. lia.
Qed.

Lemma walks_links h stop c :
  links h c None -> walks h stop (first_ptr c None) (length c).
Proof.
  induction c as [|n c IH]; simpl; [intros; apply walks_null|].
  intros [E L]. destruct (decide (Some n.1 = stop)) as [<-|Hne].
  - apply walks_stop.
  - apply (walks_step _ _ n.1 _ _ Hne E). simpl. by apply IH.
Qed.

Lemma erase_after1_inner_walks fuel nl h :
  forall p k t, walks h (tail nl) p k -> k < fuel ->
    exists r, erase_after1_inner false fuel nl (tail nl) p t h = Done r h.
Proof.
  induction fuel as [|fuel IH]; intros p k t W Hk; [lia|].
  cbn [erase_after1_inner].
  destruct W as [k|k|a nd k Hne E W].
  - exists (None, t). by change (is_null None) with true.
  - rewrite ptr_eqb_refl, andb_false_r. by eexists.
  - rewrite is_null_Some. apply ptr_eqb_false in Hne as Hne'. rewrite Hne'.
    cbn [negb andb]. unfold op_incr, check_advance.
    rewrite is_null_Some, Hne'.
    destruct (IH (succ nd) k (size_t_wrap (t + 1)) W ltac:(lia)) as [r Er].
    exists r. rewrite bind_bind, bind_ret.
    step ((get_succ_Some _ _ _ E)).
    by rewrite bind_ret.
Qed.

Lemma forward_list_destroy_walks fuel nl h (hd2 m1 : cell) k :
  head nl = Some hd2.1 -> tail nl <> Some hd2.1 -> tail nl <> Some m1.1 ->
  empty nl = false ->
  h !! hd2.1 = Some (mkNode hd2.2 (Some m1.1)) ->
  walks h (tail nl) (Some m1.1) k -> k < fuel ->
  exists q, forward_list_destroy false fuel nl h
            = Done tt (<[hd2.1 := mkNode hd2.2 q]> h).
Proof.
  intros Hh Ht Htm He E W Hk.
  assert (Hplus : op_plus false nl (Some hd2.1) 1 h = Done (Some m1.1) h).
  { unfold op_plus, check_advance. rewrite is_null_Some.
    assert (ptr_eqb (Some hd2.1) (tail nl) = false) as -> by (apply ptr_eqb_false; congruence).
    rewrite bind_ret. cbn [advance].
    by rewrite (bind_Done _ _ _ _ _ (get_succ_Some _ _ _ E)). }
  destruct (erase_after1_inner_walks fuel nl h (Some m1.1) k 0%Z W Hk) as [r Er].
  exists (fst r).
  assert (Her : erase_after1 false fuel nl (Some m1.1) h
                = Done (mkList (head nl) (tail nl) (size_t_wrap (size_ nl - snd r)))
                    (<[hd2.1 := mkNode hd2.2 (fst r)]> h)).
  { unfold erase_after1. rewrite He. unfold cbefore_begin, cend. rewrite Hh.
    destruct fuel as [|fuel]; [lia|]. cbn [erase_after1_loop].
    step Hplus.
    assert (ptr_eqb (Some m1.1) (cend nl) = false) as ->
        by (apply ptr_eqb_false; unfold cend; congruence).
    cbn [negb].
    step Hplus. rewrite ptr_eqb_refl. cbn [negb].
    step Hplus.
    step Er.
    step ((set_succ_Some _ _ _ (fst r) E)).
    cbn [data]. unfold ret. by rewrite Hh. }
  unfold forward_list_destroy, cbegin. rewrite Hh.
  step ((get_succ_Some _ _ _ E)). cbn [succ].
  by rewrite (bind_Done _ _ _ _ _ Her).
Qed.

(** ** merge in the checked build *)

Lemma is_list_extends h h' l hd ns tl :
  extends h h' -> is_list h l hd ns tl -> is_list h' l hd ns tl.
Proof.
  intros X ((L & C) & Hsz). split; [|done]. split; [|done].
  by apply (links_extends h).
Qed.

Lemma elem_of_merge_cells asc x ns ms :
  x ∈ merge_cells asc ns ms -> x ∈ ns \/ x ∈ ms.
Proof.
  revert ms. induction ns as [|n ns IHn]; intros ms.
  - rewrite merge_cells_nil_l. by right.
  - induction ms as [|m ms IHm].
    + rewrite merge_cells_nil_r. by left.
    + rewrite merge_cells_cons.
      destruct (n.2 =? m.2)%Z; [|destruct (xorb _ _)];
        intros [->|Hx]%elem_of_cons.
      * left. apply list_elem_of_here.
      * destruct (IHn _ Hx); [left|right]; by apply list_elem_of_further.
      * left. apply list_elem_of_here.
      * destruct (IHn _ Hx); [left; by apply list_elem_of_further | by right].
      * right. apply list_elem_of_here.
      * destruct (IHm Hx); [by left | right; by apply list_elem_of_further].
Qed.

Lemma merge_inv_init h1 (hd : cell) ns (tl hd2 : cell) ms (tl2 : cell) :
  links h1 (hd :: ns ++ [tl]) None -> NoDup (hd :: ns ++ [tl]).*1 ->
  links h1 (hd2 :: ms ++ [tl2]) None -> NoDup (hd2 :: ms ++ [tl2]).*1 ->
  (forall a, a ∈ (hd :: ns ++ [tl]).*1 -> a ∉ (hd2 :: ms ++ [tl2]).*1) ->
  merge_inv h1 h1 [] hd ns tl ms tl2.
Proof.
  intros L ND L2 ND2 Hdisj.
  split; [done|]. split; [done|]. split; [|split; [|split]].
  - assert (NDall : NoDup ((hd :: ns ++ [tl]) ++ (hd2 :: ms ++ [tl2])).*1).
    { rewrite fmap_app. apply NoDup_app. by repeat split. }
    eapply NoDup_fst_sub; [|exact NDall]. solve_submseteq.
  - apply (links_suffix _ _ _ 1 L).
  - apply (links_suffix _ _ _ 1 L2).
  - simpl in L. destruct L as [E _]. rewrite first_ptr_snoc in E.
    eexists. split; [exact E|]. by left.
Qed.

Lemma merge_inv_final h1 hf pre hl t1 t2 :
  merge_inv h1 hf pre hl [] t1 [] t2 ->
  exists t, (t = t1 \/ t = t2) /\
    hf !! hl.1 = Some (mkNode hl.2 (Some t.1)) /\
    links hf ((pre ++ [hl]) ++ [t]) None /\
    NoDup ((pre ++ [hl]) ++ [t]).*1.
Proof.
  intros I. destruct (merge_inv_last _ _ _ _ _ _ _ _ I) as (s & Es & Hd).
  destruct I as (L & F & ND & L1 & L2 & _). simpl in *.
  assert (Hgen : forall t, s = Some t.1 -> h1 !! t.1 = Some (mkNode t.2 None) ->
                           NoDup ((pre ++ [hl]) ++ [t]).*1 ->
                           hf !! hl.1 = Some (mkNode hl.2 (Some t.1)) /\
                           links hf ((pre ++ [hl]) ++ [t]) None).
  { intros t -> Et NDt. split; [done|].
    apply links_app. split; [apply links_app; split; [done|]; simpl; (by split)|].
    simpl. split; [|done]. rewrite F; [done|].
    intros Hin. rewrite <- app_assoc in NDt. rewrite fmap_app in NDt.
    apply NoDup_app in NDt as (_ & N & _). apply (N _ Hin).
    simpl. apply list_elem_of_further, list_elem_of_here. }
  destruct Hd as [-> | ->].
  - assert (NDt : NoDup ((pre ++ [hl]) ++ [t1]).*1)
      by (eapply NoDup_fst_sub; [|exact ND]; solve_submseteq).
    exists t1. split; [by left|].
    destruct (Hgen t1 eq_refl (proj1 L1) NDt). by repeat split.
  - assert (NDt : NoDup ((pre ++ [hl]) ++ [t2]).*1)
      by (eapply NoDup_fst_sub; [|exact ND]; solve_submseteq).
    exists t2. split; [by right|].
    destruct (Hgen t2 eq_refl (proj1 L2) NDt). by repeat split.
Qed.

Lemma walks_copy hf h1 (tl2 : cell) cf (pre : list cell) :
  links hf cf None ->
  (forall a, a ∉ pre.*1 -> hf !! a = h1 !! a) ->
  (forall a, a ∈ pre.*1 -> a ∈ cf.*1) ->
  forall ms, links h1 (ms ++ [tl2]) None -> NoDup (ms ++ [tl2]).*1 ->
    walks hf (Some tl2.1) (first_ptr ms (Some tl2.1)) (length ms + length cf).
Proof.
  intros Lf F Hsub. induction ms as [|m ms IH]; intros L ND.
  - apply walks_stop.
  - cbn [first_ptr]. destruct (decide (m.1 ∈ cf.*1)) as [Hin|Hout].
    + apply list_elem_of_fmap in Hin as (n & En & Hn).
      apply list_elem_of_lookup in Hn as (i & Hi).
      pose proof (walks_links hf (Some tl2.1) (drop i cf) (links_suffix _ _ _ i Lf)) as W.
      rewrite first_ptr_drop, (ptr_at_Some _ _ _ Hi), <- En in W.
      apply (walks_mono _ _ _ _ _ W). rewrite length_drop. lia.
    + simpl in L. destruct L as [E L]. rewrite first_ptr_snoc in E.
      rewrite <- F in E by (intros Hp; apply Hout; by apply Hsub).
      cbn [length]. eapply (walks_step _ _ m.1); [|exact E|].
      * intros [= Heq]. simpl in ND. apply NoDup_cons in ND as [N _]. apply N.
        rewrite Heq, fmap_app. apply elem_of_app. right. apply list_elem_of_here.
      * simpl. apply IH; [done|]. simpl in ND. by apply NoDup_cons in ND as [_ ?].
Qed.

Lemma is_list_head h l hd ns tl :
  is_list h l hd ns tl ->
  head l = Some hd.1 /\ tail l = Some tl.1 /\
  h !! hd.1 = Some (mkNode hd.2 (first_ptr ns (Some tl.1))) /\
  hd.1 <> tl.1.
Proof.
  intros ((L & ND & Hh & Ht & _) & _). rewrite chain_tail_ptr in Ht.
  split; [done|]. split; [done|]. split.
  - simpl in L. destruct L as [E _]. by rewrite first_ptr_snoc in E.
  - apply NoDup_fst_pair. eapply NoDup_fst_sub; [|exact ND]. solve_submseteq.
Qed.

Lemma is_list_inside h l hd ns tl a :
  is_list h l hd ns tl -> a ∈ (hd :: ns ++ [tl]).*1 -> is_Some (h !! a).
Proof.
  intros ((L & _) & _) Ha. apply list_elem_of_fmap in Ha as (n & -> & Hn).
  apply list_elem_of_lookup in Hn as (i & Hi).
  rewrite (links_lookup _ _ _ _ _ L Hi). by eexists.
Qed.

Lemma merge_is_list junk fuel h l list_ hd ns tl hd' ns' tl' asc :
  is_list h l hd ns tl -> is_list h list_ hd' ns' tl' ->
  is_sorted asc (elems ns) = true -> is_sorted asc (elems ns') = true ->
  (Z.of_nat (length ns + length ns') < 2 ^ 64)%Z ->
  2 * (length ns + length ns') + 4 <= fuel ->
  exists l' h' ms tl1,
    merge false junk fuel l list_ asc h = Done l' h' /\
    is_list h' l' hd (merge_cells asc ns ms) tl1 /\
    elems ms = elems ns' /\ outside h ms.
Proof.
  intros Il Io Sl So Hfit Hf. unfold merge.
  destruct (decide (ns' = [])) as [->|Hne].
  { rewrite (is_list_empty _ _ _ _ Io). exists l, h, [], tl.
    rewrite merge_cells_nil_r. split; [done|]. split; [done|]. split; [done|].
    by intros n Hn%elem_of_nil. }
  assert (Hlen' : 0 < length ns') by (destruct ns'; [done|simpl; lia]).
  rewrite (is_list_nonempty _ _ _ _ _ Io Hlen').
  assert (Hfc : length ns' + 1 < fuel) by lia.
  assert (Hfl : length ns < fuel) by lia.
  assert (Hfo : length ns' < fuel) by lia.
  destruct (forward_list_copy_is_list false junk fuel h list_ hd' ns' tl' Io Hfc)
    as (nl & h1 & hd2 & ms & tl2 & Ec & X & Inl & O & Els).
  step Ec.
  pose proof (is_list_extends _ _ _ _ _ _ X Il) as Il1.
  pose proof (is_list_extends _ _ _ _ _ _ X Io) as Io1.
  assert (Hms : length ms = length ns') by (by rewrite <- !elems_length, Els).
  (* the checks of the checked build *)
  rewrite bind_bind.
  step ((sorted_is_list false fuel h1 l hd ns tl asc Il1 Sl Hfl)).
  cbn [negb]. rewrite bind_bind, bind_ret, bind_bind.
  rewrite (bind_Done _ _ _ _ _
             (sorted_is_list false fuel h1 list_ hd' ns' tl' asc Io1 So Hfo)).
  cbn [negb]. rewrite bind_ret.
  (* the three loops *)
  destruct (is_list_head _ _ _ _ _ Il1) as (Hhl & Htl & Ehd & Hhdtl).
  destruct (is_list_head _ _ _ _ _ Inl) as (Hhn & Htn & Ehd2 & Hhd2tl2).
  rewrite Hhl, Htl, Hhn, Htn.
  step ((get_succ_Some _ _ _ Ehd)).
  step ((get_succ_Some _ _ _ Ehd2)). cbn [succ].
  assert (Hdisj : forall a, a ∈ (hd :: ns ++ [tl]).*1 -> a ∉ (hd2 :: ms ++ [tl2]).*1).
  { intros a Ha Ha2. destruct (is_list_inside _ _ _ _ _ a Il Ha) as [n En].
    apply list_elem_of_fmap in Ha2 as (c & -> & Hc). by rewrite (O c Hc) in En. }
  pose proof Il1 as ((L1 & ND1 & _) & _).
  pose proof Inl as ((L2 & ND2 & _) & _).
  pose proof (merge_inv_init h1 hd ns tl hd2 ms tl2 L1 ND1 L2 ND2 Hdisj) as I0.
  assert (A1 : length ns + length ms < fuel) by lia.
  assert (A2 : (0 <= 0)%Z) by lia.
  assert (A3 : (0 + Z.of_nat (length ns + length ms) < 2 ^ 64)%Z) by lia.
  destruct (merge_both_inv h1 asc tl tl2 fuel ns ms [] hd h1 0%Z I0 A1 A2 A3)
    as (taken & pre1 & hl1 & nr1 & mr1 & h2 & E1 & I1 & Hd1 & Hp1 & Hc1 & Hl1).
  step E1.
  assert (B1 : length nr1 < fuel) by lia.
  assert (B2 : (0 <= 0 + Z.of_nat (length taken))%Z) by lia.
  assert (B3 : (0 + Z.of_nat (length taken) + Z.of_nat (length nr1) < 2 ^ 64)%Z) by lia.
  destruct (merge_rest_inv h1 tl tl2 fuel nr1 mr1 pre1 hl1 h2 _ I1 B1 B2 B3)
    as (pre2 & hl2 & h3 & E2 & I2 & Hp2).
  step E2.
  assert (C1 : length mr1 < fuel) by lia.
  assert (C2 : (0 <= 0 + Z.of_nat (length taken) + Z.of_nat (length nr1))%Z) by lia.
  assert (C3 : (0 + Z.of_nat (length taken) + Z.of_nat (length nr1)
                + Z.of_nat (length mr1) < 2 ^ 64)%Z) by lia.
  destruct (merge_rest_inv h1 tl2 tl fuel mr1 [] pre2 hl2 h3 _
              (merge_inv_swap _ _ _ _ _ _ _ _ I2) C1 C2 C3)
    as (pre3 & hl3 & hf & E3 & I3 & Hp3).
  step E3.
  destruct (merge_inv_final _ _ _ _ _ _ I3) as (t & Ht & Ehl & Lf & NDf).
  step ((get_succ_Some _ _ _ Ehl)). cbn [succ].
  (* the nodes linked are the merged sequence *)
  set (rs := merge_cells asc ns ms).
  assert (Hrs : pre3 ++ [hl3] = hd :: rs).
  { rewrite Hp3, cons_middle, app_assoc, Hp2, (cons_middle hl1), (app_assoc pre1), Hp1.
    unfold rs. rewrite Hc1. simpl.
    rewrite <- !app_assoc. do 2 f_equal.
    destruct Hd1 as [-> | ->].
    - by rewrite merge_cells_nil_l.
    - by rewrite merge_cells_nil_r, app_nil_r. }
  assert (Hrslen : length rs = length taken + length nr1 + length mr1).
  { apply (f_equal length) in Hrs.
    rewrite Hp3, cons_middle, app_assoc, Hp2, (cons_middle hl1), (app_assoc pre1), Hp1
      in Hrs.
    rewrite !length_app in Hrs. simpl in Hrs. lia. }
  rewrite Hrs in Lf, NDf.
  change ((hd :: rs) ++ [t]) with (hd :: rs ++ [t]) in Lf, NDf.
  assert (Hin : forall a, a ∈ (hd :: rs ++ [t]).*1 ->
                          a ∈ (hd :: ns ++ [tl]).*1 \/ a ∈ (ms ++ [tl2]).*1).
  { intros a Ha. apply list_elem_of_fmap in Ha as (c & -> & Hc).
    apply elem_of_cons in Hc as [->|Hc]; [left; simpl; apply list_elem_of_here|].
    apply elem_of_app in Hc as [Hc|Hc].
    - apply elem_of_merge_cells in Hc as [Hc|Hc].
      + left. apply list_elem_of_fmap. exists c. split; [done|].
        apply list_elem_of_further, elem_of_app. by left.
      + right. apply list_elem_of_fmap. exists c. split; [done|].
        apply elem_of_app. by left.
    - apply list_elem_of_singleton in Hc as ->. destruct Ht as [-> | ->].
      + right. apply list_elem_of_fmap. exists tl2. split; [done|].
        apply elem_of_app. right. apply list_elem_of_here.
      + left. apply list_elem_of_fmap. exists tl. split; [done|].
        apply list_elem_of_further, elem_of_app. right. apply list_elem_of_here. }
  assert (Hhd2 : hd2.1 ∉ (hd :: rs ++ [t]).*1).
  { intros Ha. destruct (Hin _ Ha) as [Hb|Hb].
    - apply (Hdisj _ Hb). simpl. apply list_elem_of_here.
    - simpl in ND2. apply NoDup_cons in ND2 as [N _]. by apply N. }
  assert (Hpre : forall a, a ∈ pre3.*1 -> a ∈ (hd :: rs ++ [t]).*1).
  { intros a Ha. change (hd :: rs ++ [t]) with ((hd :: rs) ++ [t]).
    rewrite <- Hrs, !fmap_app. apply elem_of_app. left. apply elem_of_app. by left. }
  (* the copy is destroyed *)
  destruct ms as [|m1 ms0]; [simpl in Hms; lia|].
  destruct I3 as (_ & F3 & _).
  assert (Ehd2f : hf !! hd2.1 = Some (mkNode hd2.2 (Some m1.1))).
  { rewrite F3; [exact Ehd2|]. intros Ha. by apply Hhd2, Hpre. }
  assert (ND2' : NoDup ((m1 :: ms0) ++ [tl2]).*1)
    by (simpl in ND2; by apply NoDup_cons in ND2 as [_ ?]).
  pose proof (walks_copy hf h1 tl2 (hd :: rs ++ [t]) pre3 Lf F3 Hpre (m1 :: ms0)
                (links_suffix _ _ _ 1 L2) ND2') as W.
  cbn [first_ptr] in W. rewrite <- Htn in W.
  assert (Hm1 : tail nl <> Some m1.1).
  { rewrite Htn. intros [= Heq]. simpl in ND2.
    apply NoDup_cons in ND2 as [_ ND2]. apply NoDup_cons in ND2 as [N _].
    apply N. rewrite <- Heq, fmap_app. apply elem_of_app. right. apply list_elem_of_here. }
  assert (D1 : tail nl <> Some hd2.1) by (rewrite Htn; congruence).
  assert (D2 : empty nl = false)
    by (apply (is_list_nonempty _ _ _ _ _ Inl); simpl; lia).
  assert (D3 : length (m1 :: ms0) + length (hd :: rs ++ [t]) < fuel)
    by (rewrite chain_length, Hrslen; simpl in *; lia).
  destruct (forward_list_destroy_walks fuel nl hf hd2 m1 _ Hhn D1 Hm1 D2 Ehd2f W D3)
    as [q Ed].
  step Ed.
  exists (mkList (Some hd.1) (Some t.1) (0 + Z.of_nat (length taken) + Z.of_nat (length nr1)
                                          + Z.of_nat (length mr1))%Z),
    (<[hd2.1 := mkNode hd2.2 q]> hf), (m1 :: ms0), t.
  fold rs. split; [done|]. split; [|split; [done|]].
  - split; [split; [|split; [|split; [|split]]]|split].
    + by apply links_insert.
    + done.
    + done.
    + simpl tail. by rewrite chain_tail_ptr.
    + rewrite chain_length. lia.
    + simpl. lia.
    + simpl in *. lia.
  - intros n Hn. apply O. apply list_elem_of_further, elem_of_app. by left.
Qed.

(** * find, contains and count *)

Lemma first_index_le e xs : first_index e xs <= length xs.
Proof. induction xs as [|x xs IH]; simpl; [lia|]. destruct (x =? e)%Z; simpl; lia. Qed.

Lemma first_index_absent e xs : e ∉ xs -> first_index e xs = length xs.
Proof.
  induction xs as [|x xs IH]; intros H; simpl; [done|].
  apply not_elem_of_cons in H as [Hne H].
  destruct (Z.eqb_spec x e); [congruence|]. by rewrite IH.
Qed.

Lemma first_index_first e xs k :
  xs !! k = Some e -> e ∉ take k xs -> first_index e xs = k.
Proof.
  revert k. induction xs as [|x xs IH]; intros k Hk Hn; [done|].
  simpl. destruct k as [|k]; simpl in *.
  - injection Hk as ->. by rewrite Z.eqb_refl.
  - apply not_elem_of_cons in Hn as [Hne Hn].
    destruct (Z.eqb_spec x e); [congruence|]. by rewrite (IH k).
Qed.

Lemma first_index_found e xs :
  e ∈ xs -> xs !! first_index e xs = Some e /\ e ∉ take (first_index e xs) xs.
Proof.
  induction xs as [|x xs IH]; intros H; [by apply elem_of_nil in H|].
  simpl. destruct (Z.eqb_spec x e) as [->|Hne]; simpl.
  - split; [done|]. apply not_elem_of_nil.
  - apply elem_of_cons in H as [->|H]; [done|].
    destruct (IH H) as [E N]. split; [done|].
    apply not_elem_of_cons. split; [congruence|done].
Qed.

(** The elements of the chain [c] from its [m]-th cell to the tail
    sentinel, which is left out. *)
Lemma chain_rest_S (c : list cell) m n :
  m < length c - 1 -> c !! m = Some n ->
  (drop m (take (length c - 1) c)).*2 = n.2 :: (drop (S m) (take (length c - 1) c)).*2.
Proof.
  intros Hm En. rewrite (drop_S (take (length c - 1) c) n m); [done|].
  by rewrite lookup_take_lt by lia.
Qed.

Lemma chain_rest_end (c : list cell) :
  (drop (length c - 1) (take (length c - 1) c)).*2 = [].
Proof. by rewrite drop_ge by (rewrite length_take; lia). Qed.

Lemma find_loop_chain NDEBUG h l c e fuel :
  chain_of h l c ->
  forall m, 1 <= m <= length c - 1 -> length c - m <= fuel ->
  find_loop NDEBUG fuel l e (ptr_at c m) h
  = Done (ptr_at c (m + first_index e (drop m (take (length c - 1) c)).*2)) h.
Proof.
  intros [L C]. pose proof C as (ND & Hh & Ht & Hlen).
  induction fuel as [|fuel IH]; intros m Hm Hf; [lia|].
  simpl. unfold end_. rewrite Ht, ptr_eqb_at by (done || lia).
  destruct (decide (m = length c - 1)) as [->|Hne].
  - rewrite bool_decide_eq_true_2 by lia. simpl.
    rewrite chain_rest_end. simpl. unfold ret. do 2 f_equal. lia.
  - rewrite bool_decide_eq_false_2 by lia. simpl.
    destruct (lookup_lt_is_Some_2 c m ltac:(lia)) as [n En].
    step ((op_deref_chain NDEBUG l c C h m n L ltac:(lia) En)).
    rewrite (chain_rest_S c m n) by (done || lia). simpl.
    destruct (n.2 =? e)%Z.
    + unfold ret. do 2 f_equal. lia.
    + step ((op_incr_chain NDEBUG l c C h m L ltac:(lia))).
      rewrite (IH (S m)) by lia. do 2 f_equal. lia.
Qed.

Lemma find_is_list NDEBUG fuel h l hd ns tl e :
  is_list h l hd ns tl -> length ns < fuel ->
  find NDEBUG fuel l e h = Done (ptr_at (ns ++ [tl]) (first_index e (elems ns))) h.
Proof.
  intros (C & _) Hf. unfold find.
  step ((begin_chain l _ (proj2 C) h (proj1 C))).
  rewrite (find_loop_chain NDEBUG h l _ e fuel C) by (rewrite chain_length; lia).
  rewrite chain_length. replace (length ns + 2 - 1) with (S (length ns)) by lia.
  simpl. rewrite drop_0, take_app_length. done.
Qed.

Lemma contains_loop_chain NDEBUG h l c e fuel :
  chain_of h l c ->
  forall m, 1 <= m <= length c - 1 -> length c - m <= fuel ->
  contains_loop NDEBUG fuel l e (ptr_at c m) h
  = Done (bool_decide (e ∈ (drop m (take (length c - 1) c)).*2)) h.
Proof.
  intros [L C]. pose proof C as (ND & Hh & Ht & Hlen).
  induction fuel as [|fuel IH]; intros m Hm Hf; [lia|].
  simpl. unfold end_. rewrite Ht, ptr_eqb_at by (done || lia).
  destruct (decide (m = length c - 1)) as [->|Hne].
  - rewrite bool_decide_eq_true_2 by lia. simpl.
    rewrite chain_rest_end. rewrite bool_decide_eq_false_2; [done|apply not_elem_of_nil].
  - rewrite bool_decide_eq_false_2 by lia. simpl.
    destruct (lookup_lt_is_Some_2 c m ltac:(lia)) as [n En].
    step ((op_deref_chain NDEBUG l c C h m n L ltac:(lia) En)).
    rewrite (chain_rest_S c m n) by (done || lia).
    destruct (Z.eqb_spec e n.2) as [->|Hd].
    + rewrite bool_decide_eq_true_2; [done|apply elem_of_cons; by left].
    + step ((op_incr_chain NDEBUG l c C h m L ltac:(lia))).
      rewrite (IH (S m)) by lia. f_equal.
      apply bool_decide_ext. rewrite elem_of_cons.
      split; [by right|]. by intros [?|?].
Qed.

Lemma contains_is_list NDEBUG fuel h l hd ns tl e :
  is_list h l hd ns tl -> length ns < fuel ->
  contains NDEBUG fuel l e h = Done (bool_decide (e ∈ elems ns)) h.
Proof.
  intros (C & _) Hf. unfold contains.
  step ((begin_chain l _ (proj2 C) h (proj1 C))).
  rewrite (contains_loop_chain NDEBUG h l _ e fuel C) by (rewrite chain_length; lia).
  rewrite chain_length. replace (length ns + 2 - 1) with (S (length ns)) by lia.
  simpl. rewrite drop_0, take_app_length. done.
Qed.

Lemma occurrences_cons e x xs :
  occurrences e (x :: xs) = (if (e =? x)%Z then 1 else 0) + occurrences e xs.
Proof.
  unfold occurrences. rewrite filter_cons.
  destruct (Z.eqb_spec e x) as [->|Hd].
  - by rewrite decide_True.
  - by rewrite decide_False by congruence.
Qed.

Lemma occurrences_le e xs : occurrences e xs <= length xs.
Proof. unfold occurrences. apply length_filter. Qed.

Lemma count_loop_chain NDEBUG h l c e fuel :
  chain_of h l c -> (Z.of_nat (length c - 2) < 2 ^ 64)%Z ->
  forall m t, 1 <= m <= length c - 1 -> length c - m <= fuel ->
  (0 <= t)%Z -> (t + Z.of_nat (length c - 1 - m) < 2 ^ 64)%Z ->
  count_loop NDEBUG fuel l e (ptr_at c m) t h
  = Done (t + Z.of_nat (occurrences e (drop m (take (length c - 1) c)).*2))%Z h.
Proof.
  intros [L C] Hfit. pose proof C as (ND & Hh & Ht & Hlen).
  induction fuel as [|fuel IH]; intros m t Hm Hf Ht0 Htb; [lia|].
  simpl. unfold end_. rewrite Ht, ptr_eqb_at by (done || lia).
  destruct (decide (m = length c - 1)) as [->|Hne].
  - rewrite bool_decide_eq_true_2 by lia. simpl.
    rewrite chain_rest_end. unfold ret, occurrences. simpl. f_equal. lia.
  - rewrite bool_decide_eq_false_2 by lia. simpl.
    destruct (lookup_lt_is_Some_2 c m ltac:(lia)) as [n En].
    step ((op_deref_chain NDEBUG l c C h m n L ltac:(lia) En)).
    step ((op_incr_chain NDEBUG l c C h m L ltac:(lia))).
    rewrite (chain_rest_S c m n) by (done || lia).
    rewrite occurrences_cons.
    destruct (e =? n.2)%Z.
    + rewrite size_t_wrap_small by lia.
      rewrite (IH (S m)) by lia. f_equal. lia.
    + rewrite (IH (S m)) by lia. f_equal.
Qed.

Lemma count_is_list NDEBUG fuel h l hd ns tl e :
  is_list h l hd ns tl -> length ns < fuel ->
  count NDEBUG fuel l e h = Done (Z.of_nat (occurrences e (elems ns))) h.
Proof.
  intros (C & Hsz & Hfit) Hf. unfold count.
  step ((begin_chain l _ (proj2 C) h (proj1 C))).
  rewrite (count_loop_chain NDEBUG h l _ e fuel C); rewrite ?chain_length; try lia.
  replace (length ns + 2 - 1) with (S (length ns)) by lia.
  simpl. rewrite drop_0, take_app_length. done.
Qed.
(** * assign *)

Lemma first_ptr_insert (c : list cell) q k (n : cell) e :
  c !! k = Some n -> first_ptr (<[k := (n.1, e)]> c) q = first_ptr c q.
Proof. destruct c as [|x c], k as [|k]; simpl; try done. by intros [= ->]. Qed.

(** Writing the element of the [k]-th cell of a chain. *)
Lemma links_set_data h (c : list cell) q k n e :
  NoDup c.*1 -> links h c q -> c !! k = Some n ->
  links (<[n.1 := mkNode e (first_ptr (drop (S k) c) q)]> h) (<[k := (n.1, e)]> c) q.
Proof.
  revert k. induction c as [|x c IH]; intros k ND L Ek; [done|].
  rewrite fmap_cons in ND. apply NoDup_cons in ND as [Hx ND].
  destruct L as [Ex L]. destruct k as [|k]; simpl in *.
  - injection Ek as ->. split; [by rewrite lookup_insert_eq|].
    by apply links_insert.
  - assert (Hne : n.1 <> x.1).
    { intros E. apply Hx. rewrite <- E. apply list_elem_of_fmap.
      exists n. split; [done|]. by eapply list_elem_of_lookup_2. }
    split; [|by apply IH].
    rewrite lookup_insert_ne by done. by rewrite (first_ptr_insert c q k n e Ek).
Qed.

Lemma insert_fst (c : list cell) k n e :
  c !! k = Some n -> (<[k := (n.1, e)]> c).*1 = c.*1.
Proof.
  intros Ek. rewrite list_fmap_insert. simpl. apply list_insert_id.
  by rewrite list_lookup_fmap, Ek.
Qed.

Lemma ptr_at_insert (c : list cell) k n e j :
  c !! k = Some n -> ptr_at (<[k := (n.1, e)]> c) j = ptr_at c j.
Proof.
  intros Ek. unfold ptr_at.
  rewrite <- !list_lookup_fmap. by rewrite (insert_fst c k n e Ek).
Qed.

Lemma assign_is_list NDEBUG h l hd ns tl k n e :
  is_list h l hd ns tl -> ns !! k = Some n ->
  exists h',
    assign NDEBUG l (ptr_at ns k) e h = Done tt h' /\
    is_list h' l hd (<[k := (n.1, e)]> ns) tl /\
    (forall a, a <> n.1 -> h' !! a = h !! a).
Proof.
  intros ((L & ND & Hh & Ht & Hlen) & Hsz & Hb) Ek.
  set (c := hd :: ns ++ [tl]) in *.
  assert (Hk : k < length ns) by (by eapply lookup_lt_Some).
  assert (Ec : c !! S k = Some n) by (simpl; by rewrite lookup_app_l).
  assert (Hc : length c = length ns + 2) by apply chain_length.
  pose proof (links_lookup _ _ _ _ _ L Ec) as Hn.
  exists (<[n.1 := mkNode e (first_ptr (drop (S (S k)) c) None)]> h).
  split; [|split].
  - unfold assign. rewrite (ptr_at_Some _ _ _ Ek).
    assert (Ea : ptr_at c (S k) = Some n.1) by (by apply ptr_at_Some).
    assert (G : (if NDEBUG then ret tt
                 else if is_null (Some n.1) then error_info TVJ_FORWARD_LIST_NULLPTR
                 else if ptr_eqb (Some n.1) (head l)
                      then error_info TVJ_FORWARD_LIST_UNDERFLOW
                      else if ptr_eqb (Some n.1) (tail l)
                           then error_info TVJ_FORWARD_LIST_OVERFLOW
                           else ret tt) h = Done tt h).
    { destruct NDEBUG; [done|]. rewrite is_null_Some.
      rewrite <- Ea, Hh, Ht, !ptr_eqb_at by (done || lia).
      by rewrite !bool_decide_eq_false_2 by lia. }
    step G. by rewrite (set_data_Some _ _ _ e Hn).
  - split; [split; [|split; [|split; [|split]]]|split].
    + pose proof (links_set_data h c None (S k) n e ND L Ec) as K.
      unfold c in K. simpl in K. rewrite insert_app_l in K by done. exact K.
    + replace (hd :: <[k := (n.1, e)]> ns ++ [tl]) with (<[S k := (n.1, e)]> c)
        by (unfold c; simpl; by rewrite insert_app_l).
      by rewrite (insert_fst c (S k) n e Ec).
    + done.
    + rewrite Ht. rewrite !chain_length, length_insert.
      replace (hd :: <[k := (n.1, e)]> ns ++ [tl]) with (<[S k := (n.1, e)]> c)
        by (unfold c; simpl; by rewrite insert_app_l).
      rewrite (ptr_at_insert c (S k) n e _ Ec). unfold c. by rewrite chain_length.
    + rewrite chain_length. lia.
    + by rewrite length_insert.
    + by rewrite length_insert.
  - intros a Ha. by rewrite lookup_insert_ne.
Qed.

Lemma elems_insert ns k (n : cell) e :
  elems (<[k := (n.1, e)]> ns) = <[k := e]> (elems ns).
Proof. unfold elems. by rewrite list_fmap_insert. Qed.
(** * insert_after and push_front *)

Lemma new_Node_with_fresh e s h :
  new_Node_with e s h
  = Done (Some (fresh (dom h))) (<[fresh (dom h) := mkNode e s]> h).
Proof. done. Qed.

(** The cells of a chain are nodes of the heap. *)
Lemma links_inside h (c : list cell) q a : links h c q -> a ∈ c.*1 -> is_Some (h !! a).
Proof.
  intros L Ha. apply list_elem_of_fmap in Ha as (n & -> & Hn).
  apply list_elem_of_lookup in Hn as (i & Hi).
  by rewrite (links_lookup _ _ _ _ _ L Hi).
Qed.

Lemma replicate_to_nat_S {A} (n j : Z) (e : A) :
  (0 <= j < n)%Z ->
  replicate (Z.to_nat (n - j)) e = e :: replicate (Z.to_nat (n - (j + 1))) e.
Proof.
  intros H. replace (Z.to_nat (n - j)) with (S (Z.to_nat (n - (j + 1)))) by lia. done.
Qed.

(** The inner loop links one new node after the other behind the cell
    [x], between [pre ++ [x]] and [post]. *)
Lemma insert_after_fill_chain NDEBUG e n t fuel :
  forall j pre (x : cell) post h l,
    links h (pre ++ x :: post) None -> NoDup (pre ++ x :: post).*1 ->
    tail l = Some t -> t ∈ post.*1 ->
    (0 <= j <= n)%Z -> Z.to_nat (n - j) < fuel ->
    (0 <= size_ l)%Z -> (size_ l + (n - j) < 2 ^ 64)%Z -> (n < 2 ^ 64)%Z ->
    exists news h',
      insert_after_fill NDEBUG fuel l e n (Some x.1) j h
      = Done (mkList (head l) (tail l) (size_ l + (n - j))) h' /\
      links h' (pre ++ x :: news ++ post) None /\
      NoDup (pre ++ x :: news ++ post).*1 /\
      news.*2 = replicate (Z.to_nat (n - j)) e /\
      outside h news.
Proof.
  induction fuel as [|fuel IH]; intros j pre x post h l L ND Ht Htp Hj Hf Hs0 Hs Hn;
    [lia|].
  simpl. destruct (Z.eqb_spec j n) as [->|Hjn]; simpl.
  - exists [], h. split; [|split; [done|split; [done|split]]].
    + unfold ret. f_equal. destruct l. simpl. f_equal. lia.
    + by rewrite Z.sub_diag.
    + by intros ? ?%elem_of_nil.
  - pose proof L as L'. apply links_app in L' as [Lpre [Hx Lpost]]. simpl in Lpre.
    step ((get_succ_Some _ _ _ Hx)). simpl.
    set (s := first_ptr post None) in *.
    set (a := fresh (dom h)).
    pose proof (fresh_not_in h) as Ha. fold a in Ha.
    step ((new_Node_with_fresh e s h)). fold a.
    set (h1 := <[a := mkNode e s]> h).
    assert (Hna : a ∉ (pre ++ x :: post).*1).
    { intros Hin. destruct (links_inside _ _ _ _ L Hin) as [? E]. congruence. }
    assert (Hax : a <> x.1).
    { intros ->. apply Hna. rewrite fmap_app, fmap_cons.
      apply elem_of_app. right. apply elem_of_cons. by left. }
    assert (Hx1 : h1 !! x.1 = Some (mkNode x.2 s))
      by (unfold h1; by rewrite lookup_insert_ne).
    step ((set_succ_Some _ _ _ (Some a) Hx1)). simpl.
    set (h2 := <[x.1 := mkNode x.2 (Some a)]> h1).
    assert (Hx2 : h2 !! x.1 = Some (mkNode x.2 (Some a)))
      by (unfold h2; by rewrite lookup_insert_eq).
    assert (Hxt : x.1 <> t).
    { intros E. rewrite fmap_app, fmap_cons in ND.
      apply NoDup_app in ND as (_ & _ & ND). apply NoDup_cons in ND as [ND _].
      apply ND. by rewrite E. }
    assert (Ei : op_incr NDEBUG l (Some x.1) h2 = Done (Some a) h2).
    { unfold op_incr, check_advance.
      assert (G : (if NDEBUG then ret tt
                   else if is_null (Some x.1) then error_info TVJ_FORWARD_LIST_NULLPTR
                   else if ptr_eqb (Some x.1) (tail l)
                        then error_info TVJ_FORWARD_LIST_OVERFLOW
                        else ret tt) h2 = Done tt h2).
      { destruct NDEBUG; [done|]. rewrite is_null_Some, Ht, ptr_neq by done. done. }
      step G. by rewrite (get_succ_Some _ _ _ Hx2). }
    step Ei.
    assert (Hfr : forall b, b <> a -> b <> x.1 -> h2 !! b = h !! b).
    { intros b Hba Hbx. unfold h2, h1. by rewrite !lookup_insert_ne. }
    assert (NDx : (x.1 ∉ pre.*1) /\ (x.1 ∉ post.*1)).
    { rewrite fmap_app, fmap_cons in ND. apply NoDup_app in ND as (_ & D1 & ND).
      apply NoDup_cons in ND as [D2 _]. split; [|done].
      intros Hin. apply (D1 _ Hin). apply elem_of_cons. by left. }
    destruct NDx as [NDx1 NDx2].
    assert (L2 : links h2 ((pre ++ [x]) ++ (a, e) :: post) None).
    { apply links_app. split.
      - apply links_app. split; [|simpl; by split].
        simpl. apply (links_frame h); [|exact Lpre].
        intros b Hb. apply Hfr.
        + intros ->. apply Hna. rewrite fmap_app. apply elem_of_app. by left.
        + intros ->. by apply NDx1.
      - simpl. split.
        + unfold h2. rewrite lookup_insert_ne by done. unfold h1.
          by rewrite lookup_insert_eq.
        + apply (links_frame h); [|exact Lpost].
          intros b Hb. apply Hfr.
          * intros ->. apply Hna. rewrite fmap_app, fmap_cons.
            apply elem_of_app. right. apply elem_of_cons. by right.
          * intros ->. by apply NDx2. }
    assert (ND2 : NoDup ((pre ++ [x]) ++ (a, e) :: post).*1).
    { assert (P : ((pre ++ [x]) ++ (a, e) :: post).*1 ≡ₚ a :: (pre ++ x :: post).*1).
      { rewrite fmap_app, fmap_cons. simpl. rewrite <- Permutation_middle.
        by rewrite <- fmap_app, <- app_assoc. }
      rewrite P. by apply NoDup_cons. }
    rewrite !size_t_wrap_small by lia.
    destruct (IH (j + 1)%Z (pre ++ [x]) (a, e) post h2
                (mkList (head l) (tail l) (size_ l + 1)) L2 ND2 Ht Htp)
      as (news & h' & E & L' & ND' & Hnews & O); simpl; try lia.
    exists ((a, e) :: news), h'. split; [|split; [|split; [|split]]].
    + simpl in E. rewrite E. do 2 f_equal. lia.
    + rewrite <- app_assoc in L'. exact L'.
    + rewrite <- app_assoc in ND'. exact ND'.
    + rewrite (replicate_to_nat_S n j) by lia. by rewrite fmap_cons, Hnews.
    + intros y Hy. apply elem_of_cons in Hy as [->|Hy]; [done|].
      specialize (O y Hy). destruct (decide (y.1 = a)) as [->|Hya]; [done|].
      destruct (decide (y.1 = x.1)) as [Eyx|Hyx].
      * rewrite Eyx in O. congruence.
      * by rewrite <- Hfr.
Qed.

(** The closing loop pushes [n - j] more elements. *)
Lemma insert_after_push_is_list junk e n fuel :
  forall j h l hd ns tl,
    is_list h l hd ns tl -> (0 <= j <= n)%Z -> Z.to_nat (n - j) < fuel ->
    (Z.of_nat (length ns) + (n - j) < 2 ^ 64)%Z -> (n < 2 ^ 64)%Z ->
    exists l' h' ns' tl',
      insert_after_push junk fuel l e n j h = Done l' h' /\
      is_list h' l' hd (ns ++ ns') tl' /\
      elems ns' = replicate (Z.to_nat (n - j)) e.
Proof.
  induction fuel as [|fuel IH]; intros j h l hd ns tl I Hj Hf Hs Hn; [lia|].
  simpl. destruct (Z.eqb_spec j n) as [->|Hjn]; simpl.
  - exists l, h, [], tl. rewrite app_nil_r, Z.sub_diag. done.
  - destruct (push_back_is_list junk h l hd ns tl e I ltac:(lia))
      as (l1 & h1 & b & E1 & I1 & _).
    step E1. rewrite size_t_wrap_small by lia.
    destruct (IH (j + 1)%Z h1 l1 hd (ns ++ [(tl.1, e)]) (b, junk) I1)
      as (l' & h' & ns' & tl' & E & I' & El);
      rewrite ?length_app; simpl; try lia.
    exists l', h', ((tl.1, e) :: ns'), tl'. split; [done|]. split.
    + by rewrite <- app_assoc in I'.
    + rewrite (replicate_to_nat_S n j) by lia. unfold elems in *.
      by rewrite fmap_cons, El.
Qed.

(** The search reaches the cursor when it is at the head sentinel or at
    an element that is not the last one. *)
Lemma insert_after_loop_found NDEBUG junk h l c k e n fuel :
  chain_of h l c -> k < length c - 2 ->
  forall m, m <= k -> k - m < fuel ->
    insert_after_loop NDEBUG junk fuel l (ptr_at c k) e n (ptr_at c m) h
    = insert_after_fill NDEBUG (fuel - (k - m)) l e n (ptr_at c k) 0 h.
Proof.
  intros [L C] Hk. pose proof C as (ND & Hh & Ht & Hlen).
  induction fuel as [|fuel IH]; intros m Hm Hf; [lia|].
  cbn [insert_after_loop].
  assert (A1 : m < length c - 1) by lia.
  assert (A2 : m + 1 <= length c) by lia.
  step ((op_plus_chain NDEBUG l c C h m 1 L A1 A2)).
  unfold cend. rewrite Ht, !ptr_eqb_at by (done || lia).
  rewrite bool_decide_eq_false_2 by lia. simpl.
  destruct (decide (m = k)) as [->|Hne].
  - rewrite bool_decide_eq_true_2 by done.
    by replace (S fuel - (k - k)) with (S fuel) by lia.
  - rewrite bool_decide_eq_false_2 by done.
    step ((op_incr_chain NDEBUG l c C h m L A1)).
    rewrite (IH (S m)) by lia. f_equal. lia.
Qed.

(** With any other cursor the search runs to the last element and the
    closing loop takes over. *)
Lemma insert_after_loop_not_found NDEBUG junk h l c iter e n fuel :
  chain_of h l c -> (forall j, j < length c - 2 -> ptr_at c j <> iter) ->
  forall m, m <= length c - 2 -> length c - 2 - m < fuel ->
    insert_after_loop NDEBUG junk fuel l iter e n (ptr_at c m) h
    = insert_after_push junk (fuel - (length c - 2 - m)) l e n 0 h.
Proof.
  intros [L C] Hiter. pose proof C as (ND & Hh & Ht & Hlen).
  induction fuel as [|fuel IH]; intros m Hm Hf; [lia|].
  cbn [insert_after_loop].
  assert (A1 : m < length c - 1) by lia.
  assert (A2 : m + 1 <= length c) by lia.
  step ((op_plus_chain NDEBUG l c C h m 1 L A1 A2)).
  unfold cend. rewrite Ht, !ptr_eqb_at by (done || lia).
  destruct (decide (m = length c - 2)) as [->|Hne].
  - rewrite bool_decide_eq_true_2 by lia. simpl.
    by replace (S fuel - (length c - 2 - (length c - 2))) with (S fuel) by lia.
  - rewrite bool_decide_eq_false_2 by lia. simpl.
    assert (Hi : ptr_eqb (ptr_at c m) iter = false)
      by (apply ptr_eqb_false, Hiter; lia).
    rewrite Hi.
    step ((op_incr_chain NDEBUG l c C h m L A1)).
    rewrite (IH (S m)) by lia. f_equal. lia.
Qed.

(** [insert_after(iter, elem, n)] with [iter] at the head sentinel
    ([k = 0]) or at an element that is not the last ([0 < k < length]):
    [n] new nodes are linked in behind it; every old node stays where it
    was, and so does the tail sentinel. *)
Lemma insert_after_n_inner NDEBUG junk fuel h l hd ns tl k e n :
  is_list h l hd ns tl -> k < length ns -> (0 < n)%Z ->
  (Z.of_nat (length ns) + n < 2 ^ 64)%Z ->
  length ns + Z.to_nat n + 2 <= fuel ->
  exists l' h' news,
    insert_after_n NDEBUG junk fuel l (ptr_at (hd :: ns) k) e n h = Done l' h' /\
    is_list h' l' hd (take k ns ++ news ++ drop k ns) tl /\
    elems news = replicate (Z.to_nat n) e /\ outside h news.
Proof.
  intros I Hk Hn Hfit Hf. pose proof I as ((L & C) & Hsz & Hb).
  pose proof C as (ND & Hh & Ht & Hlen).
  set (c := hd :: ns ++ [tl]) in *.
  assert (Hc : length c = length ns + 2) by apply chain_length.
  destruct (lookup_lt_is_Some_2 c k ltac:(lia)) as [x Ex].
  assert (Ep : ptr_at (hd :: ns) k = ptr_at c k).
  { unfold c. rewrite app_comm_cons. symmetry. apply ptr_at_app_l. simpl. lia. }
  assert (Ec : c = take k c ++ x :: drop (S k) c) by (by rewrite take_drop_middle).
  assert (Htl : tl.1 ∈ (drop (S k) c).*1).
  { apply list_elem_of_fmap. exists tl. split; [done|].
    apply (list_elem_of_lookup_2 _ (length ns - k)).
    rewrite lookup_drop. unfold c.
    replace (S k + (length ns - k)) with (length ns + 1) by lia. apply chain_last. }
  assert (Ht' : tail l = Some tl.1) by (rewrite Ht; apply chain_tail_ptr).
  destruct (insert_after_fill_chain NDEBUG e n tl.1 (fuel - (k - 0)) 0%Z
              (take k c) x (drop (S k) c) h l
              ltac:(by rewrite <- Ec) ltac:(by rewrite <- Ec) Ht' Htl)
    as (news & h' & E & L' & ND' & Hnews & O); try lia.
  rewrite Z.sub_0_r in Hnews.
  exists (mkList (head l) (tail l) (size_ l + (n - 0))), h', news.
  split; [|split; [|split; [exact Hnews|exact O]]].
  - unfold insert_after_n. destruct (Z.eqb_spec n 0); [lia|].
    assert (Ehd : cbefore_begin l = ptr_at c 0) by exact Hh.
    rewrite Ehd, Ep.
    rewrite (insert_after_loop_found NDEBUG junk h l c k e n fuel (conj L C)) by lia.
    rewrite (ptr_at_Some _ _ _ Ex). exact E.
  - assert (Ecs : take k c ++ x :: news ++ drop (S k) c
                  = hd :: (take k ns ++ news ++ drop k ns) ++ [tl]).
    { replace (take k c ++ x :: news ++ drop (S k) c)
        with (take (S k) c ++ news ++ drop (S k) c)
        by (by rewrite (take_S_r c k x Ex), <- app_assoc).
      unfold c. simpl. rewrite take_app_le, drop_app_le by lia.
      by rewrite <- !app_assoc. }
    rewrite Ecs in L', ND'.
    split; [split; [done|split; [done|split; [done|split]]]|split].
    + simpl tail. by rewrite chain_tail_ptr, Ht'.
    + rewrite chain_length. lia.
    + simpl. rewrite !length_app, length_take, length_drop.
      rewrite <- (length_fmap snd news), Hnews, length_replicate. lia.
    + rewrite !length_app, length_take, length_drop.
      rewrite <- (length_fmap snd news), Hnews, length_replicate. lia.
Qed.

(** [insert_after(iter, elem, n)] with a cursor the search does not meet:
    [n] elements are pushed at the back. *)
Lemma insert_after_n_outer NDEBUG junk fuel h l hd ns tl iter e n :
  is_list h l hd ns tl ->
  (forall j, j < length ns -> ptr_at (hd :: ns) j <> iter) -> (0 <= n)%Z ->
  (Z.of_nat (length ns) + n < 2 ^ 64)%Z ->
  length ns + Z.to_nat n + 2 <= fuel ->
  exists l' h' ns' tl',
    insert_after_n NDEBUG junk fuel l iter e n h = Done l' h' /\
    is_list h' l' hd (ns ++ ns') tl' /\
    elems ns' = replicate (Z.to_nat n) e.
Proof.
  intros I Hiter Hn Hfit Hf. pose proof I as ((L & C) & Hsz & Hb).
  pose proof C as (ND & Hh & Ht & Hlen).
  set (c := hd :: ns ++ [tl]) in *.
  assert (Hc : length c = length ns + 2) by apply chain_length.
  unfold insert_after_n. destruct (Z.eqb_spec n 0) as [->|Hn0].
  - exists l, h, [], tl. by rewrite app_nil_r.
  - assert (Ehd : cbefore_begin l = ptr_at c 0) by exact Hh.
    rewrite Ehd.
    rewrite (insert_after_loop_not_found NDEBUG junk h l c iter e n fuel (conj L C));
      try lia.
    + destruct (insert_after_push_is_list junk e n (fuel - (length c - 2 - 0)) 0%Z
                  h l hd ns tl I) as (l' & h' & ns' & tl' & E & I' & El); try lia.
      exists l', h', ns', tl'. by rewrite Z.sub_0_r in El.
    + intros j Hj.
      assert (E : ptr_at c j = ptr_at (hd :: ns) j)
        by (unfold c; rewrite app_comm_cons; apply ptr_at_app_l; simpl; lia).
      rewrite E. apply Hiter. lia.
Qed.
(** * remove_at on a cursor at an element *)

Lemma remove_at_loop_found NDEBUG h l c k x n fuel :
  chain_of h l c -> c !! k = Some x -> c !! S k = Some n -> S k < length c - 1 ->
  forall m, m <= k -> k - m < fuel ->
    remove_at_loop NDEBUG fuel l (ptr_at c (S k)) (ptr_at c m) h
    = Done (n.2, true, mkList (head l) (tail l) (size_t_wrap (size_ l - 1)))
        (<[x.1 := mkNode x.2 (ptr_at c (S (S k)))]> h).
Proof.
  intros [L C] Ex En Hk. pose proof C as (ND & Hh & Ht & Hlen).
  induction fuel as [|fuel IH]; intros m Hm Hf; [lia|].
  simpl.
  assert (A1 : m < length c - 1) by lia.
  assert (A2 : m + 1 <= length c) by lia.
  pose proof (op_plus_chain NDEBUG l c C h m 1 L A1 A2) as Pl.
  step Pl.
  rewrite (cend_at l c C), ptr_eqb_at by (done || lia).
  rewrite bool_decide_eq_false_2 by lia. simpl.
  step Pl. rewrite ptr_eqb_at by (done || lia).
  destruct (decide (m = k)) as [->|Hne].
  - rewrite bool_decide_eq_true_2 by lia. simpl.
    step Pl. replace (k + 1) with (S k) by lia.
    step ((op_deref_chain NDEBUG l c C h (S k) n L ltac:(lia) En)).
    replace (k + 1) with (S k) in Pl by lia. step Pl.
    rewrite (ptr_at_Some _ _ _ En).
    pose proof (links_lookup _ _ _ _ _ L En) as Hn. rewrite first_ptr_drop in Hn.
    step ((get_succ_Some _ _ _ Hn)). simpl.
    rewrite (ptr_at_Some _ _ _ Ex).
    pose proof (links_lookup _ _ _ _ _ L Ex) as Hx.
    by step ((set_succ_Some _ _ _ (ptr_at c (S (S k))) Hx)).
  - rewrite bool_decide_eq_false_2 by lia. simpl.
    step ((op_incr_chain NDEBUG l c C h m L A1)).
    apply IH; lia.
Qed.

(** [remove_at] at the [k]-th element returns it, sets the flag and
    unlinks its node, which stays in the heap as it was. *)
Lemma remove_at_is_list NDEBUG fuel h l hd ns tl k n :
  is_list h l hd ns tl -> ns !! k = Some n -> length ns < fuel ->
  exists l' h',
    remove_at NDEBUG fuel l (ptr_at ns k) h = Done (n.2, true, l') h' /\
    is_list h' l' hd (take k ns ++ drop (S k) ns) tl /\
    h' !! n.1 = h !! n.1.
Proof.
  intros I En Hf. pose proof I as ((L & C) & Hsz & Hb).
  pose proof C as (ND & Hh & Ht & Hlen).
  set (c := hd :: ns ++ [tl]) in *.
  assert (Hk : k < length ns) by (by eapply lookup_lt_Some).
  assert (Hc : length c = length ns + 2) by apply chain_length.
  assert (Ec : c !! S k = Some n) by (simpl; by rewrite lookup_app_l).
  destruct (lookup_lt_is_Some_2 c k ltac:(lia)) as [x Ex].
  exists (mkList (head l) (tail l) (size_t_wrap (size_ l - 1))),
    (<[x.1 := mkNode x.2 (ptr_at c (S (S k)))]> h).
  split; [|split].
  - unfold remove_at, cbefore_begin. rewrite (ptr_at_Some _ _ _ En).
    rewrite <- (ptr_at_Some _ _ _ Ec).
    assert (Ehd : head l = ptr_at c 0) by exact Hh.
    rewrite Ehd at 1.
    apply (remove_at_loop_found NDEBUG h l c k x n fuel (conj L C) Ex Ec); lia.
  - apply (is_list_cut h l hd ns tl k (S k) _ _ I); [lia| |done|done|].
    + pose proof (chain_cut false h c k (S (S k)) x L ND Ex ltac:(lia) ltac:(lia)) as K.
      exact K.
    + simpl. rewrite Hsz, size_t_wrap_small by lia. lia.
  - apply lookup_insert_ne. intros E.
    pose proof (cell_index_inj c k (S k) x n ND Ex Ec E). lia.
Qed.

(** * sorted, whatever the list holds *)

Lemma sorted_loop_decides NDEBUG h l c asc fuel :
  chain_of h l c ->
  forall m, 1 <= m <= length c - 2 -> length c - m <= fuel ->
    sorted_loop NDEBUG fuel l asc (ptr_at c m) h
    = Done (is_sorted asc (drop m (take (length c - 1) c)).*2) h.
Proof.
  intros [L C]. pose proof C as (ND & Hh & Ht & Hlen).
  induction fuel as [|fuel IH]; intros m Hm Hf; [lia|].
  destruct (lookup_lt_is_Some_2 c m ltac:(lia)) as [a Ea].
  assert (Hda : drop m (take (length c - 1) c)
                = a :: drop (S m) (take (length c - 1) c)).
  { apply drop_S. by rewrite lookup_take_lt by lia. }
  set (r := is_sorted asc (drop m (take (length c - 1) c)).*2).
  simpl.
  step ((op_plus_chain NDEBUG l c C h m 1 L ltac:(lia) ltac:(lia))).
  rewrite (cend_at l c C), ptr_eqb_at by (done || lia).
  destruct (decide (m + 1 = length c - 1)) as [Heq|Hne].
  - rewrite bool_decide_eq_true_2 by done. simpl.
    unfold r. rewrite Hda, drop_ge by (rewrite length_take; lia). done.
  - rewrite bool_decide_eq_false_2 by done. simpl.
    destruct (lookup_lt_is_Some_2 c (m + 1) ltac:(lia)) as [b Eb].
    pose proof (op_deref_chain NDEBUG l c C h m a L ltac:(lia) Ea) as Da.
    pose proof (op_deref_chain NDEBUG l c C h (m + 1) b L ltac:(lia) Eb) as Db.
    pose proof (op_plus_chain NDEBUG l c C h m 1 L ltac:(lia) ltac:(lia)) as Pl.
    pose proof (op_incr_chain NDEBUG l c C h m L ltac:(lia)) as Inc.
    assert (Hd : drop (S m) (take (length c - 1) c)
                 = b :: drop (S (S m)) (take (length c - 1) c)).
    { apply drop_S. rewrite lookup_take_lt by lia. by rewrite <- Nat.add_1_r. }
    rewrite (bind_Done _ _ _ _ _ Da), (bind_Done _ _ _ _ _ Pl), (bind_Done _ _ _ _ _ Db).
    assert (Hs : r = in_order asc a.2 b.2
                     && is_sorted asc (drop (S m) (take (length c - 1) c)).*2).
    { unfold r. rewrite Hda, Hd, !fmap_cons. done. }
    rewrite Hs. unfold in_order.
    destruct (a.2 =? b.2)%Z.
    + step Inc. rewrite (IH (S m)) by lia. done.
    + rewrite (bind_Done _ _ _ _ _ Da), (bind_Done _ _ _ _ _ Pl), (bind_Done _ _ _ _ _ Db).
      destruct (xorb (a.2 <? b.2)%Z asc); simpl; [done|].
      step Inc. rewrite (IH (S m)) by lia. done.
Qed.

Lemma sorted_decides NDEBUG fuel h l hd ns tl asc :
  is_list h l hd ns tl -> length ns < fuel ->
  sorted NDEBUG fuel l asc h = Done (is_sorted asc (elems ns)) h.
Proof.
  intros (C & Hsz & Hb) Hf. unfold sorted. rewrite Hsz.
  destruct (Z.of_nat (length ns) <? 2)%Z eqn:Hlt.
  - apply Z.ltb_lt in Hlt. destruct ns as [|a [|b ns]]; simpl in *; [done|done|lia].
  - apply Z.ltb_ge in Hlt. unfold cbegin.
    pose proof (begin_chain l _ (proj2 C) h (proj1 C)) as B. unfold begin_ in B.
    step B.
    rewrite (sorted_loop_decides NDEBUG h l _ asc fuel C)
      by (rewrite chain_length; lia).
    by rewrite chain_elems.
Qed.
(** * What erase_after, clear and the destructor do to the heap *)

Lemma free_cells_snoc cs (n : cell) h :
  free_cells (cs ++ [n]) h = delete n.1 (free_cells cs h).
Proof. unfold free_cells. by rewrite foldl_app. Qed.

Lemma free_cells_gone cs h a : a ∈ cs.*1 -> free_cells cs h !! a = None.
Proof.
  induction cs as [|n cs IH] using rev_ind; [by intros ?%elem_of_nil|].
  rewrite fmap_app, free_cells_snoc. intros Ha.
  destruct (decide (a = n.1)) as [->|Hne]; [by rewrite lookup_delete_eq|].
  rewrite lookup_delete_ne by done. apply IH.
  apply elem_of_app in Ha as [Ha|Ha]; [done|].
  simpl in Ha. apply list_elem_of_singleton in Ha. congruence.
Qed.

Lemma is_list_frame h h' l hd ns tl :
  (forall a, a ∈ (hd :: ns ++ [tl]).*1 -> h' !! a = h !! a) ->
  is_list h l hd ns tl -> is_list h' l hd ns tl.
Proof.
  intros F ((L & C) & Hsz & Hb). split; [split; [|done]|done].
  by apply (links_frame h).
Qed.

(** [erase_after(iter1)] with the heap it leaves: the cell [x] before
    [iter1] is linked to the tail sentinel; the erased nodes are freed in
    the fast build and stay in the heap in the checked one; no other node
    changes. *)
Lemma erase_after1_heap NDEBUG fuel h l hd ns tl k1 x :
  is_list h l hd ns tl -> (hd :: ns) !! k1 = Some x -> k1 < length ns ->
  length ns + 2 <= fuel ->
  exists l' h',
    erase_after1 NDEBUG fuel l (ptr_at ns k1) h = Done l' h' /\
    is_list h' l' hd (take k1 ns) tl /\
    head l' = head l /\ tail l' = tail l /\
    h' !! x.1 = Some (mkNode x.2 (Some tl.1)) /\
    (forall a, a ∈ (drop k1 ns).*1 ->
               h' !! a = if NDEBUG then None else h !! a) /\
    (forall a, a ∉ (drop k1 ns).*1 -> a <> x.1 -> h' !! a = h !! a).
Proof.
  intros I Ex' Hk1 Hf. pose proof I as (C & Hsz & Hb).
  set (c := hd :: ns ++ [tl]) in *.
  assert (Hc : length c = length ns + 2) by apply chain_length.
  assert (Ex : c !! k1 = Some x).
  { unfold c. rewrite app_comm_cons. rewrite lookup_app_l by (simpl; lia). done. }
  assert (Hcs : take (length c - 1 - S k1) (drop (S k1) c) = drop k1 ns).
  { unfold c. simpl. rewrite drop_app_le by lia.
    rewrite take_app_le by (rewrite length_drop, length_app; simpl; lia).
    apply take_ge. rewrite length_drop, length_app. simpl. lia. }
  assert (Hxn : x.1 ∉ (drop k1 ns).*1).
  { rewrite <- Hcs. intros Hin.
    apply elem_of_slice in Hin as (i & n & Hi & En & E).
    pose proof (cell_index_inj c i k1 n x (proj1 (proj2 C)) En Ex E). lia. }
  set (h' := <[x.1 := mkNode x.2 (ptr_at c (length c - 1))]>
               (freed NDEBUG (take (length c - 1 - S k1) (drop (S k1) c)) h)).
  exists (mkList (head l) (tail l) (Z.of_nat k1)), h'.
  assert (E : erase_after1 NDEBUG fuel l (ptr_at ns k1) h
              = Done (mkList (head l) (tail l) (Z.of_nat k1)) h').
  { unfold erase_after1. rewrite (is_list_nonempty _ _ _ _ _ I) by lia.
    rewrite (cend_at l c (proj2 C)).
    assert (Ehd : cbefore_begin l = ptr_at c 0) by apply (head_at l c (proj2 C)).
    rewrite Ehd.
    replace (ptr_at ns k1) with (ptr_at c (S k1))
      by (unfold c; rewrite ptr_at_cons; by apply ptr_at_app_l).
    rewrite (erase_after1_loop_chain NDEBUG h l c k1 x fuel C Ex)
      by (rewrite ?Hc; (done || lia)).
    done. }
  split; [done|]. split; [|split; [done|split; [done|split; [|split]]]].
  - rewrite <- (app_nil_r (take k1 ns)), <- (drop_all ns).
    apply (is_list_cut h l hd ns tl k1 (length ns) _ _ I ltac:(lia)); [|done|done|].
    + replace (S (length ns)) with (length c - 1) by lia.
      apply (chain_cut NDEBUG h c k1 (length c - 1) x); [apply C|apply C|done|lia|lia].
    + simpl. lia.
  - unfold h'. rewrite lookup_insert_eq. do 2 f_equal. unfold c. apply chain_tail_ptr.
  - intros a Ha. unfold h'.
    rewrite lookup_insert_ne by (intros E'; apply Hxn; by rewrite E').
    rewrite Hcs. unfold freed. destruct NDEBUG; [by apply free_cells_gone|done].
  - intros a Ha Hax. unfold h'. rewrite lookup_insert_ne by done.
    rewrite Hcs. by apply freed_lookup.
Qed.

(** The destructor: the fast build frees every node of the list and no
    other node; the checked build frees none, and changes only the link
    of the head sentinel. *)
Lemma forward_list_destroy_is_list NDEBUG fuel h l hd ns tl :
  is_list h l hd ns tl -> length ns + 2 <= fuel ->
  exists h',
    forward_list_destroy NDEBUG fuel l h = Done tt h' /\
    (forall a, a ∉ (hd :: ns ++ [tl]).*1 -> h' !! a = h !! a) /\
    (forall a, a ∈ (hd :: ns ++ [tl]).*1 ->
       if NDEBUG then h' !! a = None
       else is_Some (h' !! a) /\ (a <> hd.1 -> h' !! a = h !! a)).
Proof.
  intros I Hf. pose proof I as ((L & C) & Hsz & Hb).
  destruct (is_list_head _ _ _ _ _ I) as (Hh & Ht & Hhd & Hne).
  assert (Hfin : forall l1 h1,
    head l1 = head l -> tail l1 = tail l ->
    is_Some (h1 !! hd.1) -> is_Some (h1 !! tl.1) ->
    (if NDEBUG
     then (if negb (is_null (head l1)) then delete_Node (head l1) else ret tt) ;;;
          (if negb (is_null (tail l1)) then delete_Node (tail l1) else ret tt)
     else ret tt) h1
    = Done tt (if NDEBUG then delete tl.1 (delete hd.1 h1) else h1)).
  { intros l1 h1 -> -> [n1 E1] [n2 E2]. destruct NDEBUG; [|done].
    rewrite Hh, Ht, !is_null_Some. simpl.
    step ((delete_Node_Some _ _ _ E1)).
    apply (delete_Node_Some _ _ n2). by rewrite lookup_delete_ne. }
  destruct ns as [|n ns].
  - exists (if NDEBUG then delete tl.1 (delete hd.1 h) else h).
    split; [|split].
    + unfold forward_list_destroy, cbegin. rewrite Hh.
      step ((get_succ_Some _ _ _ Hhd)). simpl.
      unfold erase_after1. rewrite (is_list_empty _ _ _ _ I). rewrite bind_ret.
      apply Hfin; [done|done|by eexists|].
      apply (links_inside h (hd :: [] ++ [tl]) None _ L).
      simpl. apply elem_of_cons. right. apply elem_of_cons. by left.
    + intros a Ha. simpl in Ha. destruct NDEBUG; [|done].
      assert (Hah : hd.1 <> a).
      { intros E. apply Ha. rewrite E. apply elem_of_cons. by left. }
      assert (Hat : tl.1 <> a).
      { intros E. apply Ha. rewrite E.
        apply elem_of_cons. right. apply elem_of_cons. by left. }
      by rewrite !lookup_delete_ne.
    + intros a Ha. simpl in Ha. destruct NDEBUG.
      * apply elem_of_cons in Ha as [->|Ha].
        -- rewrite lookup_delete_ne by done. by rewrite lookup_delete_eq.
        -- apply list_elem_of_singleton in Ha as ->. by rewrite lookup_delete_eq.
      * split; [|done]. by apply (links_inside h (hd :: [] ++ [tl]) None _ L).
  - destruct (erase_after1_heap NDEBUG fuel h l hd (n :: ns) tl 0 hd I)
      as (l1 & h1 & E1 & I1 & Hh1 & Ht1 & Hx1 & Hin1 & Hout1);
      [done|simpl; lia|done|].
    destruct (is_list_head _ _ _ _ _ I1) as (_ & _ & _ & _).
    assert (Htl1 : is_Some (h1 !! tl.1)).
    { destruct I1 as ((L1 & _) & _).
      apply (links_inside h1 (hd :: take 0 (n :: ns) ++ [tl]) None _ L1).
      simpl. apply elem_of_cons. right. apply elem_of_cons. by left. }
    exists (if NDEBUG then delete tl.1 (delete hd.1 h1) else h1).
    pose proof C as (ND & _).
    split; [|split].
    + unfold forward_list_destroy, cbegin. rewrite Hh.
      step ((get_succ_Some _ _ _ Hhd)). simpl.
      change (Some n.1) with (ptr_at (n :: ns) 0). step E1.
      apply Hfin; [done|done|by eexists|done].
    + intros a Ha.
      assert (Hah : a <> hd.1).
      { intros E. apply Ha. rewrite E. apply elem_of_cons. by left. }
      assert (Hat : a <> tl.1).
      { intros E. apply Ha. rewrite E, fmap_cons, fmap_app.
        apply elem_of_cons. right. apply elem_of_app. right.
        apply elem_of_cons. by left. }
      assert (Hans : a ∉ (drop 0 (n :: ns)).*1).
      { intros Hin. apply Ha. rewrite fmap_cons, fmap_app.
        apply elem_of_cons. right. apply elem_of_app. by left. }
      destruct NDEBUG; rewrite ?lookup_delete_ne by done; by apply Hout1.
    + intros a Ha. rewrite fmap_cons, fmap_app in Ha.
      rewrite fmap_cons, fmap_app in ND. apply NoDup_cons in ND as [ND1 ND].
      apply NoDup_app in ND as (_ & ND2 & _).
      destruct (decide (a = hd.1)) as [->|Hah].
      { destruct NDEBUG.
        - rewrite lookup_delete_ne by done. by rewrite lookup_delete_eq.
        - split; [by eexists|done]. }
      apply elem_of_cons in Ha as [Ha|Ha]; [done|].
      apply elem_of_app in Ha as [Ha|Ha].
      * specialize (Hin1 a Ha).
        destruct NDEBUG.
        -- destruct (decide (a = tl.1)) as [->|Hat]; [by rewrite lookup_delete_eq|].
           by rewrite !lookup_delete_ne.
        -- rewrite Hin1. split; [|done].
           apply (links_inside h (hd :: (n :: ns) ++ [tl]) None _ L).
           rewrite fmap_cons, fmap_app.
           apply elem_of_cons. right. apply elem_of_app. by left.
      * simpl in Ha. apply list_elem_of_singleton in Ha as ->.
        destruct NDEBUG; [by rewrite lookup_delete_eq|].
        split; [done|]. intros _. apply Hout1; [|done].
        intros Hin. by apply (ND2 _ Hin), list_elem_of_singleton.
Qed.
(** * link *)

(** Two chains of which one lies outside the heap the other lives in
    share no node. *)
Lemma outside_disjoint h (c1 c2 : list cell) q a :
  links h c1 q -> outside h c2 -> a ∈ c1.*1 -> a ∉ c2.*1.
Proof.
  intros L O H1 H2. destruct (links_inside _ _ _ _ L H1) as [n E].
  apply list_elem_of_fmap in H2 as (m & -> & Hm). rewrite (O m Hm) in E. done.
Qed.

Lemma links_sub h h' (c : list cell) q :
  (forall a n, a ∈ c.*1 -> h !! a = Some n -> h' !! a = Some n) ->
  links h c q -> links h' c q.
Proof.
  induction c as [|x c IH]; simpl; [done|].
  intros Hs [E L]. split.
  - apply Hs; [apply elem_of_cons; by left|done].
  - apply IH; [|done]. intros a n Ha. apply Hs. apply elem_of_cons. by right.
Qed.

(** [link] up to the point where the local copy is destroyed: the old
    tail sentinel of the receiver has taken the element and the link of
    the copy's first node. *)
Lemma link_before_destroy NDEBUG junk fuel h l list_ hd ns tl hd' ns' tl' :
  is_list h l hd ns tl -> is_list h list_ hd' ns' tl' -> 0 < length ns' ->
  length ns' + 1 < fuel ->
  exists nl h3 hd2 m1 ms tl2,
    link NDEBUG junk fuel l list_ h
    = (forward_list_destroy NDEBUG fuel nl ;;;
       ret (mkList (head l) (tail nl) (size_t_wrap (size_ l + size_ list_)))) h3 /\
    is_list h3 nl hd2 (m1 :: ms) tl2 /\
    outside h (hd2 :: (m1 :: ms) ++ [tl2]) /\
    elems (m1 :: ms) = elems ns' /\
    h3 !! tl.1 = Some (mkNode m1.2 (first_ptr ms (Some tl2.1))) /\
    (forall a n, a <> tl.1 -> h !! a = Some n -> h3 !! a = Some n).
Proof.
  intros Il Io Hlen Hf.
  destruct (forward_list_copy_is_list NDEBUG junk fuel h list_ hd' ns' tl' Io Hf)
    as (nl & h1 & hd2 & ms0 & tl2 & E & X & I2 & O & El).
  destruct ms0 as [|m1 ms].
  { apply (f_equal length) in El. rewrite !elems_length in El. simpl in El. lia. }
  destruct (is_list_head _ _ _ _ _ I2) as (Hh2 & Ht2 & Hhd2 & Hne2).
  destruct (is_list_head _ _ _ _ _ Il) as (Hh & Ht & Hhd & Hne).
  pose proof Il as ((L & ND & _) & _).
  pose proof I2 as ((L2 & ND2 & _) & _).
  assert (Htl : h !! tl.1 = Some (mkNode tl.2 None)).
  { pose proof (links_lookup _ _ _ _ _ L (chain_last hd ns tl)) as Et.
    rewrite first_ptr_drop in Et. rewrite Et. do 2 f_equal.
    apply ptr_at_None. rewrite chain_length. lia. }
  assert (Hm1 : h1 !! m1.1 = Some (mkNode m1.2 (first_ptr ms (Some tl2.1)))).
  { destruct L2 as [_ [Em _]]. by rewrite first_ptr_snoc in Em. }
  assert (Htn : forall n, n ∈ hd2 :: (m1 :: ms) ++ [tl2] -> n.1 <> tl.1).
  { intros n Hn Eq. specialize (O n Hn). rewrite Eq in O. congruence. }
  assert (Hhdt : hd2.1 <> tl.1) by (apply Htn, elem_of_cons; by left).
  assert (Hm1t : m1.1 <> tl.1).
  { apply Htn, elem_of_cons. right. apply elem_of_cons. by left. }
  set (h2 := <[tl.1 := mkNode m1.2 None]> h1).
  set (h3 := <[tl.1 := mkNode m1.2 (first_ptr ms (Some tl2.1))]> h2).
  exists nl, h3, hd2, m1, ms, tl2.
  split; [|split; [|split; [done|split; [done|split]]]].
  - unfold link. rewrite (is_list_nonempty _ _ _ _ _ Io Hlen).
    step E. rewrite Hh2, Ht.
    step ((get_succ_Some _ _ _ Hhd2)). simpl.
    step ((get_data_Some _ _ _ Hm1)). simpl.
    step ((set_data_Some _ _ _ m1.2 (X _ _ Htl))). simpl. fold h2.
    assert (Hhd2' : h2 !! hd2.1 = Some (mkNode hd2.2 (Some m1.1)))
      by (unfold h2; by rewrite lookup_insert_ne).
    step ((get_succ_Some _ _ _ Hhd2')). simpl.
    assert (Hm1' : h2 !! m1.1 = Some (mkNode m1.2 (first_ptr ms (Some tl2.1))))
      by (unfold h2; by rewrite lookup_insert_ne).
    step ((get_succ_Some _ _ _ Hm1')). simpl.
    assert (Htl2 : h2 !! tl.1 = Some (mkNode m1.2 None))
      by (unfold h2; by rewrite lookup_insert_eq).
    step ((set_succ_Some _ _ _ (first_ptr ms (Some tl2.1)) Htl2)). simpl. fold h3.
    done.
  - apply (is_list_frame h1); [|done].
    intros a Ha. apply list_elem_of_fmap in Ha as (n & -> & Hn).
    unfold h3, h2. rewrite !lookup_insert_ne by (by apply not_eq_sym, Htn). done.
  - unfold h3. by rewrite lookup_insert_eq.
  - intros a n Ha En. unfold h3, h2. rewrite !lookup_insert_ne by done. by apply X.
Qed.

(** [link] in the checked build: the receiver ends with the elements of
    the argument, in nodes that are new in the heap but for the old tail
    sentinel, which holds the first of them. *)
Lemma link_is_list junk fuel h l list_ hd ns tl hd' ns' tl' :
  is_list h l hd ns tl -> is_list h list_ hd' ns' tl' ->
  (Z.of_nat (length ns + length ns') < 2 ^ 64)%Z ->
  length ns' + 2 <= fuel ->
  exists l' h' ms tl1,
    link false junk fuel l list_ h = Done l' h' /\
    is_list h' l' hd (ns ++ ms) tl1 /\
    elems ms = elems ns' /\
    (forall n, n ∈ ms -> n.1 = tl.1 \/ h !! n.1 = None).
Proof.
  intros Il Io Hfit Hf.
  destruct (decide (ns' = [])) as [->|Hne'].
  { unfold link. rewrite (is_list_empty _ _ _ _ Io). exists l, h, [], tl.
    rewrite app_nil_r. split; [done|]. split; [done|]. split; [done|].
    by intros n Hn%elem_of_nil. }
  assert (Hlen : 0 < length ns') by (destruct ns'; [done|simpl; lia]).
  destruct (link_before_destroy false junk fuel h l list_ hd ns tl hd' ns' tl'
              Il Io Hlen ltac:(lia))
    as (nl & h3 & hd2 & m1 & ms & tl2 & E & I2 & O & El & Htl3 & X3).
  assert (Hms : length (m1 :: ms) = length ns').
  { apply (f_equal length) in El. by rewrite !elems_length in El. }
  destruct (forward_list_destroy_is_list false fuel h3 nl hd2 (m1 :: ms) tl2 I2
              ltac:(lia)) as (h4 & E4 & Hout & Hin).
  destruct (is_list_head _ _ _ _ _ I2) as (Hh2 & Ht2 & _ & _).
  destruct (is_list_head _ _ _ _ _ Il) as (Hh & Ht & Hhd & Hne).
  pose proof Il as ((L & ND & _) & Hsz & _).
  pose proof Io as (_ & Hsz' & _).
  pose proof I2 as ((L2 & ND2 & _) & _).
  exists (mkList (head l) (tail nl) (size_t_wrap (size_ l + size_ list_))), h4,
    ((tl.1, m1.2) :: ms), tl2.
  assert (D12 : forall a, a ∈ (hd :: ns ++ [tl]).*1 ->
                          a ∉ (hd2 :: (m1 :: ms) ++ [tl2]).*1)
    by (intros a; by apply (outside_disjoint h _ _ None)).
  assert (H4 : forall a, a ∈ (hd :: ns ++ [tl]).*1 -> h4 !! a = h3 !! a)
    by (intros a Ha; by apply Hout, D12).
  split; [|split; [|split]].
  - rewrite E. by step E4.
  - split; [split; [|split; [|split; [|split]]]|split].
    + replace (hd :: (ns ++ (tl.1, m1.2) :: ms) ++ [tl2])
        with ((hd :: ns) ++ (tl.1, m1.2) :: (ms ++ [tl2]))
        by (simpl; by rewrite <- app_assoc).
      apply links_app. split; [|split].
      * simpl first_ptr. rewrite app_comm_cons in L. apply links_app in L as [L _].
        simpl in L.
        apply (links_frame h3).
        -- intros a Ha. apply H4. rewrite app_comm_cons, fmap_app.
           apply elem_of_app. by left.
        -- apply (links_sub h); [|exact L].
           intros a n Ha En. apply X3; [|done].
           intros ->. rewrite app_comm_cons, fmap_app in ND.
           apply NoDup_app in ND as (_ & ND & _). apply (ND _ Ha).
           simpl. apply elem_of_cons. by left.
      * cbn [fst snd]. rewrite H4, Htl3.
        -- by rewrite first_ptr_snoc.
        -- rewrite fmap_cons, fmap_app. apply elem_of_cons. right.
           apply elem_of_app. right. simpl. apply elem_of_cons. by left.
      * destruct L2 as [_ [_ L2]].
        apply (links_frame h3); [|exact L2].
        intros a Ha.
        assert (Ha2 : a ∈ (hd2 :: (m1 :: ms) ++ [tl2]).*1).
        { rewrite !fmap_cons. apply elem_of_cons. right. apply elem_of_cons. by right. }
        destruct (Hin a Ha2) as [_ Hk]. apply Hk.
        intros ->. rewrite !fmap_cons in ND2. apply NoDup_cons in ND2 as [ND2 _].
        apply ND2. apply elem_of_cons. by right.
    + assert (P : (hd :: (ns ++ (tl.1, m1.2) :: ms) ++ [tl2]).*1
                  = (hd :: ns ++ [tl]).*1 ++ (ms ++ [tl2]).*1).
      { rewrite ?fmap_cons, ?fmap_app, ?fmap_cons. simpl.
        by rewrite <- !app_assoc. }
      rewrite P. apply NoDup_app. split; [done|]. split.
      * intros a Ha Ha2. apply (D12 a Ha). rewrite !fmap_cons.
        apply elem_of_cons. right. apply elem_of_cons. by right.
      * rewrite !fmap_cons in ND2. apply NoDup_cons in ND2 as [_ ND2].
        by apply NoDup_cons in ND2 as [_ ND2].
    + done.
    + simpl tail. by rewrite chain_tail_ptr.
    + rewrite chain_length. lia.
    + simpl size_. rewrite Hsz, Hsz', size_t_wrap_small by lia.
      rewrite length_app. simpl in *. lia.
    + rewrite length_app. simpl in *. lia.
  - done.
  - intros n Hn. apply elem_of_cons in Hn as [->|Hn]; [by left|right].
    apply O. apply elem_of_cons. right. apply elem_of_cons. right.
    apply elem_of_app. by left.
Qed.

(** [link] in the fast build: the destructor of the local copy frees the
    nodes that were just linked in, the new tail sentinel among them. *)
Lemma link_frees_tail junk fuel h l list_ hd ns tl hd' ns' tl' :
  is_list h l hd ns tl -> is_list h list_ hd' ns' tl' -> 0 < length ns' ->
  length ns' + 2 <= fuel ->
  exists l' h' t,
    link true junk fuel l list_ h = Done l' h' /\
    tail l' = Some t /\ h' !! t = None.
Proof.
  intros Il Io Hlen Hf.
  destruct (link_before_destroy true junk fuel h l list_ hd ns tl hd' ns' tl'
              Il Io Hlen ltac:(lia))
    as (nl & h3 & hd2 & m1 & ms & tl2 & E & I2 & O & El & Htl3 & X3).
  assert (Hms : length (m1 :: ms) = length ns').
  { apply (f_equal length) in El. by rewrite !elems_length in El. }
  destruct (forward_list_destroy_is_list true fuel h3 nl hd2 (m1 :: ms) tl2 I2
              ltac:(lia)) as (h4 & E4 & Hout & Hin).
  destruct (is_list_head _ _ _ _ _ I2) as (Hh2 & Ht2 & _ & _).
  exists (mkList (head l) (tail nl) (size_t_wrap (size_ l + size_ list_))), h4, tl2.1.
  split; [|split; [done|]].
  - rewrite E. by step E4.
  - apply Hin. rewrite fmap_cons, fmap_app. apply elem_of_cons. right.
    apply elem_of_app. right. simpl. apply elem_of_cons. by left.
Qed.
(** * unique where only the last two elements may be equal *)

Lemma no_equal_neighbours_lookup xs k x y :
  no_equal_neighbours xs = true -> xs !! k = Some x -> xs !! S k = Some y -> x <> y.
Proof.
  revert k. induction xs as [|a xs IH]; intros k H Ex Ey; [done|].
  destruct xs as [|b xs]; [done|].
  cbn [no_equal_neighbours] in H. apply andb_true_iff in H as [Hab H].
  destruct k as [|k]; simpl in Ex, Ey.
  - injection Ex as ->. injection Ey as ->.
    apply negb_true_iff, Z.eqb_neq in Hab. done.
  - by apply (IH k).
Qed.

(** The outer loop finds nothing to remove and stops two nodes before
    the tail sentinel. *)
Lemma unique_loop_chain NDEBUG h l c fuel :
  chain_of h l c -> 4 <= length c ->
  (forall k x y, 1 <= k -> S k < length c - 2 ->
                 c !! k = Some x -> c !! S k = Some y -> x.2 <> y.2) ->
  forall m, 1 <= m <= length c - 3 -> length c - m <= fuel ->
    unique_loop NDEBUG fuel l (ptr_at c m) h = Done (l, ptr_at c (length c - 3)) h.
Proof.
  intros [L C] Hlen4 Hdiff. pose proof C as (ND & Hh & Ht & Hlen).
  induction fuel as [|fuel IH]; intros m Hm Hf; [lia|].
  cbn [unique_loop].
  assert (A1 : m < length c - 1) by lia.
  pose proof (op_plus_chain NDEBUG l c C h m 1 L A1 ltac:(lia)) as P1.
  pose proof (op_plus_chain NDEBUG l c C h m 2 L A1 ltac:(lia)) as P2.
  assert (T : unique_test NDEBUG l (ptr_at c m) h
              = Done (negb (bool_decide (m = length c - 3))) h).
  { unfold unique_test.
    rewrite (cend_at l c C), ptr_eqb_at by (done || lia).
    rewrite bool_decide_eq_false_2 by lia. cbn [negb].
    step P1. rewrite ptr_eqb_at by (done || lia).
    rewrite bool_decide_eq_false_2 by lia. cbn [negb].
    step P2. rewrite ptr_eqb_at by (done || lia). unfold ret. do 2 f_equal.
    apply bool_decide_ext. lia. }
  step T.
  destruct (decide (m = length c - 3)) as [Heq|Hne].
  - rewrite bool_decide_eq_true_2 by lia. cbn [negb]. by rewrite Heq.
  - rewrite bool_decide_eq_false_2 by lia. cbn [negb].
    destruct (lookup_lt_is_Some_2 c m ltac:(lia)) as [a Ea].
    destruct (lookup_lt_is_Some_2 c (m + 1) ltac:(lia)) as [b Eb].
    assert (Ei : unique_inner NDEBUG (S fuel) l (ptr_at c m) h = Done l h).
    { cbn [unique_inner]. rewrite (cend_at l c C), ptr_eqb_at by (done || lia).
      rewrite bool_decide_eq_false_2 by lia. cbn [negb].
      step ((op_deref_chain NDEBUG l c C h m a L ltac:(lia) Ea)).
      step P1.
      step ((op_deref_chain NDEBUG l c C h (m + 1) b L ltac:(lia) Eb)).
      assert (Hab : a.2 <> b.2).
      { apply (Hdiff m a b); [lia|lia|done|]. by rewrite <- Nat.add_1_r. }
      apply Z.eqb_neq in Hab. by rewrite Hab. }
    step Ei.
    step ((op_incr_chain NDEBUG l c C h m L A1)).
    apply IH; lia.
Qed.

(** [unique] from the point where the checked build has made the list
    ascending: [h0] is the heap before and [h] the heap after that. *)
Lemma unique_from_guard (NDEBUG : bool) fuel h0 h l hd ns0 a b tl :
  (if NDEBUG then ret tt
   else s <- sorted NDEBUG fuel l true ;;
        if negb s then sort fuel l true else ret tt) h0 = Done tt h ->
  is_list h l hd (ns0 ++ [a; b]) tl ->
  no_equal_neighbours (elems (ns0 ++ [a])) = true ->
  length ns0 + 4 <= fuel ->
  exists l' h',
    unique NDEBUG fuel l h0 = Done l' h' /\
    is_list h' l' hd (if (a.2 =? b.2)%Z then ns0 ++ [a] else ns0 ++ [a; b]) tl.
Proof.
  intros G I Hnn Hf. pose proof I as ((L & C) & Hsz & Hb).
  pose proof C as (ND & Hh & Ht & Hlen).
  set (ns := ns0 ++ [a; b]) in *.
  set (c := hd :: ns ++ [tl]) in *.
  assert (Hns : length ns = length ns0 + 2) by (unfold ns; rewrite length_app; simpl; lia).
  assert (Hc : length c = length ns0 + 4) by (unfold c; rewrite chain_length; lia).
  assert (Ea : c !! (length c - 3) = Some a).
  { rewrite Hc. replace (length ns0 + 4 - 3) with (S (length ns0)) by lia.
    unfold c, ns. rewrite <- app_assoc. simpl. by apply list_lookup_middle. }
  assert (Eb : c !! (length c - 3 + 1) = Some b).
  { rewrite Hc.
    replace (length ns0 + 4 - 3 + 1) with (S (length ns0 + 1)) by lia.
    unfold c, ns. rewrite <- app_assoc. simpl.
    rewrite lookup_app_r by lia.
    by replace (length ns0 + 1 - length ns0) with 1 by lia. }
  assert (Hdiff : forall k x y, 1 <= k -> S k < length c - 2 ->
                    c !! k = Some x -> c !! S k = Some y -> x.2 <> y.2).
  { intros k x y Hk1 Hk2 Ex Ey.
    destruct k as [|k]; [lia|]. unfold c in Ex, Ey. simpl in Ex, Ey.
    assert (Hx : elems (ns0 ++ [a]) !! k = Some x.2).
    { unfold elems. rewrite list_lookup_fmap.
      unfold ns in Ex. rewrite lookup_app_l in Ex by (rewrite length_app; simpl; lia).
      replace (ns0 ++ [a; b]) with ((ns0 ++ [a]) ++ [b]) in Ex
        by (by rewrite <- app_assoc).
      rewrite lookup_app_l in Ex by (rewrite length_app; simpl; lia).
      by rewrite Ex. }
    assert (Hy : elems (ns0 ++ [a]) !! S k = Some y.2).
    { unfold elems. rewrite list_lookup_fmap.
      unfold ns in Ey. rewrite lookup_app_l in Ey by (rewrite length_app; simpl; lia).
      replace (ns0 ++ [a; b]) with ((ns0 ++ [a]) ++ [b]) in Ey
        by (by rewrite <- app_assoc).
      rewrite lookup_app_l in Ey by (rewrite length_app; simpl; lia).
      by rewrite Ey. }
    by apply (no_equal_neighbours_lookup (elems (ns0 ++ [a])) k). }
  assert (P1 : op_plus NDEBUG l (ptr_at c (length c - 3)) 1 h
               = Done (ptr_at c (length c - 3 + 1)) h)
    by (apply (op_plus_chain NDEBUG l c C h _ 1 L); lia).
  unfold unique. rewrite Hsz.
  assert ((Z.of_nat (length ns) <? 2)%Z = false) as -> by (apply Z.ltb_ge; lia).
  step G.
  step ((begin_chain l c C h L)).
  assert (B1 : 4 <= length c) by lia.
  assert (B2 : 1 <= 1 <= length c - 3) by lia.
  assert (B3 : length c - 1 <= fuel) by lia.
  step ((unique_loop_chain NDEBUG h l c fuel (conj L C) B1 Hdiff 1 B2 B3)).
  assert (B4 : 0 < length c - 3 < length c - 1) by lia.
  assert (B5 : 0 < length c - 3 + 1 < length c - 1) by lia.
  step ((op_deref_chain NDEBUG l c C h _ a L B4 Ea)).
  step P1.
  step ((op_deref_chain NDEBUG l c C h _ b L B5 Eb)).
  destruct (a.2 =? b.2)%Z.
  - replace ns with ((ns0 ++ [a]) ++ [b]) in I
      by (unfold ns; by rewrite <- app_assoc).
    apply (pop_back_is_list NDEBUG fuel h l hd (ns0 ++ [a]) b tl I).
    rewrite length_app. simpl. lia.
  - by exists l, h.
Qed.

Lemma unique_is_list NDEBUG fuel h l hd ns0 a b tl :
  is_list h l hd (ns0 ++ [a; b]) tl ->
  no_equal_neighbours (elems (ns0 ++ [a])) = true ->
  (NDEBUG = false -> is_sorted true (elems (ns0 ++ [a; b])) = true) ->
  length ns0 + 4 <= fuel ->
  exists l' h',
    unique NDEBUG fuel l h = Done l' h' /\
    is_list h' l' hd (if (a.2 =? b.2)%Z then ns0 ++ [a] else ns0 ++ [a; b]) tl.
Proof.
  intros I Hnn Hs Hf.
  apply (unique_from_guard NDEBUG fuel h h l hd ns0 a b tl); try done.
  destruct NDEBUG; [done|].
  assert (Hl : length (ns0 ++ [a; b]) < fuel) by (rewrite length_app; simpl; lia).
  step ((sorted_decides false fuel h l hd _ tl true I Hl)).
  by rewrite (Hs eq_refl).
Qed.
(** * erase_after on a cursor that is not an element of the list *)

Lemma erase_after1_loop_not_found NDEBUG h l c iter1 iter2 fuel :
  chain_of h l c -> (forall j, 0 < j < length c - 1 -> ptr_at c j <> iter1) ->
  forall m, m < length c - 1 -> length c - 1 - m <= fuel ->
    erase_after1_loop NDEBUG fuel l iter1 iter2 (ptr_at c m) h = Done l h.
Proof.
  intros [L C] Hit. pose proof C as (ND & Hh & Ht & Hlen).
  induction fuel as [|fuel IH]; intros m Hm Hf; [lia|].
  cbn [erase_after1_loop].
  pose proof (op_plus_chain NDEBUG l c C h m 1 L Hm ltac:(lia)) as P1.
  step P1.
  rewrite (cend_at l c C), ptr_eqb_at by (done || lia).
  destruct (decide (m + 1 = length c - 1)) as [Heq|Hne].
  - by rewrite bool_decide_eq_true_2.
  - rewrite bool_decide_eq_false_2 by done. cbn [negb].
    step P1.
    assert (ptr_eqb (ptr_at c (m + 1)) iter1 = false) as ->
        by (apply ptr_eqb_false, Hit; lia).
    cbn [negb].
    step ((op_incr_chain NDEBUG l c C h m L Hm)).
    apply IH; lia.
Qed.

Lemma erase_after2_loop_not_found NDEBUG h l c iter1 iter2 fuel :
  chain_of h l c -> (forall j, 0 < j < length c - 1 -> ptr_at c j <> iter1) ->
  forall m, m < length c - 1 -> length c - 1 - m <= fuel ->
    erase_after2_loop NDEBUG fuel l iter1 iter2 (ptr_at c m) h = Done l h.
Proof.
  intros [L C] Hit. pose proof C as (ND & Hh & Ht & Hlen).
  induction fuel as [|fuel IH]; intros m Hm Hf; [lia|].
  cbn [erase_after2_loop].
  pose proof (op_plus_chain NDEBUG l c C h m 1 L Hm ltac:(lia)) as P1.
  step P1.
  rewrite (cend_at l c C), ptr_eqb_at by (done || lia).
  destruct (decide (m + 1 = length c - 1)) as [Heq|Hne].
  - by rewrite bool_decide_eq_true_2.
  - rewrite bool_decide_eq_false_2 by done. cbn [negb].
    destruct (ptr_at_lt c m ltac:(lia)) as (n & En & Ep).
    rewrite Ep at 1. rewrite is_null_Some. cbn [negb].
    rewrite bind_bind. step P1. rewrite bind_ret.
    assert (ptr_eqb (ptr_at c (m + 1)) iter1 = false) as ->
        by (apply ptr_eqb_false, Hit; lia).
    cbn [negb].
    step ((op_incr_chain NDEBUG l c C h m L Hm)).
    apply IH; lia.
Qed.

(** * The mutable back *)

Lemma back_cursor NDEBUG fuel h l hd ns tl :
  is_list h l hd ns tl -> length ns < fuel ->
  back NDEBUG fuel l h = Done (ptr_at (hd :: ns) (length ns)) h.
Proof.
  intros (C & _) Hf.
  set (c := hd :: ns ++ [tl]) in *.
  assert (Hc : length c = length ns + 2) by apply chain_length.
  unfold back, before_begin. rewrite (head_at l c (proj2 C)).
  assert (A1 : 0 <= length c - 2) by lia.
  assert (A2 : length c - 2 - 0 < fuel) by lia.
  rewrite (back_loop_chain NDEBUG h l c fuel C 0 A1 A2).
  rewrite Hc. replace (length ns + 2 - 2) with (length ns) by lia.
  f_equal. unfold c. rewrite app_comm_cons. apply ptr_at_app_l. simpl. lia.
Qed.

(** * The list built from an array *)

Lemma push_back_all_is_list junk arr :
  forall h l hd ns tl,
    is_list h l hd ns tl -> (Z.of_nat (length ns + length arr) < 2 ^ 64)%Z ->
    exists l' h' ns' tl',
      push_back_all junk l arr h = Done l' h' /\
      is_list h' l' hd (ns ++ ns') tl' /\ elems ns' = arr /\
      extends (delete tl.1 h) h'.
Proof.
  induction arr as [|x arr IH]; intros h l hd ns tl I Hfit.
  - exists l, h, [], tl. rewrite app_nil_r. split; [done|]. split; [done|].
    split; [done|]. intros a n E. apply lookup_delete_Some in E. apply E.
  - simpl in Hfit.
    destruct (push_back_is_list junk h l hd ns tl x I ltac:(lia))
      as (l1 & h1 & b & E1 & I1 & Hb & Hother).
    destruct (IH h1 l1 hd (ns ++ [(tl.1, x)]) (b, junk) I1)
      as (l' & h' & ns' & tl' & E & I' & El & X).
    { rewrite length_app. simpl. lia. }
    exists l', h', ((tl.1, x) :: ns'), tl'. split; [|split; [|split]].
    + simpl. by step E1.
    + by rewrite <- app_assoc in I'.
    + unfold elems in *. by rewrite fmap_cons, El.
    + intros a n Ea. apply lookup_delete_Some in Ea as [Hat Ea].
      apply X. simpl. apply lookup_delete_Some.
      assert (Hab : a <> b) by (intros ->; congruence).
      split; [done|]. by rewrite Hother.
Qed.

Lemma forward_list_of_array_is_list junk h arr :
  (Z.of_nat (length arr) < 2 ^ 64)%Z ->
  exists l h' hd ns tl,
    forward_list_of_array junk arr h = Done l h' /\
    is_list h' l hd ns tl /\ elems ns = arr /\ extends h h'.
Proof.
  intros Hfit.
  destruct (forward_list_new_is_list junk h)
    as (l0 & h0 & hd0 & tl0 & E0 & I0 & Hhd & Htl & Hother).
  destruct (push_back_all_is_list junk arr h0 l0 hd0 [] tl0 I0)
    as (l' & h' & ns' & tl' & E & I' & El & X); [simpl; lia|].
  exists l', h', hd0, ns', tl'. split; [|split; [done|split; [done|]]].
  - unfold forward_list_of_array. by step E0.
  - intros a n Ea. apply X. apply lookup_delete_Some.
    assert (Hat : tl0.1 <> a) by (intros <-; congruence).
    assert (Hah : a <> hd0.1) by (intros ->; congruence).
    split; [done|]. rewrite Hother; done.
Qed.
(** * The merge of _inplace_merge on sequences *)

Lemma inplace_merge_cells_nil_l asc ms : inplace_merge_cells asc [] ms = ms.
Proof. by destruct ms. Qed.

Lemma inplace_merge_cells_nil_r asc ns : inplace_merge_cells asc ns [] = ns.
Proof. by destruct ns. Qed.

Lemma inplace_merge_cells_cons asc (n : cell) ns (m : cell) ms :
  inplace_merge_cells asc (n :: ns) (m :: ms)
  = if xorb (n.2 <? m.2)%Z (negb asc)
    then n :: inplace_merge_cells asc ns (m :: ms)
    else m :: inplace_merge_cells asc (n :: ns) ms.
Proof. done. Qed.

Lemma inplace_merge_cells_perm asc ns ms :
  inplace_merge_cells asc ns ms ≡ₚ ns ++ ms.
Proof.
  revert ms. induction ns as [|n ns IHn]; intros ms.
  - by rewrite inplace_merge_cells_nil_l.
  - induction ms as [|m ms IHm].
    + by rewrite inplace_merge_cells_nil_r, app_nil_r.
    + rewrite inplace_merge_cells_cons. destruct (xorb _ _).
      * by rewrite IHn.
      * rewrite IHm. by rewrite <- Permutation_middle.
Qed.

Lemma in_order_spec asc a b :
  in_order asc a b = true <-> if asc then (a <= b)%Z else (b <= a)%Z.
Proof.
  unfold in_order. destruct (Z.eqb_spec a b), (Z.ltb_spec a b), asc; simpl; lia.
Qed.

Lemma in_order_trans asc a b c :
  in_order asc a b = true -> in_order asc b c = true -> in_order asc a c = true.
Proof. rewrite !in_order_spec. destruct asc; lia. Qed.

Lemma before_inplace_merge asc a ns ms :
  before asc a (elems ns) = true -> before asc a (elems ms) = true ->
  before asc a (elems (inplace_merge_cells asc ns ms)) = true.
Proof.
  destruct ns as [|n ns], ms as [|m ms]; try done.
  rewrite inplace_merge_cells_cons. by destruct (xorb _ _).
Qed.

Lemma inplace_merge_cells_sorted asc ns ms :
  is_sorted asc (elems ns) = true -> is_sorted asc (elems ms) = true ->
  is_sorted asc (elems (inplace_merge_cells asc ns ms)) = true.
Proof.
  revert ms. induction ns as [|n ns IHn]; intros ms Hn Hm.
  - by rewrite inplace_merge_cells_nil_l.
  - induction ms as [|m ms IHm].
    + by rewrite inplace_merge_cells_nil_r.
    + rewrite inplace_merge_cells_cons.
      unfold elems in *. rewrite fmap_cons in Hn, Hm.
      rewrite is_sorted_cons in Hn, Hm.
      apply andb_true_iff in Hn as [Bn Sn]. apply andb_true_iff in Hm as [Bm Sm].
      destruct (xorb (n.2 <? m.2)%Z (negb asc)) eqn:X.
      * rewrite fmap_cons, is_sorted_cons. apply andb_true_iff. split.
        -- apply before_inplace_merge; [done|]. unfold elems. rewrite fmap_cons.
           simpl. apply in_order_spec.
           destruct asc, (Z.ltb_spec n.2 m.2); simpl in X; (done || lia).
        -- apply IHn; [done|]. rewrite fmap_cons, is_sorted_cons.
           apply andb_true_iff. by split.
      * rewrite fmap_cons, is_sorted_cons. apply andb_true_iff. split.
        -- apply before_inplace_merge; [|done]. unfold elems. rewrite fmap_cons.
           simpl. apply in_order_spec.
           destruct asc, (Z.ltb_spec n.2 m.2); simpl in X; (done || lia).
        -- apply IHm. done.
Qed.

Lemma last_cons_ne {A} (x : A) l : l <> [] -> last (x :: l) = last l.
Proof. destruct l; [done|]. by rewrite last_cons_cons. Qed.

Lemma inplace_merge_cells_ne asc ns ms :
  ns <> [] -> inplace_merge_cells asc ns ms <> [].
Proof.
  intros Hn E. pose proof (inplace_merge_cells_perm asc ns ms) as P.
  rewrite E in P. apply Permutation_nil_l in P. by destruct ns.
Qed.

(** The last node of the merge is the last node of one of the ranges. *)
Lemma inplace_merge_cells_last asc ns ms :
  ns <> [] -> ms <> [] ->
  last (inplace_merge_cells asc ns ms) = last ns \/
  last (inplace_merge_cells asc ns ms) = last ms.
Proof.
  revert ms. induction ns as [|n ns IHn]; intros ms Hn Hm; [done|].
  induction ms as [|m ms IHm]; [done|].
  rewrite inplace_merge_cells_cons. destruct (xorb _ _).
  - destruct ns as [|n' ns].
    + right. rewrite inplace_merge_cells_nil_l. done.
    + assert (N1 : n' :: ns <> []) by done.
      assert (N2 : m :: ms <> []) by done.
      rewrite (last_cons_ne n) by (by apply inplace_merge_cells_ne).
      rewrite (last_cons_ne n (n' :: ns)) by done.
      by apply IHn.
  - destruct ms as [|m' ms].
    + left. rewrite inplace_merge_cells_nil_r. done.
    + assert (N2 : m' :: ms <> []) by done.
      rewrite (last_cons_ne m) by (by apply inplace_merge_cells_ne).
      rewrite (last_cons_ne m (m' :: ms)) by done.
      by apply IHm.
Qed.

Lemma is_sorted_last asc xs y :
  is_sorted asc xs = true -> last xs = Some y ->
  forall x, x ∈ xs -> in_order asc x y = true.
Proof.
  induction xs as [|a xs IH]; intros Hs Hl x Hx; [by apply elem_of_nil in Hx|].
  rewrite is_sorted_cons in Hs. apply andb_true_iff in Hs as [Ba Hs].
  destruct xs as [|b xs].
  - simpl in Hl. injection Hl as <-. apply list_elem_of_singleton in Hx as ->.
    apply in_order_spec. destruct asc; lia.
  - rewrite last_cons_cons in Hl.
    apply elem_of_cons in Hx as [->|Hx]; [|by apply IH].
    simpl in Ba. apply (in_order_trans asc a b y); [done|].
    apply IH; [done|done|]. apply elem_of_cons. by left.
Qed.

(** With ranges that are sorted and end in different elements, the node
    [_inplace_merge] returns is the last one of the merge. *)
Lemma inplace_merge_cells_returned asc ns ms (mid lst : cell) :
  is_sorted asc (elems ns) = true -> is_sorted asc (elems ms) = true ->
  last ns = Some mid -> last ms = Some lst -> mid.2 <> lst.2 ->
  last (inplace_merge_cells asc ns ms)
  = Some (if xorb (lst.2 <? mid.2)%Z (negb asc) then mid else lst).
Proof.
  intros Sn Sm Ln Lm Hne.
  assert (Hn : ns <> []) by (by intros ->).
  assert (Hm : ms <> []) by (by intros ->).
  pose proof (inplace_merge_cells_sorted asc ns ms Sn Sm) as S.
  pose proof (inplace_merge_cells_perm asc ns ms) as P.
  assert (Hmid : mid ∈ inplace_merge_cells asc ns ms).
  { rewrite P. apply elem_of_app. left. by apply last_Some_elem_of. }
  assert (Hlst : lst ∈ inplace_merge_cells asc ns ms).
  { rewrite P. apply elem_of_app. right. by apply last_Some_elem_of. }
  assert (Hall : forall r, last (inplace_merge_cells asc ns ms) = Some r ->
                   in_order asc mid.2 r.2 = true /\ in_order asc lst.2 r.2 = true).
  { intros r Er.
    assert (Er' : last (elems (inplace_merge_cells asc ns ms)) = Some r.2)
      by (unfold elems; by rewrite fmap_last, Er).
    split; apply (is_sorted_last asc _ r.2 S Er'); unfold elems;
      apply list_elem_of_fmap; by eexists. }
  destruct (inplace_merge_cells_last asc ns ms Hn Hm) as [E|E].
  - rewrite E, Ln. rewrite E, Ln in Hall.
    destruct (Hall mid eq_refl) as [_ H2]. apply in_order_spec in H2.
    f_equal. destruct asc, (Z.ltb_spec lst.2 mid.2); simpl; (done || lia).
  - rewrite E, Lm. rewrite E, Lm in Hall.
    destruct (Hall lst eq_refl) as [H1 _]. apply in_order_spec in H1.
    f_equal. destruct asc, (Z.ltb_spec lst.2 mid.2); simpl; (done || lia).
Qed.
(** * The loops of _inplace_merge *)

Lemma in_range_true h (n bound : cell) q :
  h !! bound.1 = Some (mkNode bound.2 q) -> Some n.1 <> q ->
  in_range (Some n.1) (Some bound.1) h = Done true h.
Proof.
  intros E Hne. unfold in_range. rewrite is_null_Some.
  step ((get_succ_Some _ _ _ E)). simpl.
  apply ptr_eqb_false in Hne. by rewrite Hne.
Qed.

Lemma in_range_false h (bound : cell) q :
  h !! bound.1 = Some (mkNode bound.2 q) ->
  in_range q (Some bound.1) h = Done false h.
Proof.
  intros E. unfold in_range. destruct q as [a|]; [|done].
  rewrite is_null_Some.
  step ((get_succ_Some _ _ _ E)). simpl. by rewrite ptr_eqb_refl.
Qed.

(** A cell of a chain is a node of the heap, with its element. *)
Lemma links_elem h (c : list cell) q n :
  links h c q -> n ∈ c -> exists s, h !! n.1 = Some (mkNode n.2 s).
Proof.
  intros L Hn. apply list_elem_of_lookup in Hn as (i & Hi).
  rewrite (links_lookup _ _ _ _ _ L Hi). by eexists.
Qed.

Lemma elem_of_fst (c : list cell) n : n ∈ c -> n.1 ∈ c.*1.
Proof. intros H. apply list_elem_of_fmap. by exists n. Qed.

(** The node linked last and the nodes still to come are not among the
    nodes that have their new links. *)
Lemma inplace_inv_fresh h1 h' pre hl free n :
  inplace_inv h1 h' pre hl free -> n = hl \/ n ∈ free -> n.1 ∉ pre.*1.
Proof.
  intros (_ & _ & ND & _) Hn Hin.
  rewrite <- app_assoc, fmap_app in ND. apply NoDup_app in ND as (_ & ND & _).
  apply (ND _ Hin). rewrite fmap_app. destruct Hn as [->|Hn].
  - apply elem_of_app. left. simpl. apply elem_of_cons. by left.
  - apply elem_of_app. right. by apply elem_of_fst.
Qed.

Lemma inplace_inv_lookup h1 h' pre hl free n :
  inplace_inv h1 h' pre hl free -> n = hl \/ n ∈ free -> h' !! n.1 = h1 !! n.1.
Proof.
  intros I Hn. pose proof I as (_ & F & _). apply F.
  by apply (inplace_inv_fresh h1 h' pre hl free).
Qed.

(** The last node of a range keeps the link it had, as long as it is not
    among the nodes that have their new links. *)
Lemma inplace_range_bound h1 h' pre hl free X q bound :
  inplace_inv h1 h' pre hl free -> inplace_range h1 X q bound hl ->
  (forall x, x ∈ X -> x ∈ free) ->
  h' !! bound.1 = Some (mkNode bound.2 q).
Proof.
  intros I (_ & E & _ & Hb) Sub.
  rewrite (inplace_inv_lookup h1 h' pre hl free bound I); [done|].
  destruct Hb as [Hl|[_ ->]]; [right|by left].
  by apply Sub, last_Some_elem_of.
Qed.

Lemma inplace_range_take h1 (n : cell) X q bound hl :
  inplace_range h1 (n :: X) q bound hl ->
  inplace_range h1 X q bound n /\
  h1 !! n.1 = Some (mkNode n.2 (first_ptr X q)) /\ Some n.1 <> q.
Proof.
  intros ([E L] & Eb & Hq & Hl). split; [|split].
  - split; [done|]. split; [done|]. split.
    + intros x Hx. apply Hq. apply elem_of_cons. by right.
    + destruct Hl as [Hl|[? _]]; [|done]. destruct X as [|x X].
      * right. simpl in Hl. by injection Hl as ->.
      * left. by rewrite last_cons_cons in Hl.
  - done.
  - apply Hq. apply elem_of_cons. by left.
Qed.

Lemma inplace_range_keep h1 X q bound hl hl' :
  X <> [] -> inplace_range h1 X q bound hl -> inplace_range h1 X q bound hl'.
Proof.
  intros Hne (L & Eb & Hq & Hl). split; [done|]. split; [done|]. split; [done|].
  destruct Hl as [Hl|[-> _]]; [by left|done].
Qed.

(** One step [h = h->succ = n; n = n->succ], for a node [n] that is
    still to come. *)
Lemma inplace_inv_take h1 h' pre hl F1 (n : cell) F2 s :
  inplace_inv h1 h' pre hl (F1 ++ n :: F2) ->
  h1 !! n.1 = Some (mkNode n.2 s) ->
  set_succ (Some hl.1) (Some n.1) h'
  = Done tt (<[hl.1 := mkNode hl.2 (Some n.1)]> h') /\
  get_succ (Some n.1) (<[hl.1 := mkNode hl.2 (Some n.1)]> h')
  = Done s (<[hl.1 := mkNode hl.2 (Some n.1)]> h') /\
  inplace_inv h1 (<[hl.1 := mkNode hl.2 (Some n.1)]> h') (pre ++ [hl]) n (F1 ++ F2).
Proof.
  intros I En. pose proof I as (L & F & ND & (s0 & Ehl)).
  assert (Hn : n ∈ F1 ++ n :: F2) by (apply elem_of_app; right; apply elem_of_cons; by left).
  assert (Hhl : h' !! hl.1 = Some (mkNode hl.2 s0)).
  { rewrite (inplace_inv_lookup h1 h' pre hl _ hl I); [done|by left]. }
  assert (Hne : hl.1 <> n.1).
  { intros E. rewrite fmap_app in ND. apply NoDup_app in ND as (_ & ND & _).
    apply (ND hl.1).
    - rewrite fmap_app. apply elem_of_app. right. simpl. apply elem_of_cons. by left.
    - rewrite E. by apply elem_of_fst. }
  split; [|split].
  - by rewrite (set_succ_Some _ _ _ (Some n.1) Hhl).
  - assert (E' : <[hl.1 := mkNode hl.2 (Some n.1)]> h' !! n.1 = Some (mkNode n.2 s)).
    { rewrite lookup_insert_ne by done.
      rewrite (inplace_inv_lookup h1 h' pre hl _ n I); [done|by right]. }
    by rewrite (get_succ_Some _ _ _ E').
  - split; [|split; [|split]].
    + apply links_app. split.
      * simpl. apply links_insert; [|done].
        apply (inplace_inv_fresh h1 h' pre hl _ hl I). by left.
      * simpl. split; [|done]. by rewrite lookup_insert_eq.
    + intros a Ha. rewrite fmap_app in Ha. apply not_elem_of_app in Ha as [Ha1 Ha2].
      rewrite lookup_insert_ne; [by apply F|].
      intros <-. apply Ha2. simpl. apply elem_of_cons. by left.
    + assert (P : (((pre ++ [hl]) ++ [n]) ++ F1 ++ F2).*1
                  ≡ₚ ((pre ++ [hl]) ++ F1 ++ n :: F2).*1).
      { apply fmap_Permutation. rewrite <- !app_assoc.
        do 2 apply Permutation_app_head. simpl.
        by rewrite Permutation_middle. }
      by rewrite P.
    + by eexists.
Qed.

(** The second and the third loop, on a range of which [X] is left. *)
Lemma _inplace_merge_rest_inv h1 (bound : cell) q fuel :
  forall X pre hl F1 F2 h',
    inplace_inv h1 h' pre hl (F1 ++ X ++ F2) -> inplace_range h1 X q bound hl ->
    length X < fuel ->
    exists pre' h'',
      _inplace_merge_rest fuel (Some bound.1) (first_ptr X q) (Some hl.1) h'
      = Done (q, Some bound.1) h'' /\
      inplace_inv h1 h'' pre' bound (F1 ++ F2) /\
      pre' ++ [bound] = pre ++ hl :: X.
Proof.
  induction fuel as [|fuel IH]; intros X pre hl F1 F2 h' I R Hf; [lia|].
  cbn [_inplace_merge_rest].
  assert (Sub : forall x, x ∈ X -> x ∈ F1 ++ X ++ F2).
  { intros x Hx. apply elem_of_app. right. apply elem_of_app. by left. }
  pose proof (inplace_range_bound h1 h' pre hl _ X q bound I R Sub) as Eb.
  destruct X as [|n X].
  - destruct R as (_ & _ & _ & [Hl|[_ ->]]); [done|].
    step ((in_range_false h' bound q Eb)).
    exists pre, h'. done.
  - destruct (inplace_range_take h1 n X q bound hl R) as (R' & En & Hnq).
    step ((in_range_true h' n bound q Eb Hnq)).
    destruct (inplace_inv_take h1 h' pre hl F1 n (X ++ F2) _ I En) as (E1 & E2 & I').
    step E1. step E2.
    assert (Hf1 : length X < fuel) by (simpl in *; lia).
    destruct (IH X (pre ++ [hl]) n F1 F2 _ I' R' Hf1)
      as (pre' & h'' & E & I'' & Hp).
    exists pre', h''. split; [done|]. split; [done|].
    by rewrite Hp, <- app_assoc.
Qed.

(** The first loop. *)
Lemma _inplace_merge_both_inv h1 asc (mid lst : cell) sB pe rest fuel :
  forall A B pre hl h',
    inplace_inv h1 h' pre hl (A ++ B ++ rest) ->
    inplace_range h1 A sB mid hl -> inplace_range h1 B pe lst hl ->
    length A + length B < fuel ->
    exists taken pre' hl' A' B' h'',
      _inplace_merge_both fuel (Some mid.1) (Some lst.1) asc
        (first_ptr A sB) (first_ptr B pe) (Some hl.1) h'
      = Done (first_ptr A' sB, first_ptr B' pe, Some hl'.1) h'' /\
      inplace_inv h1 h'' pre' hl' (A' ++ B' ++ rest) /\
      inplace_range h1 A' sB mid hl' /\ inplace_range h1 B' pe lst hl' /\
      (A' = [] \/ B' = []) /\
      pre' ++ [hl'] = pre ++ hl :: taken /\
      inplace_merge_cells asc A B = taken ++ inplace_merge_cells asc A' B'.
Proof.
  induction fuel as [|fuel IH]; intros A B pre hl h' I RA RB Hf; [lia|].
  cbn [_inplace_merge_both].
  assert (SubA : forall x, x ∈ A -> x ∈ A ++ B ++ rest).
  { intros x Hx. apply elem_of_app. by left. }
  assert (SubB : forall x, x ∈ B -> x ∈ A ++ B ++ rest).
  { intros x Hx. apply elem_of_app. right. apply elem_of_app. by left. }
  pose proof (inplace_range_bound h1 h' pre hl _ A sB mid I RA SubA) as Em.
  pose proof (inplace_range_bound h1 h' pre hl _ B pe lst I RB SubB) as El.
  destruct A as [|n A].
  { pose proof RA as (_ & _ & _ & [Hl|[_ Hhl]]); [done|].
    step ((in_range_false h' mid sB Em)). rewrite bind_ret.
    exists [], pre, hl, [], B, h'.
    split; [done|]. split; [done|]. split; [done|]. split; [done|].
    split; [by left|]. done. }
  destruct (inplace_range_take h1 n A sB mid hl RA) as (RA' & En & Hnq).
  step ((in_range_true h' n mid sB Em Hnq)).
  destruct B as [|m B].
  { pose proof RB as (_ & _ & _ & [Hl|[_ Hhl]]); [done|].
    step ((in_range_false h' lst pe El)).
    exists [], pre, hl, (n :: A), [], h'.
    split; [done|]. split; [done|]. split; [done|]. split; [done|].
    split; [by right|]. done. }
  destruct (inplace_range_take h1 m B pe lst hl RB) as (RB' & Emm & Hmq).
  step ((in_range_true h' m lst pe El Hmq)).
  assert (Dn : get_data (Some n.1) h' = Done n.2 h').
  { assert (E : h' !! n.1 = Some (mkNode n.2 (first_ptr A sB))).
    { rewrite (inplace_inv_lookup h1 h' pre hl _ n I); [done|right].
      apply elem_of_cons. by left. }
    by rewrite (get_data_Some _ _ _ E). }
  assert (Dm : get_data (Some m.1) h' = Done m.2 h').
  { assert (E : h' !! m.1 = Some (mkNode m.2 (first_ptr B pe))).
    { rewrite (inplace_inv_lookup h1 h' pre hl _ m I); [done|right].
      apply SubB. apply elem_of_cons. by left. }
    by rewrite (get_data_Some _ _ _ E). }
  cbn [first_ptr]. step Dn. step Dm.
  rewrite inplace_merge_cells_cons.
  destruct (xorb (n.2 <? m.2)%Z (negb asc)).
  - destruct (inplace_inv_take h1 h' pre hl [] n (A ++ (m :: B) ++ rest) _ I En)
      as (E1 & E2 & I').
    step E1. step E2.
    assert (RB1 : inplace_range h1 (m :: B) pe lst n)
      by (by apply (inplace_range_keep h1 _ pe lst hl)).
    assert (Hf1 : length A + length (m :: B) < fuel) by (simpl in *; lia).
    destruct (IH A (m :: B) (pre ++ [hl]) n _ I' RA' RB1 Hf1)
      as (taken & pre' & hl' & A' & B' & h'' & E & I'' & RA'' & RB'' & Hor & Hp & Hm).
    exists (n :: taken), pre', hl', A', B', h''.
    split; [done|]. split; [done|]. split; [done|]. split; [done|].
    split; [done|]. split; [by rewrite Hp, <- app_assoc|]. by rewrite Hm.
  - assert (I0 : inplace_inv h1 h' pre hl ((n :: A) ++ m :: B ++ rest)) by exact I.
    destruct (inplace_inv_take h1 h' pre hl (n :: A) m (B ++ rest) _ I0 Emm)
      as (E1 & E2 & I').
    step E1. step E2.
    assert (RA1 : inplace_range h1 (n :: A) sB mid m)
      by (by apply (inplace_range_keep h1 _ sB mid hl)).
    assert (Hf1 : length (n :: A) + length B < fuel) by (simpl in *; lia).
    destruct (IH (n :: A) B (pre ++ [hl]) m _ I' RA1 RB' Hf1)
      as (taken & pre' & hl' & A' & B' & h'' & E & I'' & RA'' & RB'' & Hor & Hp & Hm).
    exists (m :: taken), pre', hl', A', B', h''.
    split; [done|]. split; [done|]. split; [done|]. split; [done|].
    split; [done|]. split; [by rewrite Hp, <- app_assoc|]. by rewrite Hm.
Qed.

(** The third loop when the second range was used up first: [h] is the
    last node of the first range and [j] the node behind the ranges; the
    loop links the two and then walks to the end of the chain, writing
    to every node the link it has. *)
Lemma _inplace_merge_rest_walk (lst : cell) (i0 : loc) fuel :
  forall c (x : cell) h,
    h !! x.1 = Some (mkNode x.2 (first_ptr c None)) -> links h c None ->
    h !! lst.1 = Some (mkNode lst.2 (Some i0)) -> i0 ∉ c.*1 -> length c < fuel ->
    exists y,
      _inplace_merge_rest fuel (Some lst.1) (first_ptr c None) (Some x.1) h
      = Done (None, Some y) h.
Proof.
  induction fuel as [|fuel IH]; intros c x h Ex L El Hi Hf; [lia|].
  cbn [_inplace_merge_rest]. destruct c as [|n c].
  - exists x.1. done.
  - destruct L as [En L]. cbn [first_ptr].
    assert (Hne : Some n.1 <> Some i0).
    { intros [= E]. apply Hi. rewrite fmap_cons, <- E. apply elem_of_cons. by left. }
    step ((in_range_true h n lst (Some i0) El Hne)).
    assert (Es : set_succ (Some x.1) (Some n.1) h = Done tt h).
    { rewrite (set_succ_Some _ _ _ (Some n.1) Ex). simpl. f_equal.
      by apply insert_id. }
    step Es. step ((get_succ_Some _ _ _ En)). simpl.
    apply (IH c n h En L El); [|simpl in Hf; lia].
    intros Hin. apply Hi. rewrite fmap_cons. apply elem_of_cons. by right.
Qed.
(** * _inplace_merge on two sorted ranges *)

Lemma links_app3 h (c1 : list cell) (x : cell) c2 q :
  links h (c1 ++ x :: c2) q ->
  links h c1 (Some x.1) /\ h !! x.1 = Some (mkNode x.2 (first_ptr c2 q)) /\
  links h c2 q.
Proof. intros L. apply links_app in L as [L1 [E L2]]. done. Qed.

Lemma first_ptr_app (c1 c2 : list cell) q :
  first_ptr (c1 ++ c2) q = first_ptr c1 (first_ptr c2 q).
Proof. by destruct c1. Qed.

Lemma first_ptr_ne (c : list cell) q :
  c <> [] -> exists n, n ∈ c /\ first_ptr c q = Some n.1.
Proof.
  destruct c as [|n c]; [done|]. intros _. exists n. split; [|done].
  apply elem_of_cons. by left.
Qed.

(** The ranges [(first_, mid_]] and [(mid_, last_]] hold the sorted
    sequences [A] and [B], whose last elements differ, and the chain goes
    on behind them: the loops leave the merge of both between [first_]
    and the rest of the chain, and the node returned is its last one. *)
Lemma _inplace_merge_chain asc fuel h (f : cell) A (mid : cell) B (lst : cell) rest :
  last A = Some mid -> last B = Some lst -> rest <> [] ->
  links h (f :: A ++ B ++ rest) None -> NoDup (f :: A ++ B ++ rest).*1 ->
  is_sorted asc (elems A) = true -> is_sorted asc (elems B) = true ->
  mid.2 <> lst.2 ->
  length (A ++ B ++ rest) + 2 <= fuel ->
  exists r h',
    _inplace_merge fuel (Some f.1) (Some mid.1) (Some lst.1) asc h
    = Done (Some r.1) h' /\
    last (inplace_merge_cells asc A B) = Some r /\
    links h' (f :: inplace_merge_cells asc A B ++ rest) None /\
    (forall a, a ∉ (f :: A ++ B).*1 -> h' !! a = h !! a).
Proof.
  intros LA LB Hrest L ND SA SB Hne Hf.
  apply last_Some in LA as [A0 EA]. apply last_Some in LB as [B0 EB].
  assert (HA : A <> []) by (rewrite EA; by destruct A0).
  assert (HB : B <> []) by (rewrite EB; by destruct B0).
  set (pe := first_ptr rest None).
  set (sB := first_ptr B pe).
  destruct L as [Ef L]. rewrite !first_ptr_app in Ef. fold pe sB in Ef.
  assert (LA : links h A sB).
  { apply links_app in L as [L _]. by rewrite first_ptr_app in L. }
  assert (LB : links h B pe).
  { apply links_app in L as [_ L]. by apply links_app in L as [L _]. }
  assert (LR : links h rest None).
  { apply links_app in L as [_ L]. by apply links_app in L as [_ L]. }
  assert (Emid : h !! mid.1 = Some (mkNode mid.2 sB)).
  { rewrite EA in LA. by apply links_app3 in LA as (_ & E & _). }
  assert (Elst : h !! lst.1 = Some (mkNode lst.2 pe)).
  { rewrite EB in LB. by apply links_app3 in LB as (_ & E & _). }
  rewrite fmap_cons in ND. pose proof ND as ND0.
  apply NoDup_cons in ND as [Hf_ ND].
  rewrite !fmap_app in ND.
  apply NoDup_app in ND as (NDA & DA & ND).
  apply NoDup_app in ND as (NDB & DB & NDR).
  assert (HqA : forall x, x ∈ A -> Some x.1 <> sB).
  { intros x Hx E. destruct (first_ptr_ne B pe HB) as (b & Hb & Eb).
    unfold sB in E. rewrite Eb in E. injection E as E.
    apply (DA x.1); [by apply elem_of_fst|].
    rewrite E. apply elem_of_app. left. by apply elem_of_fst. }
  assert (HqB : forall x, x ∈ B -> Some x.1 <> pe).
  { intros x Hx E. destruct (first_ptr_ne rest None Hrest) as (b & Hb & Eb).
    unfold pe in E. rewrite Eb in E. injection E as E.
    apply (DB x.1); [by apply elem_of_fst|]. rewrite E. by apply elem_of_fst. }
  assert (I0 : inplace_inv h h [] f (A ++ B ++ rest)).
  { split; [done|]. split; [done|]. split; [|by eexists].
    simpl. exact ND0. }
  assert (RA : inplace_range h A sB mid f).
  { split; [done|]. split; [done|]. split; [done|]. left.
    rewrite EA. apply last_snoc. }
  assert (RB : inplace_range h B pe lst f).
  { split; [done|]. split; [done|]. split; [done|]. left.
    rewrite EB. apply last_snoc. }
  assert (Hlen : length (A ++ B ++ rest) = length A + length B + length rest)
    by (rewrite !length_app; lia).
  destruct (_inplace_merge_both_inv h asc mid lst sB pe rest fuel A B [] f h I0 RA RB
              ltac:(lia))
    as (taken & pre1 & hl1 & A1 & B1 & h2 & E1 & I1 & RA1 & RB1 & Hor & Hp1 & Hm).
  assert (Hl1 : length taken + length A1 + length B1 = length A + length B).
  { apply (f_equal length) in Hm. rewrite length_app in Hm.
    rewrite !(Permutation_length (inplace_merge_cells_perm _ _ _)) in Hm.
    rewrite !length_app in Hm. lia. }
  assert (I1' : inplace_inv h h2 pre1 hl1 ([] ++ A1 ++ B1 ++ rest)) by exact I1.
  destruct (_inplace_merge_rest_inv h mid sB fuel A1 pre1 hl1 [] (B1 ++ rest) h2
              I1' RA1 ltac:(lia))
    as (pre2 & h3 & E2 & I2 & Hp2).
  simpl app in I2.
  assert (G0 : _inplace_merge fuel (Some f.1) (Some mid.1) (Some lst.1) asc h
               = (r2 <- _inplace_merge_rest fuel (Some lst.1) (first_ptr B1 pe)
                          (Some mid.1) ;;
                  dl <- get_data (Some lst.1) ;;
                  dm <- get_data (Some mid.1) ;;
                  ret (if xorb (dl <? dm)%Z (negb asc) then Some mid.1
                       else Some lst.1)) h3).
  { unfold _inplace_merge.
    step ((get_succ_Some _ _ _ Ef)). cbn [succ].
    step ((get_succ_Some _ _ _ Emid)). cbn [succ].
    step ((get_succ_Some _ _ _ Elst)). cbn [succ].
    unfold sB at 2. step E1. by step E2. }
  assert (Hret : forall hf cs,
    links hf (f :: cs ++ rest) None -> cs = inplace_merge_cells asc A B ->
    (dl <- get_data (Some lst.1) ;;
     dm <- get_data (Some mid.1) ;;
     ret (if xorb (dl <? dm)%Z (negb asc) then Some mid.1 else Some lst.1)) hf
    = Done (Some (if xorb (lst.2 <? mid.2)%Z (negb asc) then mid else lst).1) hf).
  { intros hf cs Lf ->.
    assert (Hin : forall x, x ∈ A ++ B ->
                    exists s, hf !! x.1 = Some (mkNode x.2 s)).
    { intros x Hx. apply (links_elem hf _ None x Lf).
      apply elem_of_cons. right. apply elem_of_app. left.
      by rewrite inplace_merge_cells_perm. }
    destruct (Hin lst) as [s1 F1].
    { apply elem_of_app. right. rewrite EB. apply elem_of_app. right.
      apply elem_of_cons. by left. }
    destruct (Hin mid) as [s2 F2].
    { apply elem_of_app. left. rewrite EA. apply elem_of_app. right.
      apply elem_of_cons. by left. }
    step ((get_data_Some _ _ _ F1)). step ((get_data_Some _ _ _ F2)). simpl.
    unfold ret. by destruct (xorb _ _). }
  exists (if xorb (lst.2 <? mid.2)%Z (negb asc) then mid else lst).
  assert (Hlast : last (inplace_merge_cells asc A B)
                  = Some (if xorb (lst.2 <? mid.2)%Z (negb asc) then mid else lst)).
  { apply inplace_merge_cells_returned; try done.
    - rewrite EA. apply last_snoc.
    - rewrite EB. apply last_snoc. }
  destruct B1 as [|b1 B1'].
  - (* the second range was used up first *)
    pose proof RB1 as (_ & _ & _ & [Hl|[_ Hhl1]]); [done|]. subst hl1.
    destruct A1 as [|i0 A1'].
    { exfalso. pose proof RA1 as (_ & _ & _ & [Hl|[_ Hhl1]]); [done|].
      apply Hne. by rewrite Hhl1. }
    destruct rest as [|r rest']; [done|].
    pose proof I2 as (L2 & F2 & ND2 & (s2 & Es2)). cbn [app] in ND2.
    assert (Em3 : h3 !! mid.1 = Some (mkNode mid.2 sB)).
    { rewrite (inplace_inv_lookup h h3 pre2 mid _ mid I2); [done|by left]. }
    assert (L3 : links h3 (pre2 ++ [mid]) sB).
    { apply links_app. split; [done|]. simpl. done. }
    rewrite Hp2 in L3.
    assert (El3 : h3 !! lst.1 = Some (mkNode lst.2 (Some i0.1))).
    { by apply links_app3 in L3 as (_ & E & _). }
    assert (Hri0 : Some r.1 <> Some i0.1).
    { intros [= E]. rewrite fmap_app in ND2.
      apply NoDup_app in ND2 as (_ & D & _). apply (D i0.1).
      - rewrite Hp2, fmap_app. apply elem_of_app. right.
        rewrite !fmap_cons. apply elem_of_cons. right. apply elem_of_cons. by left.
      - rewrite <- E, fmap_cons. apply elem_of_cons. by left. }
    assert (Hrm : r.1 <> mid.1).
    { intros E. rewrite fmap_app in ND2.
      apply NoDup_app in ND2 as (_ & D & _). apply (D mid.1).
      - rewrite fmap_app. apply elem_of_app. right. simpl. apply elem_of_cons. by left.
      - rewrite <- E, fmap_cons. apply elem_of_cons. by left. }
    assert (Hlm : lst.1 <> mid.1).
    { intros E. rewrite fmap_app in ND2. apply NoDup_app in ND2 as (ND2 & _ & _).
      rewrite Hp2 in ND2. rewrite fmap_app, fmap_cons in ND2.
      apply NoDup_app in ND2 as (_ & _ & ND2). apply NoDup_cons in ND2 as [ND2 _].
      apply ND2. rewrite E. apply elem_of_fst.
      pose proof RA1 as (_ & _ & _ & [Hl|[? _]]); [|done].
      by apply last_Some_elem_of. }
    set (h4 := <[mid.1 := mkNode mid.2 (Some r.1)]> h3).
    assert (Hrest4 : forall x, x ∈ r :: rest' -> h4 !! x.1 = h !! x.1).
    { intros x Hx. unfold h4. rewrite lookup_insert_ne.
      - apply (inplace_inv_lookup h h3 pre2 mid _ x I2). by right.
      - intros E. rewrite fmap_app in ND2.
        apply NoDup_app in ND2 as (_ & D & _). apply (D mid.1).
        + rewrite fmap_app. apply elem_of_app. right. simpl.
          apply elem_of_cons. by left.
        + rewrite E. by apply elem_of_fst. }
    assert (LR4 : links h4 (r :: rest') None).
    { apply (links_frame h); [|done].
      intros a Ha. apply list_elem_of_fmap in Ha as (x & -> & Hx). by apply Hrest4. }
    destruct LR4 as [Er4 LR4'].
    assert (El4 : h4 !! lst.1 = Some (mkNode lst.2 (Some i0.1)))
      by (unfold h4; by rewrite lookup_insert_ne).
    assert (Hi0 : i0.1 ∉ rest'.*1).
    { intros Hin. rewrite fmap_app in ND2.
      apply NoDup_app in ND2 as (_ & D & _). apply (D i0.1).
      - rewrite Hp2, fmap_app. apply elem_of_app. right.
        rewrite !fmap_cons. apply elem_of_cons. right. apply elem_of_cons. by left.
      - rewrite fmap_cons. apply elem_of_cons. by right. }
    destruct fuel as [|fuel']; [lia|].
    destruct (_inplace_merge_rest_walk lst i0.1 fuel' rest' r h4 Er4 LR4' El4 Hi0)
      as [y Ew]; [simpl in *; lia|].
    assert (E3 : _inplace_merge_rest (S fuel') (Some lst.1) (first_ptr [] pe)
                   (Some mid.1) h3 = Done (None, Some y) h4).
    { cbn [_inplace_merge_rest first_ptr]. unfold pe. cbn [first_ptr].
      step ((in_range_true h3 r lst (Some i0.1) El3 Hri0)).
      step ((set_succ_Some _ _ _ (Some r.1) Em3)). cbn [data]. fold h4.
      step ((get_succ_Some _ _ _ Er4)). cbn [succ]. exact Ew. }
    assert (Hcs : pre2 ++ [mid] = f :: inplace_merge_cells asc A B).
    { rewrite Hp2, Hm, inplace_merge_cells_nil_r.
      change (pre1 ++ lst :: i0 :: A1') with (pre1 ++ [lst] ++ i0 :: A1').
      rewrite app_assoc, Hp1. done. }
    assert (Lf : links h4 (f :: inplace_merge_cells asc A B ++ (r :: rest')) None).
    { rewrite app_comm_cons, <- Hcs. apply links_app. split.
      - apply links_app. split.
        + simpl. apply links_insert; [|done].
          apply (inplace_inv_fresh h h3 pre2 mid _ mid I2). by left.
        + simpl. split; [|done]. unfold h4. by rewrite lookup_insert_eq.
      - split; done. }
    exists h4. split; [|split; [done|split; [done|]]].
    + rewrite G0. step E3. by apply (Hret h4 _ Lf).
    + intros a Ha. unfold h4.
      assert (Hsub : forall x, x ∈ (pre2 ++ [mid]).*1 -> x ∈ (f :: A ++ B).*1).
      { intros x Hx. rewrite Hcs in Hx. rewrite !fmap_cons in *.
        apply elem_of_cons in Hx as [->|Hx]; [apply elem_of_cons; by left|].
        apply elem_of_cons. right. by rewrite <- inplace_merge_cells_perm. }
      rewrite lookup_insert_ne.
      * apply F2. intros Hin. apply Ha, Hsub. rewrite fmap_app.
        apply elem_of_app. by left.
      * intros <-. apply Ha, Hsub. rewrite fmap_app. apply elem_of_app. right.
        simpl. apply elem_of_cons. by left.
  - (* the first range was used up first *)
    destruct Hor as [->|HB1]; [|done].
    pose proof RA1 as (_ & _ & _ & [Hl|[_ Hhl1]]); [done|]. subst hl1.
    assert (Hp2' : pre2 = pre1).
    { by apply app_inj_tail in Hp2 as [? _]. }
    subst pre2.
    assert (RB2 : inplace_range h (b1 :: B1') pe lst mid) by exact RB1.
    assert (I2' : inplace_inv h h3 pre1 mid ([] ++ (b1 :: B1') ++ rest)) by exact I2.
    destruct (_inplace_merge_rest_inv h lst pe fuel (b1 :: B1') pre1 mid [] rest h3
                I2' RB2 ltac:(lia))
      as (pre3 & h4 & E3 & I3 & Hp3).
    simpl app in I3.
    pose proof I3 as (L3 & F3 & ND3 & _). cbn [app] in ND3.
    assert (El4 : h4 !! lst.1 = Some (mkNode lst.2 pe)).
    { rewrite (inplace_inv_lookup h h4 pre3 lst _ lst I3); [done|by left]. }
    assert (Hcs : pre3 ++ [lst] = f :: inplace_merge_cells asc A B).
    { rewrite Hp3, Hm, inplace_merge_cells_nil_l.
      change (pre1 ++ mid :: b1 :: B1') with (pre1 ++ [mid] ++ b1 :: B1').
      rewrite app_assoc, Hp1. done. }
    assert (Lf : links h4 (f :: inplace_merge_cells asc A B ++ rest) None).
    { rewrite app_comm_cons, <- Hcs. apply links_app. split.
      - apply links_app. split; [done|]. simpl. done.
      - apply (links_frame h); [|done].
        intros a Ha. apply list_elem_of_fmap in Ha as (x & -> & Hx).
        apply (inplace_inv_lookup h h4 pre3 lst _ x I3). by right. }
    exists h4. split; [|split; [done|split; [done|]]].
    + rewrite G0. step E3. by apply (Hret h4 _ Lf).
    + intros a Ha. apply F3. intros Hin. apply Ha.
      assert (Hx : a ∈ (pre3 ++ [lst]).*1)
        by (rewrite fmap_app; apply elem_of_app; by left).
      rewrite Hcs in Hx. rewrite !fmap_cons in *.
      apply elem_of_cons in Hx as [->|Hx]; [apply elem_of_cons; by left|].
      apply elem_of_cons. right. by rewrite <- inplace_merge_cells_perm.
Qed.
(** * _sort2, _sort and sort *)

(** [_sort2] leaves the two nodes behind [first] where they are and puts
    their elements in order. *)
Lemma _sort2_chain asc h (f a b : cell) q :
  h !! f.1 = Some (mkNode f.2 (Some a.1)) ->
  h !! a.1 = Some (mkNode a.2 (Some b.1)) ->
  h !! b.1 = Some (mkNode b.2 q) ->
  f.1 <> a.1 -> f.1 <> b.1 -> a.1 <> b.1 ->
  exists x y h',
    _sort2 (Some f.1) asc h = Done (Some b.1) h' /\
    h' !! a.1 = Some (mkNode x (Some b.1)) /\
    h' !! b.1 = Some (mkNode y q) /\
    (forall p, p <> a.1 -> p <> b.1 -> h' !! p = h !! p) /\
    [x; y] ≡ₚ [a.2; b.2] /\ in_order asc x y = true.
Proof.
  intros Ef Ea Eb Hfa Hfb Hab. unfold _sort2.
  step ((get_succ_Some _ _ _ Ef)). cbn [succ].
  step ((get_data_Some _ _ _ Ea)). cbn [data].
  step ((get_succ_Some _ _ _ Ea)). cbn [succ].
  step ((get_data_Some _ _ _ Eb)). cbn [data].
  destruct (xorb asc (a.2 <? b.2)%Z) eqn:X.
  - set (h1 := <[a.1 := mkNode b.2 (Some b.1)]> h).
    set (h2 := <[b.1 := mkNode a.2 q]> h1).
    exists b.2, a.2, h2.
    assert (Eb1 : h1 !! b.1 = Some (mkNode b.2 q))
      by (unfold h1; by rewrite lookup_insert_ne).
    assert (Ef2 : h2 !! f.1 = Some (mkNode f.2 (Some a.1)))
      by (unfold h2, h1; by rewrite !lookup_insert_ne).
    assert (Ea2 : h2 !! a.1 = Some (mkNode b.2 (Some b.1))).
    { unfold h2. rewrite lookup_insert_ne by done. unfold h1.
      by rewrite lookup_insert_eq. }
    split; [|split; [done|split; [|split; [|split]]]].
    + rewrite bind_bind. step ((set_data_Some _ _ _ b.2 Ea)). cbn [succ]. fold h1.
      step ((set_data_Some _ _ _ a.2 Eb1)). cbn [succ]. fold h2.
      step ((get_succ_Some _ _ _ Ef2)). cbn [succ].
      by rewrite (get_succ_Some _ _ _ Ea2).
    + unfold h2. by rewrite lookup_insert_eq.
    + intros p Hpa Hpb. unfold h2, h1. by rewrite !lookup_insert_ne.
    + apply perm_swap.
    + apply in_order_spec.
      destruct asc, (Z.ltb_spec a.2 b.2); simpl in X; (done || lia).
  - exists a.2, b.2, h.
    split; [|split; [done|split; [done|split; [done|split; [done|]]]]].
    + rewrite bind_ret. step ((get_succ_Some _ _ _ Ef)). cbn [succ].
      by rewrite (get_succ_Some _ _ _ Ea).
    + apply in_order_spec.
      destruct asc, (Z.ltb_spec a.2 b.2); simpl in X; (done || lia).
Qed.

Lemma NoDup_perm_fst (c c' : list cell) : c'.*1 ≡ₚ c.*1 -> NoDup c.*1 -> NoDup c'.*1.
Proof. intros P. by rewrite P. Qed.

(** [_sort] on the [bound] nodes behind [first]: they hold distinct
    elements, and the chain goes on behind them.  The nodes are linked in
    the order of their elements, which [_sort2] may have exchanged
    between two nodes; the node returned is the last of them. *)
Lemma _sort_chain asc fuel :
  forall depth h (f : cell) cs rest,
    cs <> [] -> rest <> [] ->
    links h (f :: cs ++ rest) None -> NoDup (f :: cs ++ rest).*1 ->
    NoDup cs.*2 ->
    length cs <= depth -> length (cs ++ rest) + 2 <= fuel ->
    exists cs' lst h',
      _sort depth fuel (Some f.1) (Z.of_nat (length cs)) asc h
      = Done (Some lst.1) h' /\
      last cs' = Some lst /\ links h' (f :: cs' ++ rest) None /\
      cs'.*1 ≡ₚ cs.*1 /\ cs'.*2 ≡ₚ cs.*2 /\ is_sorted asc (elems cs') = true /\
      (forall a, a ∉ (f :: cs).*1 -> h' !! a = h !! a).
Proof.
  induction depth as [|depth IH]; intros h f cs rest Hcs Hrest L ND NDd Hd Hf.
  { destruct cs; [done|simpl in Hd; lia]. }
  cbn [_sort].
  destruct cs as [|a cs]; [done|].
  destruct cs as [|b cs].
  { (* one node *)
    cbn [length]. change (Z.of_nat 1 =? 0)%Z with false.
    change (Z.of_nat 1 =? 1)%Z with true. cbn iota.
    destruct L as [Ef L].
    exists [a], a, h. split; [by rewrite (get_succ_Some _ _ _ Ef)|].
    split; [done|]. split; [by split|]. done. }
  destruct cs as [|c cs].
  { (* two nodes *)
    cbn [length]. change (Z.of_nat 2 =? 0)%Z with false.
    change (Z.of_nat 2 =? 1)%Z with false. change (Z.of_nat 2 =? 2)%Z with true.
    cbn iota.
    destruct L as [Ef [Ea [Eb L]]]. cbn [first_ptr app] in Ef, Ea, Eb.
    rewrite !fmap_cons in ND.
    apply NoDup_cons in ND as [Hf1 ND]. apply NoDup_cons in ND as [Ha1 ND].
    apply NoDup_cons in ND as [Hb1 ND].
    assert (Hfa : f.1 <> a.1).
    { intros E. apply Hf1. rewrite E. apply elem_of_cons. by left. }
    assert (Hfb : f.1 <> b.1).
    { intros E. apply Hf1. rewrite E. apply elem_of_cons. right.
      apply elem_of_cons. by left. }
    assert (Hab : a.1 <> b.1).
    { intros E. apply Ha1. rewrite E. apply elem_of_cons. by left. }
    destruct (_sort2_chain asc h f a b _ Ef Ea Eb Hfa Hfb Hab)
      as (x & y & h' & E & Ea' & Eb' & Fr & P & O).
    exists [(a.1, x); (b.1, y)], (b.1, y), h'.
    split; [done|]. split; [done|]. split; [|split; [done|split; [done|split]]].
    - cbn [app links first_ptr fst snd]. split; [|split; [done|split; [done|]]].
      + rewrite Fr by done. done.
      + apply (links_frame h); [|done].
        intros p Hp. apply Fr.
        * intros ->. apply Ha1. apply elem_of_cons. by right.
        * intros ->. by apply Hb1.
    - unfold elems. simpl. by rewrite O.
    - intros p Hp. apply Fr.
      + intros ->. apply Hp. simpl. apply elem_of_cons. right.
        apply elem_of_cons. by left.
      + intros ->. apply Hp. simpl. apply elem_of_cons. right. apply elem_of_cons.
        right. apply elem_of_cons. by left. }
  (* three nodes or more *)
  set (cs0 := a :: b :: c :: cs) in *.
  set (n := length cs0) in *.
  assert (Hn : 3 <= n) by (unfold n, cs0; simpl; lia).
  assert ((Z.of_nat n =? 0)%Z = false) as -> by (apply Z.eqb_neq; lia).
  assert ((Z.of_nat n =? 1)%Z = false) as -> by (apply Z.eqb_neq; lia).
  assert ((Z.of_nat n =? 2)%Z = false) as -> by (apply Z.eqb_neq; lia).
  set (k := n / 2).
  assert (Hk : 1 <= k /\ k < n /\ 2 <= n - k).
  { unfold k. pose proof (Nat.div_mod_eq n 2) as Hdm.
    pose proof (Nat.mod_upper_bound n 2 ltac:(lia)) as Hmod. lia. }
  assert (Ehalf : (Z.of_nat n / 2)%Z = Z.of_nat k).
  { unfold k. by rewrite Nat2Z.inj_div. }
  assert (Eother : (Z.of_nat n - Z.of_nat n / 2)%Z = Z.of_nat (n - k)) by lia.
  rewrite Eother, Ehalf.
  set (cs1 := take k cs0). set (cs2 := drop k cs0).
  assert (Ecs : cs0 = cs1 ++ cs2) by (unfold cs1, cs2; by rewrite take_drop).
  assert (Hl1 : length cs1 = k) by (unfold cs1; rewrite length_take; lia).
  assert (Hl2 : length cs2 = n - k) by (unfold cs2; by rewrite length_drop).
  assert (Hne1 : cs1 <> []) by (intros E; rewrite E in Hl1; simpl in Hl1; lia).
  assert (Hne2 : cs2 <> []) by (intros E; rewrite E in Hl2; simpl in Hl2; lia).
  clearbody cs0 cs1 cs2 n. subst cs0.
  rewrite fmap_app in NDd. apply NoDup_app in NDd as (NDd1 & Dd & NDd2).
  (* the first half *)
  assert (B1 : cs2 ++ rest <> []) by (by destruct cs2).
  assert (B2 : links h (f :: cs1 ++ cs2 ++ rest) None) by (by rewrite app_assoc).
  assert (B3 : NoDup (f :: cs1 ++ cs2 ++ rest).*1) by (by rewrite app_assoc).
  assert (B4 : length cs1 <= depth) by lia.
  assert (B5 : length (cs1 ++ cs2 ++ rest) + 2 <= fuel) by (rewrite app_assoc; lia).
  destruct (IH h f cs1 (cs2 ++ rest) Hne1 B1 B2 B3 NDd1 B4 B5)
    as (cs1' & mid & h1 & E1 & Lm & L1 & P1 & Pd1 & S1 & F1).
  rewrite Hl1 in E1. step E1.
  apply last_Some in Lm as Lm'. destruct Lm' as [c1 Ec1].
  assert (ND1 : NoDup (f :: cs1' ++ cs2 ++ rest).*1).
  { rewrite fmap_cons, fmap_app, P1, <- fmap_app, <- fmap_cons.
    by rewrite app_assoc. }
  (* the second half *)
  assert (L1m : links h1 (mid :: cs2 ++ rest) None).
  { rewrite Ec1 in L1. rewrite <- app_assoc, app_comm_cons in L1.
    by apply links_app in L1 as [_ L1]. }
  assert (ND1m : NoDup (mid :: cs2 ++ rest).*1).
  { rewrite Ec1 in ND1. rewrite <- app_assoc, app_comm_cons, fmap_app in ND1.
    by apply NoDup_app in ND1 as (_ & _ & ND1). }
  assert (B6 : length cs2 <= depth) by lia.
  assert (B7 : length (cs2 ++ rest) + 2 <= fuel) by (rewrite !length_app in *; lia).
  destruct (IH h1 mid cs2 rest Hne2 Hrest L1m ND1m NDd2 B6 B7)
    as (cs2' & lst & h2 & E2 & Ll & L2 & P2 & Pd2 & S2 & F2).
  rewrite Hl2 in E2. step E2.
  (* the merge *)
  assert (L12 : links h2 (f :: cs1' ++ cs2' ++ rest) None).
  { rewrite Ec1, <- app_assoc, app_comm_cons. apply links_app. split; [|done].
    rewrite Ec1 in L1. rewrite <- app_assoc, app_comm_cons in L1.
    apply links_app in L1 as [L1 _]. cbn [first_ptr] in *.
    apply (links_frame h1); [|done].
    intros p Hp. apply F2. intros Hin.
    rewrite Ec1 in ND1. rewrite <- app_assoc, app_comm_cons, fmap_app in ND1.
    apply NoDup_app in ND1 as (_ & D & _). apply (D p Hp).
    cbn [app]. rewrite fmap_cons, fmap_app. rewrite fmap_cons in Hin.
    apply elem_of_cons in Hin as [->|Hin]; [apply elem_of_cons; by left|].
    apply elem_of_cons. right. apply elem_of_app. by left. }
  assert (ND12 : NoDup (f :: cs1' ++ cs2' ++ rest).*1).
  { rewrite fmap_cons, !fmap_app, P2, <- !fmap_app, <- fmap_cons. done. }
  assert (Hml : mid.2 <> lst.2).
  { intros E. apply (Dd mid.2).
    - rewrite <- Pd1. apply list_elem_of_fmap. exists mid. split; [done|].
      by apply last_Some_elem_of.
    - rewrite E, <- Pd2. apply list_elem_of_fmap. exists lst. split; [done|].
      by apply last_Some_elem_of. }
  assert (Hlen' : length (cs1' ++ cs2' ++ rest) = length (cs1 ++ cs2) + length rest).
  { rewrite !length_app. apply Permutation_length in P1, P2.
    rewrite !length_fmap in P1, P2. lia. }
  assert (B8 : length (cs1' ++ cs2' ++ rest) + 2 <= fuel)
    by (rewrite length_app in Hf; lia).
  destruct (_inplace_merge_chain asc fuel h2 f cs1' mid cs2' lst rest Lm Ll Hrest
              L12 ND12 S1 S2 Hml B8)
    as (r & h3 & E3 & Lr & L3 & F3).
  exists (inplace_merge_cells asc cs1' cs2'), r, h3.
  split; [done|]. split; [done|]. split; [done|].
  assert (Pc : inplace_merge_cells asc cs1' cs2' ≡ₚ cs1' ++ cs2')
    by apply inplace_merge_cells_perm.
  split; [|split; [|split]].
  - by rewrite Pc, !fmap_app, P1, P2.
  - by rewrite Pc, !fmap_app, Pd1, Pd2.
  - by apply inplace_merge_cells_sorted.
  - intros p Hp. rewrite fmap_cons, fmap_app in Hp.
    apply not_elem_of_cons in Hp as [Hpf Hp].
    apply not_elem_of_app in Hp as [Hp1 Hp2].
    assert (Hpm : p <> mid.1).
    { intros ->. apply Hp1. rewrite <- P1. apply elem_of_fst.
      by apply last_Some_elem_of. }
    rewrite F3, F2, F1; [done| | |].
    + rewrite fmap_cons. apply not_elem_of_cons. by split.
    + rewrite fmap_cons. apply not_elem_of_cons. by split.
    + rewrite fmap_cons, fmap_app, P1, P2. apply not_elem_of_cons. split; [done|].
      apply not_elem_of_app. by split.
Qed.

(** [sort] on a list of distinct elements. *)
Lemma sort_is_list fuel h l hd ns tl asc :
  is_list h l hd ns tl -> NoDup (elems ns) -> length ns + 3 <= fuel ->
  exists h' ns',
    sort fuel l asc h = Done tt h' /\
    is_list h' l hd ns' tl /\
    is_sorted asc (elems ns') = true /\
    elems ns' ≡ₚ elems ns /\ ns'.*1 ≡ₚ ns.*1 /\
    (forall a, a ∉ (hd :: ns).*1 -> h' !! a = h !! a).
Proof.
  intros I NDd Hf. pose proof I as ((L & ND & Hh & Ht & Hlen) & Hsz & Hb).
  destruct (is_list_head _ _ _ _ _ I) as (Hhd & Htl & _).
  unfold sort. rewrite Hhd, Hsz.
  destruct ns as [|n ns].
  { exists h, []. destruct fuel as [|fuel]; [lia|]. done. }
  destruct (_sort_chain asc fuel fuel h hd (n :: ns) [tl]) as
    (cs' & lst & h' & E & Ll & L' & P & Pd & S & F); try done.
  { lia. }
  { rewrite length_app. simpl in *. lia. }
  exists h', cs'. split; [by step E|].
  split; [|done].
  assert (Hl : length cs' = length (n :: ns)).
  { apply Permutation_length in P. by rewrite !length_fmap in P. }
  split; [split; [done|split; [|split; [done|split]]]|split].
  - rewrite fmap_cons, fmap_app, P, <- fmap_app, <- fmap_cons. done.
  - by rewrite chain_tail_ptr.
  - rewrite chain_length. lia.
  - by rewrite Hl.
  - by rewrite Hl.
Qed.
(** * insert_after at any position, the order sorted tests, the checks *)

Lemma insert_after_n_is_list NDEBUG junk fuel h l hd ns tl k e n :
  is_list h l hd ns tl -> k <= length ns -> (0 <= n)%Z ->
  (Z.of_nat (length ns) + n < 2 ^ 64)%Z -> length ns + Z.to_nat n + 2 <= fuel ->
  exists l' h' ns' tl',
    insert_after_n NDEBUG junk fuel l (ptr_at (hd :: ns) k) e n h = Done l' h' /\
    is_list h' l' hd ns' tl' /\
    elems ns' = take k (elems ns) ++ replicate (Z.to_nat n) e ++ drop k (elems ns).
Proof.
  intros I Hk Hn Hfit Hf.
  destruct (decide (n = 0%Z)) as [->|Hn0].
  { exists l, h, ns, tl. split; [done|]. split; [done|].
    simpl. by rewrite take_drop. }
  destruct (decide (k = length ns)) as [->|Hkl].
  - destruct (insert_after_n_outer NDEBUG junk fuel h l hd ns tl
                (ptr_at (hd :: ns) (length ns)) e n I)
      as (l' & h' & ns' & tl' & E & I' & El); try done.
    { intros j Hj Eq. pose proof I as ((_ & ND & _) & _).
      assert (ND' : NoDup (hd :: ns).*1).
      { rewrite app_comm_cons, fmap_app in ND. by apply NoDup_app in ND as (ND & _). }
      apply (ptr_at_inj (hd :: ns) j (length ns) ND') in Eq; [lia|simpl; lia]. }
    exists l', h', (ns ++ ns'), tl'. split; [done|]. split; [done|].
    rewrite elems_app, El.
    rewrite <- (elems_length ns), take_ge, drop_ge by lia. by rewrite app_nil_r.
  - destruct (insert_after_n_inner NDEBUG junk fuel h l hd ns tl k e n I)
      as (l' & h' & news & E & I' & El & _); try lia.
    exists l', h', (take k ns ++ news ++ drop k ns), tl.
    split; [done|]. split; [done|].
    rewrite !elems_app, El. unfold elems. by rewrite fmap_take, fmap_drop.
Qed.

(** [is_sorted] is the usual order on neighbours: not descending for
    [ASCENDING], not ascending for [DESCENDING]. *)
Lemma is_sorted_spec asc xs :
  is_sorted asc xs = true <->
  forall i a b, xs !! i = Some a -> xs !! S i = Some b ->
                if asc then (a <= b)%Z else (b <= a)%Z.
Proof.
  induction xs as [|x xs IH]; [done|].
  rewrite is_sorted_cons, andb_true_iff, IH. destruct xs as [|y xs].
  - split; [|done]. intros _ i a b Ha Hb. by destruct i.
  - simpl. rewrite in_order_spec. split.
    + intros [Hxy Hs] i a b Ha Hb. destruct i as [|i].
      * injection Ha as <-. injection Hb as <-. done.
      * by apply (Hs i).
    + intros Hs. split.
      * by apply (Hs 0).
      * intros i a b Ha Hb. by apply (Hs (S i)).
Qed.

(** The checks of the checked build at the two sentinels. *)
Lemma checks_at_sentinels h l hd ns tl :
  is_list h l hd ns tl ->
  check_deref false l (head l) h = Throw TVJ_FORWARD_LIST_UNDERFLOW /\
  check_deref false l (tail l) h = Throw TVJ_FORWARD_LIST_OVERFLOW /\
  check_advance false l (tail l) h = Throw TVJ_FORWARD_LIST_OVERFLOW /\
  check_advance false l (head l) h = Done tt h.
Proof.
  intros I. destruct (is_list_head _ _ _ _ _ I) as (Hh & Ht & _ & Hne).
  unfold check_deref, check_advance. rewrite Hh, Ht, !is_null_Some, !ptr_eqb_refl.
  rewrite !ptr_neq by done. done.
Qed.
(** * unique after sort, operator+ past the tail *)

Lemma NoDup_no_equal_neighbours xs : NoDup xs -> no_equal_neighbours xs = true.
Proof.
  induction xs as [|a xs IH]; [done|]. intros ND.
  apply NoDup_cons in ND as [Ha ND]. destruct xs as [|b xs]; [done|].
  cbn [no_equal_neighbours]. apply andb_true_iff. split; [|by apply IH].
  apply negb_true_iff, Z.eqb_neq. intros ->. apply Ha. apply elem_of_cons. by left.
Qed.

Lemma last_two {A} (xs : list A) :
  2 <= length xs -> exists xs0 a b, xs = xs0 ++ [a; b].
Proof.
  intros H. destruct xs as [|b xs _] using rev_ind; [simpl in H; lia|].
  destruct xs as [|a xs _] using rev_ind.
  - simpl in H. lia.
  - exists xs, a, b. by rewrite <- app_assoc.
Qed.

(** [unique] in the checked build on a list of distinct elements: the
    list is sorted where [sorted] says it is not, and then kept. *)
Lemma unique_distinct fuel h l hd ns tl :
  is_list h l hd ns tl -> NoDup (elems ns) -> 2 <= length ns ->
  length ns + 3 <= fuel ->
  exists l' h' ns',
    unique false fuel l h = Done l' h' /\
    is_list h' l' hd ns' tl /\
    is_sorted true (elems ns') = true /\ elems ns' ≡ₚ elems ns.
Proof.
  intros I ND Hlen Hf.
  assert (Hg : exists h1 ns1,
    (if false then ret tt
     else s <- sorted false fuel l true ;;
          if negb s then sort fuel l true else ret tt) h = Done tt h1 /\
    is_list h1 l hd ns1 tl /\ is_sorted true (elems ns1) = true /\
    elems ns1 ≡ₚ elems ns).
  { cbn iota.
    step ((sorted_decides false fuel h l hd ns tl true I ltac:(lia))).
    destruct (is_sorted true (elems ns)) eqn:S; cbn [negb].
    - by exists h, ns.
    - destruct (sort_is_list fuel h l hd ns tl true I ND Hf)
        as (h1 & ns1 & E & I1 & S1 & P & _).
      exists h1, ns1. done. }
  destruct Hg as (h1 & ns1 & G & I1 & S1 & P).
  assert (Hl1 : length ns1 = length ns).
  { apply Permutation_length in P. by rewrite !elems_length in P. }
  destruct (last_two ns1 ltac:(lia)) as (ns0 & a & b & ->).
  assert (ND1 : NoDup (elems (ns0 ++ [a; b]))) by (by rewrite P).
  assert (Hab : a.2 <> b.2).
  { unfold elems in ND1. rewrite fmap_app in ND1.
    apply NoDup_app in ND1 as (_ & _ & ND1). simpl in ND1.
    apply NoDup_cons in ND1 as [Ha _]. intros E. apply Ha. rewrite E.
    apply elem_of_cons. by left. }
  assert (Hnn : no_equal_neighbours (elems (ns0 ++ [a])) = true).
  { apply NoDup_no_equal_neighbours.
    replace (ns0 ++ [a; b]) with ((ns0 ++ [a]) ++ [b]) in ND1
      by (by rewrite <- app_assoc).
    rewrite elems_app in ND1. by apply NoDup_app in ND1 as (ND1 & _). }
  rewrite length_app in Hl1. simpl in Hl1.
  destruct (unique_from_guard false fuel h h1 l hd ns0 a b tl G I1 Hnn ltac:(lia))
    as (l' & h' & E & I').
  apply Z.eqb_neq in Hab. rewrite Hab in I'.
  by exists l', h', (ns0 ++ [a; b]).
Qed.

Lemma advance_null n : forall h, advance (S n) None h = Undefined.
Proof. done. Qed.

Lemma advance_add a b p h :
  advance (a + b) p h = (q <- advance a p ;; advance b q) h.
Proof.
  revert p h. induction a as [|a IH]; intros p h; [done|].
  cbn [Nat.add advance]. rewrite bind_bind. unfold bind.
  destruct (get_succ p h) as [q h'| | |]; try done.
Qed.
(** * The constructor from two pointers *)

Lemma forward_list_of_pointers_loop_push junk arr fuel :
  forall b e l h, b <= e <= length arr -> e - b < fuel ->
    forward_list_of_pointers_loop junk fuel arr l (Some b) (Some e) h
    = push_back_all junk l (take (e - b) (drop b arr)) h.
Proof.
  induction fuel as [|fuel IH]; intros b e l h Hbe Hf; [lia|].
  cbn [forward_list_of_pointers_loop]. unfold elem_ptr_eqb.
  destruct (decide (b = e)) as [->|Hne].
  - rewrite bool_decide_eq_true_2 by done. by rewrite Nat.sub_diag.
  - rewrite bool_decide_eq_false_2 by congruence. cbn [negb].
    destruct (lookup_lt_is_Some_2 arr b ltac:(lia)) as [x Ex].
    rewrite (drop_S _ _ _ Ex).
    replace (e - b) with (S (e - S b)) by lia.
    cbn [take push_back_all elem_ptr_deref elem_ptr_incr fmap option_fmap option_map].
    rewrite Ex. unfold bind at 1, ret at 1. unfold bind.
    destruct (push_back junk l x h) as [l' h'| | |]; try done.
    apply IH; lia.
Qed.

Lemma forward_list_of_pointers_array NDEBUG junk fuel h arr b e :
  b <= e <= length arr -> e - b < fuel ->
  forward_list_of_pointers NDEBUG junk fuel arr (Some b) (Some e) h
  = forward_list_of_array junk (take (e - b) (drop b arr)) h.
Proof.
  intros Hbe Hf. unfold forward_list_of_pointers, forward_list_of_array, bind.
  destruct (forward_list_new junk h) as [l h'| | |]; try done.
  rewrite <- (forward_list_of_pointers_loop_push junk arr fuel b e l h' Hbe Hf).
  by destruct NDEBUG.
Qed.

Lemma forward_list_of_pointers_null junk fuel h arr i_beg i_end :
  i_beg = None \/ i_end = None ->
  forward_list_of_pointers false junk fuel arr i_beg i_end h
  = Throw TVJ_FORWARD_LIST_NULLPTR.
Proof.
  intros Hn. unfold forward_list_of_pointers, bind.
  destruct (forward_list_new_is_list junk h) as (l & h' & hd & tl & E & _).
  rewrite E.
  destruct i_beg as [b|]; [|done]. destruct Hn as [Hn|Hn]; [done|].
  by rewrite Hn.
Qed.

(** * erase_after at before_begin() *)

Lemma erase_after1_before_begin NDEBUG fuel h l hd ns tl :
  is_list h l hd ns tl -> length ns + 2 <= fuel ->
  erase_after1 NDEBUG fuel l (before_begin l) h = Done l h.
Proof.
  intros I Hf. pose proof I as (C & _). pose proof C as (L & ND & Hh & _).
  unfold erase_after1. destruct (empty l); [done|].
  unfold cbefore_begin, before_begin. rewrite Hh.
  apply (erase_after1_loop_not_found NDEBUG h l _ _ (cend l) fuel C);
    rewrite ?chain_length; try lia.
  intros j Hj E.
  apply (ptr_at_inj _ _ _ ND) in E; [lia|rewrite chain_length; lia].
Qed.
(** * The claims *)

(** The two example lists are well formed. *)
Ltac solve_is_list :=
  unfold is_list, chain_of, cursors_of;
  repeat split;
  try (by apply (bool_decide_unpack _));
  try (vm_compute; reflexivity);
  try (simpl; lia).

Lemma example_is_list :
  is_list example_heap example_list (0, 0%Z) example_cells (4, 0%Z).
Proof. solve_is_list. Qed.

Lemma example_other_is_list :
  is_list example_heap example_other (5, 0%Z) example_other_cells (8, 0%Z).
Proof. solve_is_list. Qed.

(** C1: [sort] does not sort [2, 1, 2, 5, 6, 0].  The first half is left
    as [1, 2, 2], but [_inplace_merge] returns its middle node (on equal
    keys of [mid_] and [last_] it returns [last_], which the merge linked
    before [mid_]); the second half is then taken to start one node
    early, its last element 0 is never merged, and [sorted] answers
    false. *)
Theorem sort_leaves_list_unsorted NDEBUG :
  observe
    (run (l <- forward_list_of_array 0%Z [2; 1; 2; 5; 6; 0]%Z ;;
          sort 100 l true ;;;
          xs <- printForwardList NDEBUG 100 l ;;
          s <- sorted NDEBUG 100 l true ;;
          ret (xs, s)))
  = Done ([1; 2; 2; 5; 6; 0]%Z, false) ∅.
Proof. destruct NDEBUG; vm_compute; reflexivity. Qed.

(** C2, as the code has it, in the checked build: for a receiver and an
    argument that are both sorted in the order asked for, [merge] leaves
    the receiver holding the merged sequence [merge_elems]: it is sorted,
    and when the two heads are equal the receiver's node is linked and
    the argument's element is skipped, so that the result together with
    the skipped elements has the elements of both lists, and [size()] is
    the sum of both sizes minus the number of skipped elements.  The
    nodes linked from the argument are those of a copy [ms], new in the
    heap.  The sizes are taken to fit [size_t] together. *)
Theorem merge_checked_build junk fuel h l list_ hd ns tl hd' ns' tl' asc :
  is_list h l hd ns tl -> is_list h list_ hd' ns' tl' ->
  is_sorted asc (elems ns) = true -> is_sorted asc (elems ns') = true ->
  (Z.of_nat (length ns + length ns') < 2 ^ 64)%Z ->
  2 * (length ns + length ns') + 4 <= fuel ->
  exists l' h' ms tl1,
    merge false junk fuel l list_ asc h = Done l' h' /\
    is_list h' l' hd (merge_cells asc ns ms) tl1 /\
    elems ms = elems ns' /\ outside h ms /\
    elems (merge_cells asc ns ms) = merge_elems asc (elems ns) (elems ns') /\
    is_sorted asc (merge_elems asc (elems ns) (elems ns')) = true /\
    merge_elems asc (elems ns) (elems ns') ++ merge_skipped asc (elems ns) (elems ns')
      ≡ₚ elems ns ++ elems ns' /\
    size l' = (Z.of_nat (length ns + length ns')
               - Z.of_nat (length (merge_skipped asc (elems ns) (elems ns'))))%Z.
Proof.
  intros Il Io Sl So Hfit Hf.
  destruct (merge_is_list junk fuel h l list_ hd ns tl hd' ns' tl' asc Il Io Sl So Hfit Hf)
    as (l' & h' & ms & tl1 & E & I & Els & O).
  exists l', h', ms, tl1.
  assert (Hel : elems (merge_cells asc ns ms) = merge_elems asc (elems ns) (elems ns'))
    by (by rewrite elems_merge_cells, Els).
  split; [done|]. split; [done|]. split; [done|]. split; [done|]. split; [done|].
  split; [by apply merge_elems_sorted|]. split; [apply merge_elems_perm|].
  destruct I as (_ & Hsz & _). unfold size. rewrite Hsz.
  rewrite <- elems_length, Hel.
  pose proof (merge_elems_length asc (elems ns) (elems ns')) as HL.
  rewrite !elems_length in HL. lia.
Qed.

Lemma merge_checked_build_witness :
  (is_list example_heap example_list (0, 0%Z) example_cells (4, 0%Z) /\
   is_list example_heap example_other (5, 0%Z) example_other_cells (8, 0%Z) /\
   is_sorted true (elems example_cells) = true /\
   is_sorted true (elems example_other_cells) = true /\
   (Z.of_nat (length example_cells + length example_other_cells) < 2 ^ 64)%Z /\
   2 * (length example_cells + length example_other_cells) + 4 <= 20) /\
  exists l' h' ms tl1,
    merge false 0%Z 20 example_list example_other true example_heap = Done l' h' /\
    is_list h' l' (0, 0%Z) (merge_cells true example_cells ms) tl1 /\
    elems ms = elems example_other_cells /\ outside example_heap ms /\
    elems (merge_cells true example_cells ms)
    = merge_elems true (elems example_cells) (elems example_other_cells) /\
    is_sorted true (merge_elems true (elems example_cells) (elems example_other_cells))
    = true /\
    merge_elems true (elems example_cells) (elems example_other_cells)
      ++ merge_skipped true (elems example_cells) (elems example_other_cells)
      ≡ₚ elems example_cells ++ elems example_other_cells /\
    size l' = (Z.of_nat (length example_cells + length example_other_cells)
               - Z.of_nat (length (merge_skipped true (elems example_cells)
                                     (elems example_other_cells))))%Z.
Proof.
  assert (H1 : is_list example_heap example_list (0, 0%Z) example_cells (4, 0%Z))
    by solve_is_list.
  assert (H2 : is_list example_heap example_other (5, 0%Z) example_other_cells (8, 0%Z))
    by solve_is_list.
  assert (H3 : is_sorted true (elems example_cells) = true) by reflexivity.
  assert (H4 : is_sorted true (elems example_other_cells) = true) by reflexivity.
  assert (H5 : (Z.of_nat (length example_cells + length example_other_cells) < 2 ^ 64)%Z)
    by (simpl; lia).
  assert (H6 : 2 * (length example_cells + length example_other_cells) + 4 <= 20)
    by (simpl; lia).
  split; [exact (conj H1 (conj H2 (conj H3 (conj H4 (conj H5 H6)))))|].
  exact (merge_checked_build 0%Z 20 example_heap example_list example_other (0, 0%Z)
           example_cells (4, 0%Z) (5, 0%Z) example_other_cells (8, 0%Z) true
           H1 H2 H3 H4 H5 H6).
Defined.

(** C2 as stated fails.  In the checked build, merging [1] into [1]
    leaves [1], of size 1, not a list of size 2.  In the fast build,
    merging [2] into [1] leaves a chain that runs into a freed node, so
    that its traversal is undefined. *)
Lemma merge_skips_tied_element :
  (scenario false [1]%Z
     (fun l => other <- forward_list_of_array 0%Z [1]%Z ;;
               merge false 0%Z 100 l other true)
   = Done ([1]%Z, 1%Z) ∅ /\
   ~ merge_keeps_everything false [1]%Z [1]%Z true) /\
  (scenario true [1]%Z
     (fun l => other <- forward_list_of_array 0%Z [2]%Z ;;
               merge true 0%Z 100 l other true)
   = Undefined /\
   ~ merge_keeps_everything true [1]%Z [2]%Z true).
Proof.
  unfold merge_keeps_everything.
  repeat split; try (vm_compute; reflexivity);
    intros (zs & E & _); vm_compute in E; discriminate E.
Qed.

(** C3: on [1, 2, 3, 3, 3, 4, 7, 7, 10] [unique] does not return.  The
    relinking [i->succ = (i + 2)->succ] unlinks two nodes for one
    deleted; after the run of 7 it has dropped 10 as well, the inner loop
    then reads the tail sentinel: an [Overflow] in the checked build, and
    in the fast build a dereference of null at the closing test.  On
    [1, 1, 2, 3] the fast build returns [1, 3]. *)
Theorem unique_scenario_fails :
  scenario false [1; 2; 3; 3; 3; 4; 7; 7; 10]%Z (fun l => unique false 100 l)
  = Throw TVJ_FORWARD_LIST_OVERFLOW /\
  scenario true [1; 2; 3; 3; 3; 4; 7; 7; 10]%Z (fun l => unique true 100 l)
  = Undefined /\
  scenario true [1; 1; 2; 3]%Z (fun l => unique true 100 l)
  = Done ([1; 3]%Z, 3%Z) ∅.
Proof. repeat split; vm_compute; reflexivity. Qed.

(** C4: after [unique] on [1, 1, 1, 1, 1, 2, 3] the chain holds
    [1, 2, 3] and [size_] is 5.  From [head], 4 links reach [tail];
    [size_] links reach null, and one more is a dereference of null. *)
Theorem unique_breaks_size_invariant NDEBUG :
  observe
    (run (l <- forward_list_of_array 0%Z [1; 1; 1; 1; 1; 2; 3]%Z ;;
          l' <- unique NDEBUG 100 l ;;
          xs <- printForwardList NDEBUG 100 l' ;;
          p4 <- advance 4 (head l') ;;
          p <- advance (Z.to_nat (size l')) (head l') ;;
          ret (xs, size l', ptr_eqb p4 (tail l'), p)))
  = Done ([1; 2; 3]%Z, 5%Z, true, None) ∅ /\
  observe
    (run (l <- forward_list_of_array 0%Z [1; 1; 1; 1; 1; 2; 3]%Z ;;
          l' <- unique NDEBUG 100 l ;;
          advance (S (Z.to_nat (size l'))) (head l')))
  = Undefined.
Proof. destruct NDEBUG; split; vm_compute; reflexivity. Qed.

(** C5, as the code has it: for every cursor [iter1] at an element of the
    list, [erase_after(iter1)] removes that element and every element
    after it, leaving the elements before [iter1] as they were; and
    [erase_after(iter1, iter2)], for [iter2] at or after [iter1] or at
    [end()], removes the elements from [iter1] up to but excluding
    [iter2], leaving those before [iter1] and those from [iter2] on as
    they were.  [size_] counts what is left. *)
Theorem erase_after_from_iter1 NDEBUG fuel h l hd ns tl k1 k2 :
  is_list h l hd ns tl -> k1 < length ns -> k1 <= k2 <= length ns ->
  length ns + 2 <= fuel ->
  (exists l' h',
      erase_after1 NDEBUG fuel l (ptr_at ns k1) h = Done l' h' /\
      is_list h' l' hd (take k1 ns) tl) /\
  (exists l' h',
      erase_after2 NDEBUG fuel l (ptr_at ns k1) (ptr_at (ns ++ [tl]) k2) h
      = Done l' h' /\
      is_list h' l' hd (take k1 ns ++ drop k2 ns) tl).
Proof.
  intros I Hk1 Hk2 Hf. split.
  - by apply erase_after1_is_list.
  - by apply erase_after2_is_list.
Qed.

Lemma erase_after_from_iter1_witness :
  (is_list example_heap example_list (0, 0%Z) example_cells (4, 0%Z) /\
   1 < length example_cells /\ 1 <= 2 <= length example_cells /\
   length example_cells + 2 <= 10) /\
  (exists l' h',
      erase_after1 false 10 example_list (ptr_at example_cells 1) example_heap
      = Done l' h' /\
      is_list h' l' (0, 0%Z) (take 1 example_cells) (4, 0%Z)) /\
  (exists l' h',
      erase_after2 false 10 example_list (ptr_at example_cells 1)
        (ptr_at (example_cells ++ [(4, 0%Z)]) 2) example_heap
      = Done l' h' /\
      is_list h' l' (0, 0%Z) (take 1 example_cells ++ drop 2 example_cells) (4, 0%Z)).
Proof.
  assert (H1 : is_list example_heap example_list (0, 0%Z) example_cells (4, 0%Z))
    by solve_is_list.
  assert (H2 : 1 < length example_cells) by (simpl; lia).
  assert (H3 : 1 <= 2 <= length example_cells) by (simpl; lia).
  assert (H4 : length example_cells + 2 <= 10) by (simpl; lia).
  split; [exact (conj H1 (conj H2 (conj H3 H4)))|].
  exact (erase_after_from_iter1 false 10 example_heap example_list (0, 0%Z)
           example_cells (4, 0%Z) 1 2 H1 H2 H3 H4).
Defined.

(** C5 as stated fails: on [1, 2, 3], [erase_after] of the cursor at 2
    leaves [1], not [1, 2]; on [1, 2, 3, 4, 5], [erase_after] of the
    cursors at 2 and 4 leaves [1, 4, 5], not [1, 2, 4, 5]. *)
Lemma erase_after_removes_iter1 :
  (scenario false [1; 2; 3]%Z
     (fun l => it <- cursor false l 1 ;; erase_after1 false 100 l it)
   = Done ([1]%Z, 1%Z) ∅ /\
   ~ erase_after_keeps_iter1 false [1; 2; 3]%Z 1 /\
   ~ erase_after_keeps_iter1 true [1; 2; 3]%Z 1) /\
  (scenario false [1; 2; 3; 4; 5]%Z
     (fun l => it1 <- cursor false l 1 ;; it2 <- cursor false l 3 ;;
               erase_after2 false 100 l it1 it2)
   = Done ([1; 4; 5]%Z, 3%Z) ∅ /\
   ~ erase_after_open_interval false [1; 2; 3; 4; 5]%Z 1 3 /\
   ~ erase_after_open_interval true [1; 2; 3; 4; 5]%Z 1 3).
Proof.
  unfold erase_after_keeps_iter1, erase_after_open_interval.
  repeat split; try (vm_compute; reflexivity);
    intros E; vm_compute in E; discriminate E.
Qed.

(** C6: on the ascending list [1, 2, 3], [search(2, true)] returns
    [before_begin()], not the cursor at 2, and [search(0, true)] returns
    the cursor at the last element, not [before_begin()]: the two
    comparisons of [search] are those of the other order. *)
Theorem search_returns_before_begin NDEBUG :
  observe
    (run (l <- forward_list_of_array 0%Z [1; 2; 3]%Z ;;
          it <- search NDEBUG 100 l 2%Z true ;;
          at2 <- cursor NDEBUG l 1 ;;
          it0 <- search NDEBUG 100 l 0%Z true ;;
          last <- back NDEBUG 100 l ;;
          ret (ptr_eqb it (before_begin l), ptr_eqb it at2,
               ptr_eqb it0 (before_begin l), ptr_eqb it0 last)))
  = Done (true, false, false, true) ∅.
Proof. destruct NDEBUG; vm_compute; reflexivity. Qed.

(** C7, as the code has it: [clear()] is [erase_after(begin())]; it leaves
    the list empty, with [size_] 0 and its two sentinels in place, whereas
    [erase_after(before_begin())] removes nothing: the list and the heap
    are as they were. *)
Theorem clear_is_erase_after_begin NDEBUG fuel h l hd ns tl :
  is_list h l hd ns tl -> length ns + 2 <= fuel ->
  (exists l' h',
     clear NDEBUG fuel l h = Done l' h' /\
     (it <- begin_ l ;; erase_after1 NDEBUG fuel l it) h = Done l' h' /\
     is_list h' l' hd [] tl /\
     head l' = head l /\ tail l' = tail l /\ size l' = 0%Z) /\
  erase_after1 NDEBUG fuel l (before_begin l) h = Done l h.
Proof.
  intros I Hf.
  split; [|by apply (erase_after1_before_begin NDEBUG fuel h l hd ns tl)].
  pose proof I as (C & _).
  pose proof (begin_chain l _ (proj2 C) h (proj1 C)) as B.
  rewrite ptr_at_cons in B.
  assert (R : exists l' h', erase_after1 NDEBUG fuel l (ptr_at (ns ++ [tl]) 0) h
                            = Done l' h' /\ is_list h' l' hd [] tl).
  { destruct ns as [|n ns].
    - exists l, h. unfold erase_after1. by rewrite (is_list_empty _ _ _ _ I).
    - assert (H0 : 0 < length (n :: ns)) by (simpl; lia).
      apply (erase_after1_is_list NDEBUG fuel h l hd (n :: ns) tl 0 I H0 Hf). }
  destruct R as (l' & h' & E & I').
  exists l', h'. unfold clear, cbegin. unfold begin_ in B.
  rewrite !(bind_Done _ _ _ _ _ B). split; [done|]. split; [done|]. split; [done|].
  destruct (is_list_head _ _ _ _ _ I) as (Hh & Ht & _).
  destruct (is_list_head _ _ _ _ _ I') as (Hh' & Ht' & _).
  destruct I' as (_ & Hsz & _).
  split; [congruence|]. split; [congruence|]. done.
Qed.

Lemma clear_is_erase_after_begin_witness :
  (is_list example_heap example_list (0, 0%Z) example_cells (4, 0%Z) /\
   length example_cells + 2 <= 10) /\
  (exists l' h',
     clear true 10 example_list example_heap = Done l' h' /\
     (it <- begin_ example_list ;; erase_after1 true 10 example_list it) example_heap
     = Done l' h' /\
     is_list h' l' (0, 0%Z) [] (4, 0%Z) /\
     head l' = head example_list /\ tail l' = tail example_list /\ size l' = 0%Z) /\
  erase_after1 true 10 example_list (before_begin example_list) example_heap
  = Done example_list example_heap.
Proof.
  assert (H1 : is_list example_heap example_list (0, 0%Z) example_cells (4, 0%Z))
    by solve_is_list.
  assert (H2 : length example_cells + 2 <= 10) by (simpl; lia).
  split; [exact (conj H1 H2)|].
  exact (clear_is_erase_after_begin true 10 example_heap example_list (0, 0%Z)
           example_cells (4, 0%Z) H1 H2).
Defined.

(** C7 as stated fails: on [1], [clear()] leaves the empty list and
    [erase_after(before_begin())] leaves [1]. *)
Lemma clear_differs_from_erase_after_before_begin :
  scenario false [1]%Z (fun l => clear false 100 l) = Done ([], 0%Z) ∅ /\
  scenario false [1]%Z (fun l => erase_after1 false 100 l (before_begin l))
  = Done ([1]%Z, 1%Z) ∅ /\
  ~ clear_like_erase_after_before_begin false [1]%Z /\
  ~ clear_like_erase_after_before_begin true [1]%Z.
Proof.
  unfold clear_like_erase_after_before_begin.
  repeat split; try (vm_compute; reflexivity);
    intros E; vm_compute in E; discriminate E.
Qed.

(** C8: every sequence of [push_back], [pop_front] and [pop_back] calls on
    a new list ends in a list whose traversal from [begin()] to [end()]
    prints the pushed elements that were not popped, in the order they
    were pushed, and whose [size()] is the number of pushes minus the
    number of pops that found an element; when the calls are pushes
    only, what is printed is the pushed sequence itself.  The number of
    calls is taken below [2^64], the range of [size_t]. *)
Theorem push_pop_sequence NDEBUG junk fuel (cs : list call) :
  length cs < fuel -> (Z.of_nat (length cs) < 2 ^ 64)%Z ->
  exists l h,
    run (l0 <- forward_list_new junk ;; do_calls NDEBUG junk fuel l0 cs) = Done l h /\
    printForwardList NDEBUG fuel l h = Done (after_calls [] cs) h /\
    size l = (Z.of_nat (pushes cs) - Z.of_nat (successful_pops [] cs))%Z /\
    (forall xs, cs = call_push_back <$> xs -> after_calls [] cs = xs).
Proof.
  intros Hf Hb. unfold run.
  destruct (forward_list_new_is_list junk ∅) as (l0 & h0 & hd & tl & E0 & I0 & _).
  assert (A1 : length (@nil cell) + length cs < fuel) by (simpl; lia).
  assert (A2 : (Z.of_nat (length (@nil cell) + length cs) < 2 ^ 64)%Z) by (simpl; lia).
  destruct (do_calls_is_list NDEBUG junk fuel cs h0 l0 hd [] tl I0 A1 A2)
    as (l & h & hd' & ns & tl' & E & I & El & Len).
  exists l, h. step E0. split; [done|]. split; [|split].
  - rewrite (printForwardList_is_list NDEBUG fuel h l hd' ns tl' I)
      by (simpl in Len; lia).
    by rewrite El.
  - destruct I as (_ & Hsz & _). unfold size. rewrite Hsz.
    pose proof (after_calls_length [] cs) as HL. simpl in HL.
    change (elems []) with (@nil Elem) in El.
    rewrite <- El, elems_length in HL. lia.
  - intros xs ->. apply after_pushes.
Qed.

Lemma push_pop_sequence_witness :
  (length example_calls < 20 /\ (Z.of_nat (length example_calls) < 2 ^ 64)%Z) /\
  exists l h,
    run (l0 <- forward_list_new 0%Z ;; do_calls false 0%Z 20 l0 example_calls)
    = Done l h /\
    printForwardList false 20 l h = Done (after_calls [] example_calls) h /\
    size l = (Z.of_nat (pushes example_calls)
              - Z.of_nat (successful_pops [] example_calls))%Z /\
    (forall xs, example_calls = call_push_back <$> xs ->
                after_calls [] example_calls = xs).
Proof.
  assert (H1 : length example_calls < 20) by (simpl; lia).
  assert (H2 : (Z.of_nat (length example_calls) < 2 ^ 64)%Z) by (simpl; lia).
  split; [exact (conj H1 H2)|].
  exact (push_pop_sequence false 0%Z 20 example_calls H1 H2).
Defined.

(** C9: on [1, 2] the const overload of [back] returns the cursor at the
    first element, whose successor is not [end()]; the mutable overload
    returns the cursor at 2, whose successor is [end()]. *)
Theorem back_const_returns_first NDEBUG :
  observe
    (run (l <- forward_list_of_array 0%Z [1; 2]%Z ;;
          it <- back_const l ;;
          x <- op_deref NDEBUG l it ;;
          n <- op_plus NDEBUG l it 1 ;;
          it' <- back NDEBUG 100 l ;;
          x' <- op_deref NDEBUG l it' ;;
          n' <- op_plus NDEBUG l it' 1 ;;
          ret (x, ptr_eqb n (end_ l), x', ptr_eqb n' (end_ l))))
  = Done (1%Z, false, 2%Z, true) ∅.
Proof. destruct NDEBUG; vm_compute; reflexivity. Qed.

(** C10: [remove_at] on a cursor that is not at a node holding an element
    of the list (so [end()], [before_begin()], a null cursor or a cursor
    into another list) reports [ok = false] and leaves the list and every
    node as they were; what it returns is the data of the tail
    sentinel. *)
Theorem remove_at_not_an_element NDEBUG fuel h l hd ns tl iter :
  is_list h l hd ns tl -> (forall n, n ∈ ns -> iter <> Some n.1) ->
  length ns < fuel ->
  remove_at NDEBUG fuel l iter h = Done (tl.2, false, l) h.
Proof.
  intros I Hit Hf. pose proof I as (C & _). unfold remove_at, cbefore_begin.
  rewrite (head_at l _ (proj2 C)).
  apply (remove_at_loop_not_found NDEBUG h l _ iter tl fuel 0 C).
  - intros j Hj E. rewrite chain_length in Hj.
    destruct j as [|j]; [lia|]. rewrite ptr_at_cons, ptr_at_app_l in E by lia.
    destruct (ptr_at_lt ns j ltac:(lia)) as (n & En & Pn).
    apply (Hit n); [by eapply list_elem_of_lookup_2|]. by rewrite <- E.
  - rewrite chain_length. replace (length ns + 2 - 1) with (length ns + 1) by lia.
    apply chain_last.
  - rewrite chain_length. lia.
  - rewrite chain_length. lia.
Qed.

Lemma remove_at_not_an_element_witness :
  (is_list example_heap example_list (0, 0%Z) example_cells (4, 0%Z) /\
   (forall n : cell, n ∈ example_cells -> end_ example_list <> Some n.1) /\
   length example_cells < 10) /\
  remove_at false 10 example_list (end_ example_list) example_heap
  = Done (0%Z, false, example_list) example_heap.
Proof.
  assert (H1 : is_list example_heap example_list (0, 0%Z) example_cells (4, 0%Z))
    by solve_is_list.
  assert (H2 : forall n : cell, n ∈ example_cells -> end_ example_list <> Some n.1).
  { intros n Hn. unfold example_cells in Hn.
    repeat (apply elem_of_cons in Hn as [->|Hn]; [simpl; congruence|]).
    by apply elem_of_nil in Hn. }
  assert (H3 : length example_cells < 10) by (simpl; lia).
  split; [exact (conj H1 (conj H2 H3))|].
  exact (remove_at_not_an_element false 10 example_heap example_list (0, 0%Z)
           example_cells (4, 0%Z) (end_ example_list) H1 H2 H3).
Defined.
(** * Further properties of the container *)

Lemma example_mixed_is_list :
  is_list example_mixed_heap example_mixed (0, 0%Z) example_mixed_cells (4, 0%Z).
Proof. solve_is_list. Qed.

(** X1: on a well-formed list [find(elem)] returns the cursor at the
    first element equal to [elem], and [end()] when no element is equal
    to it; the heap is not written. *)
Theorem find_first_occurrence NDEBUG fuel h l hd ns tl elem :
  is_list h l hd ns tl -> length ns < fuel ->
  exists k,
    find NDEBUG fuel l elem h = Done (ptr_at (ns ++ [tl]) k) h /\
    (elem ∉ take k (elems ns)) /\
    (elems ns !! k = Some elem \/
     (k = length ns /\ ptr_at (ns ++ [tl]) k = end_ l)).
Proof.
  intros I Hf. exists (first_index elem (elems ns)).
  split; [by apply (find_is_list NDEBUG fuel h l hd ns tl)|].
  destruct (decide (elem ∈ elems ns)) as [Hin|Hout].
  - destruct (first_index_found elem (elems ns) Hin) as [E N]. split; [done|by left].
  - rewrite (first_index_absent elem (elems ns) Hout), elems_length.
    split; [|right; split; [done|]].
    + by rewrite <- (elems_length ns), take_ge.
    + destruct (is_list_head _ _ _ _ _ I) as (_ & Ht & _). unfold end_. rewrite Ht.
      unfold ptr_at. by rewrite list_lookup_middle.
Qed.

Lemma find_first_occurrence_witness :
  (is_list example_heap example_list (0, 0%Z) example_cells (4, 0%Z) /\
   length example_cells < 10) /\
  exists k,
    find false 10 example_list 20%Z example_heap
    = Done (ptr_at (example_cells ++ [(4, 0%Z)]) k) example_heap /\
    (20%Z ∉ take k (elems example_cells)) /\
    (elems example_cells !! k = Some 20%Z \/
     (k = length example_cells /\
      ptr_at (example_cells ++ [(4, 0%Z)]) k = end_ example_list)).
Proof.
  assert (H1 : is_list example_heap example_list (0, 0%Z) example_cells (4, 0%Z))
    by solve_is_list.
  assert (H2 : length example_cells < 10) by (simpl; lia).
  split; [exact (conj H1 H2)|].
  exact (find_first_occurrence false 10 example_heap example_list (0, 0%Z)
           example_cells (4, 0%Z) 20%Z H1 H2).
Defined.

(** X2: [contains(elem)] answers whether [elem] is an element of the
    list. *)
Theorem contains_iff_element NDEBUG fuel h l hd ns tl elem :
  is_list h l hd ns tl -> length ns < fuel ->
  contains NDEBUG fuel l elem h = Done (bool_decide (elem ∈ elems ns)) h.
Proof. apply contains_is_list. Qed.

Lemma contains_iff_element_witness :
  (is_list example_heap example_list (0, 0%Z) example_cells (4, 0%Z) /\
   length example_cells < 10) /\
  contains false 10 example_list 30%Z example_heap
  = Done (bool_decide (30%Z ∈ elems example_cells)) example_heap.
Proof.
  assert (H1 : is_list example_heap example_list (0, 0%Z) example_cells (4, 0%Z))
    by solve_is_list.
  assert (H2 : length example_cells < 10) by (simpl; lia).
  split; [exact (conj H1 H2)|].
  exact (contains_iff_element false 10 example_heap example_list (0, 0%Z)
           example_cells (4, 0%Z) 30%Z H1 H2).
Defined.

(** X3: [count(elem)] returns the number of elements equal to [elem]. *)
Theorem count_occurrences NDEBUG fuel h l hd ns tl elem :
  is_list h l hd ns tl -> length ns < fuel ->
  count NDEBUG fuel l elem h
  = Done (Z.of_nat (length (filter (fun x => x = elem) (elems ns)))) h.
Proof. apply count_is_list. Qed.

Lemma count_occurrences_witness :
  (is_list example_heap example_list (0, 0%Z) example_cells (4, 0%Z) /\
   length example_cells < 10) /\
  count false 10 example_list 20%Z example_heap
  = Done (Z.of_nat (length (filter (fun x => x = 20%Z) (elems example_cells))))
      example_heap.
Proof.
  assert (H1 : is_list example_heap example_list (0, 0%Z) example_cells (4, 0%Z))
    by solve_is_list.
  assert (H2 : length example_cells < 10) by (simpl; lia).
  split; [exact (conj H1 H2)|].
  exact (count_occurrences false 10 example_heap example_list (0, 0%Z)
           example_cells (4, 0%Z) 20%Z H1 H2).
Defined.

(** X4: [assign(iter, elem)] with [iter] at the [k]-th element writes
    [elem] there: the other elements, the nodes and the size stay as they
    were, in both builds. *)
Theorem assign_replaces_element NDEBUG h l hd ns tl k n elem :
  is_list h l hd ns tl -> ns !! k = Some n ->
  exists h',
    assign NDEBUG l (ptr_at ns k) elem h = Done tt h' /\
    is_list h' l hd (<[k := (n.1, elem)]> ns) tl /\
    elems (<[k := (n.1, elem)]> ns) = <[k := elem]> (elems ns) /\
    (forall a, a <> n.1 -> h' !! a = h !! a).
Proof.
  intros I En.
  destruct (assign_is_list NDEBUG h l hd ns tl k n elem I En) as (h' & E & I' & F).
  exists h'. split; [done|]. split; [done|]. split; [apply elems_insert|done].
Qed.

Lemma assign_replaces_element_witness :
  (is_list example_heap example_list (0, 0%Z) example_cells (4, 0%Z) /\
   example_cells !! 1 = Some (2, 20%Z)) /\
  exists h',
    assign false example_list (ptr_at example_cells 1) 7%Z example_heap
    = Done tt h' /\
    is_list h' example_list (0, 0%Z) (<[1 := (2, 7%Z)]> example_cells) (4, 0%Z) /\
    elems (<[1 := (2, 7%Z)]> example_cells) = <[1 := 7%Z]> (elems example_cells) /\
    (forall a, a <> 2 -> h' !! a = example_heap !! a).
Proof.
  assert (H1 : is_list example_heap example_list (0, 0%Z) example_cells (4, 0%Z))
    by solve_is_list.
  assert (H2 : example_cells !! 1 = Some (2, 20%Z)) by reflexivity.
  split; [exact (conj H1 H2)|].
  exact (assign_replaces_element false example_heap example_list (0, 0%Z)
           example_cells (4, 0%Z) 1 (2, 20%Z) 7%Z H1 H2).
Defined.

(** X5: [insert_after(iter, elem, n)] with [iter] at [before_begin()]
    ([k = 0]) or at the [k]-th element puts [n] copies of [elem] right
    behind it; the elements before and behind keep their order, and the
    size grows by [n]. *)
Theorem insert_after_at_cursor NDEBUG junk fuel h l hd ns tl k elem n :
  is_list h l hd ns tl -> k <= length ns -> (0 <= n)%Z ->
  (Z.of_nat (length ns) + n < 2 ^ 64)%Z -> length ns + Z.to_nat n + 2 <= fuel ->
  exists l' h' ns' tl',
    insert_after_n NDEBUG junk fuel l (ptr_at (hd :: ns) k) elem n h = Done l' h' /\
    is_list h' l' hd ns' tl' /\
    elems ns' = take k (elems ns) ++ replicate (Z.to_nat n) elem ++ drop k (elems ns) /\
    size l' = (size l + n)%Z.
Proof.
  intros I Hk Hn Hfit Hf.
  destruct (insert_after_n_is_list NDEBUG junk fuel h l hd ns tl k elem n
              I Hk Hn Hfit Hf) as (l' & h' & ns' & tl' & E & I' & El).
  exists l', h', ns', tl'. split; [done|]. split; [done|]. split; [done|].
  destruct I as (_ & Hsz & _). destruct I' as (_ & Hsz' & _).
  unfold size. rewrite Hsz, Hsz', <- (elems_length ns'), El.
  rewrite !length_app, length_take, length_replicate, length_drop, elems_length. lia.
Qed.

Lemma insert_after_at_cursor_witness :
  (is_list example_heap example_list (0, 0%Z) example_cells (4, 0%Z) /\
   1 <= length example_cells /\ (0 <= 2)%Z /\
   (Z.of_nat (length example_cells) + 2 < 2 ^ 64)%Z /\
   length example_cells + Z.to_nat 2 + 2 <= 10) /\
  exists l' h' ns' tl',
    insert_after_n false 0%Z 10 example_list (ptr_at ((0, 0%Z) :: example_cells) 1)
      7%Z 2 example_heap = Done l' h' /\
    is_list h' l' (0, 0%Z) ns' tl' /\
    elems ns' = take 1 (elems example_cells) ++ replicate (Z.to_nat 2) 7%Z
                ++ drop 1 (elems example_cells) /\
    size l' = (size example_list + 2)%Z.
Proof.
  assert (H1 : is_list example_heap example_list (0, 0%Z) example_cells (4, 0%Z))
    by solve_is_list.
  assert (H2 : 1 <= length example_cells) by (simpl; lia).
  assert (H3 : (0 <= 2)%Z) by lia.
  assert (H4 : (Z.of_nat (length example_cells) + 2 < 2 ^ 64)%Z) by (simpl; lia).
  assert (H5 : length example_cells + Z.to_nat 2 + 2 <= 10) by (simpl; lia).
  split; [exact (conj H1 (conj H2 (conj H3 (conj H4 H5))))|].
  exact (insert_after_at_cursor false 0%Z 10 example_heap example_list (0, 0%Z)
           example_cells (4, 0%Z) 1 7%Z 2 H1 H2 H3 H4 H5).
Defined.

(** X6: [insert_after(iter, elem, n)] with a cursor that is neither
    [before_begin()] nor at an element of the list, so [end()], a null
    cursor or a cursor into another list, pushes the [n] copies at the
    back. *)
Theorem insert_after_unknown_cursor NDEBUG junk fuel h l hd ns tl iter elem n :
  is_list h l hd ns tl -> iter ∉ (Some <$> (hd :: ns).*1) -> (0 <= n)%Z ->
  (Z.of_nat (length ns) + n < 2 ^ 64)%Z -> length ns + Z.to_nat n + 2 <= fuel ->
  exists l' h' ns' tl',
    insert_after_n NDEBUG junk fuel l iter elem n h = Done l' h' /\
    is_list h' l' hd ns' tl' /\
    elems ns' = elems ns ++ replicate (Z.to_nat n) elem.
Proof.
  intros I Hit Hn Hfit Hf.
  destruct (insert_after_n_outer NDEBUG junk fuel h l hd ns tl iter elem n I)
    as (l' & h' & ns' & tl' & E & I' & El); try done.
  - intros j Hj Eq. apply Hit. rewrite <- Eq. unfold ptr_at.
    destruct (lookup_lt_is_Some_2 (hd :: ns) j ltac:(simpl; lia)) as [x Ex].
    rewrite Ex. change (Some x.1 ∈ Some <$> (hd :: ns).*1).
    apply list_elem_of_fmap. exists x.1. split; [done|].
    apply list_elem_of_fmap. exists x. split; [done|].
    by eapply list_elem_of_lookup_2.
  - exists l', h', (ns ++ ns'), tl'. split; [done|]. split; [done|].
    by rewrite elems_app, El.
Qed.

Lemma insert_after_unknown_cursor_witness :
  (is_list example_heap example_list (0, 0%Z) example_cells (4, 0%Z) /\
   (end_ example_list ∉ (Some <$> ((0, 0%Z) :: example_cells).*1)) /\ (0 <= 2)%Z /\
   (Z.of_nat (length example_cells) + 2 < 2 ^ 64)%Z /\
   length example_cells + Z.to_nat 2 + 2 <= 10) /\
  exists l' h' ns' tl',
    insert_after_n false 0%Z 10 example_list (end_ example_list) 7%Z 2 example_heap
    = Done l' h' /\
    is_list h' l' (0, 0%Z) ns' tl' /\
    elems ns' = elems example_cells ++ replicate (Z.to_nat 2) 7%Z.
Proof.
  assert (H1 : is_list example_heap example_list (0, 0%Z) example_cells (4, 0%Z))
    by solve_is_list.
  assert (H2 : end_ example_list ∉ (Some <$> ((0, 0%Z) :: example_cells).*1))
    by (by apply (bool_decide_unpack _)).
  assert (H3 : (0 <= 2)%Z) by lia.
  assert (H4 : (Z.of_nat (length example_cells) + 2 < 2 ^ 64)%Z) by (simpl; lia).
  assert (H5 : length example_cells + Z.to_nat 2 + 2 <= 10) by (simpl; lia).
  split; [exact (conj H1 (conj H2 (conj H3 (conj H4 H5))))|].
  exact (insert_after_unknown_cursor false 0%Z 10 example_heap example_list (0, 0%Z)
           example_cells (4, 0%Z) (end_ example_list) 7%Z 2 H1 H2 H3 H4 H5).
Defined.

(** X7: [push_front(elem)] puts [elem] in front of the elements, also on
    the empty list. *)
Theorem push_front_prepends NDEBUG junk fuel h l hd ns tl elem :
  is_list h l hd ns tl -> (Z.of_nat (length ns) + 1 < 2 ^ 64)%Z ->
  length ns + 3 <= fuel ->
  exists l' h' ns' tl',
    push_front NDEBUG junk fuel l elem h = Done l' h' /\
    is_list h' l' hd ns' tl' /\ elems ns' = elem :: elems ns.
Proof.
  intros I Hfit Hf.
  destruct (insert_after_n_is_list NDEBUG junk fuel h l hd ns tl 0 elem 1 I)
    as (l' & h' & ns' & tl' & E & I' & El); try lia.
  exists l', h', ns', tl'. split; [|split; [done|]].
  - unfold push_front, insert_after.
    destruct (is_list_head _ _ _ _ _ I) as (Hh & _). rewrite Hh. exact E.
  - rewrite El. simpl. by rewrite drop_0.
Qed.

Lemma push_front_prepends_witness :
  (is_list example_heap example_list (0, 0%Z) example_cells (4, 0%Z) /\
   (Z.of_nat (length example_cells) + 1 < 2 ^ 64)%Z /\
   length example_cells + 3 <= 10) /\
  exists l' h' ns' tl',
    push_front false 0%Z 10 example_list 7%Z example_heap = Done l' h' /\
    is_list h' l' (0, 0%Z) ns' tl' /\ elems ns' = 7%Z :: elems example_cells.
Proof.
  assert (H1 : is_list example_heap example_list (0, 0%Z) example_cells (4, 0%Z))
    by solve_is_list.
  assert (H2 : (Z.of_nat (length example_cells) + 1 < 2 ^ 64)%Z) by (simpl; lia).
  assert (H3 : length example_cells + 3 <= 10) by (simpl; lia).
  split; [exact (conj H1 (conj H2 H3))|].
  exact (push_front_prepends false 0%Z 10 example_heap example_list (0, 0%Z)
           example_cells (4, 0%Z) 7%Z H1 H2 H3).
Defined.

(** X8: [remove_at(iter, &ok)] with [iter] at the [k]-th element returns
    that element, sets [ok], and unlinks the node: the other elements
    keep their order and the size drops by one.  The node is not freed:
    it stays in the heap as it was, in both builds. *)
Theorem remove_at_element NDEBUG fuel h l hd ns tl k n :
  is_list h l hd ns tl -> ns !! k = Some n -> length ns < fuel ->
  exists l' h',
    remove_at NDEBUG fuel l (ptr_at ns k) h = Done (n.2, true, l') h' /\
    is_list h' l' hd (take k ns ++ drop (S k) ns) tl /\
    size l' = (size l - 1)%Z /\
    h' !! n.1 = h !! n.1.
Proof.
  intros I En Hf.
  destruct (remove_at_is_list NDEBUG fuel h l hd ns tl k n I En Hf)
    as (l' & h' & E & I' & F).
  exists l', h'. split; [done|]. split; [done|]. split; [|done].
  destruct I as (_ & Hsz & _). destruct I' as (_ & Hsz' & _).
  unfold size. rewrite Hsz, Hsz', length_app, length_take, length_drop.
  apply lookup_lt_Some in En. lia.
Qed.

Lemma remove_at_element_witness :
  (is_list example_heap example_list (0, 0%Z) example_cells (4, 0%Z) /\
   example_cells !! 1 = Some (2, 20%Z) /\ length example_cells < 10) /\
  exists l' h',
    remove_at false 10 example_list (ptr_at example_cells 1) example_heap
    = Done (20%Z, true, l') h' /\
    is_list h' l' (0, 0%Z) (take 1 example_cells ++ drop 2 example_cells) (4, 0%Z) /\
    size l' = (size example_list - 1)%Z /\
    h' !! 2 = example_heap !! 2.
Proof.
  assert (H1 : is_list example_heap example_list (0, 0%Z) example_cells (4, 0%Z))
    by solve_is_list.
  assert (H2 : example_cells !! 1 = Some (2, 20%Z)) by reflexivity.
  assert (H3 : length example_cells < 10) by (simpl; lia).
  split; [exact (conj H1 (conj H2 H3))|].
  exact (remove_at_element false 10 example_heap example_list (0, 0%Z)
           example_cells (4, 0%Z) 1 (2, 20%Z) H1 H2 H3).
Defined.

(** X9: [sorted(is_ascending)] returns true exactly when every element
    is at most its successor (for [ASCENDING]) or at least its successor
    (for [DESCENDING]); lists of fewer than two elements are sorted. *)
Theorem sorted_decides_order NDEBUG fuel h l hd ns tl asc :
  is_list h l hd ns tl -> length ns < fuel ->
  exists b,
    sorted NDEBUG fuel l asc h = Done b h /\
    (b = true <->
     forall i x y, elems ns !! i = Some x -> elems ns !! S i = Some y ->
                   if asc then (x <= y)%Z else (y <= x)%Z).
Proof.
  intros I Hf. exists (is_sorted asc (elems ns)).
  split; [by apply (sorted_decides NDEBUG fuel h l hd ns tl)|apply is_sorted_spec].
Qed.

Lemma sorted_decides_order_witness :
  (is_list example_mixed_heap example_mixed (0, 0%Z) example_mixed_cells (4, 0%Z) /\
   length example_mixed_cells < 10) /\
  exists b,
    sorted false 10 example_mixed true example_mixed_heap
    = Done b example_mixed_heap /\
    (b = true <->
     forall i x y, elems example_mixed_cells !! i = Some x ->
                   elems example_mixed_cells !! S i = Some y ->
                   if true then (x <= y)%Z else (y <= x)%Z).
Proof.
  assert (H1 : is_list example_mixed_heap example_mixed (0, 0%Z) example_mixed_cells
                 (4, 0%Z)) by solve_is_list.
  assert (H2 : length example_mixed_cells < 10) by (simpl; lia).
  split; [exact (conj H1 H2)|].
  exact (sorted_decides_order false 10 example_mixed_heap example_mixed (0, 0%Z)
           example_mixed_cells (4, 0%Z) true H1 H2).
Defined.

(** X10: the copy made by the constructor from a list holds the same
    elements in the same order, in nodes that are all new in the heap;
    the source list and every other node stay as they were. *)
Theorem copy_has_the_elements NDEBUG junk fuel h list_ hd ns tl :
  is_list h list_ hd ns tl -> length ns + 1 < fuel ->
  exists l' h' hd' ns' tl',
    forward_list_copy NDEBUG junk fuel list_ h = Done l' h' /\
    is_list h' l' hd' ns' tl' /\ elems ns' = elems ns /\
    outside h (hd' :: ns' ++ [tl']) /\
    extends h h' /\ is_list h' list_ hd ns tl.
Proof.
  intros I Hf.
  destruct (forward_list_copy_is_list NDEBUG junk fuel h list_ hd ns tl I Hf)
    as (l' & h' & hd' & ns' & tl' & E & X & I' & O & El).
  exists l', h', hd', ns', tl'. split; [done|]. split; [done|]. split; [done|].
  split; [done|]. split; [done|]. by apply (is_list_extends h).
Qed.

Lemma copy_has_the_elements_witness :
  (is_list example_heap example_list (0, 0%Z) example_cells (4, 0%Z) /\
   length example_cells + 1 < 10) /\
  exists l' h' hd' ns' tl',
    forward_list_copy false 0%Z 10 example_list example_heap = Done l' h' /\
    is_list h' l' hd' ns' tl' /\ elems ns' = elems example_cells /\
    outside example_heap (hd' :: ns' ++ [tl']) /\
    extends example_heap h' /\
    is_list h' example_list (0, 0%Z) example_cells (4, 0%Z).
Proof.
  assert (H1 : is_list example_heap example_list (0, 0%Z) example_cells (4, 0%Z))
    by solve_is_list.
  assert (H2 : length example_cells + 1 < 10) by (simpl; lia).
  split; [exact (conj H1 H2)|].
  exact (copy_has_the_elements false 0%Z 10 example_heap example_list (0, 0%Z)
           example_cells (4, 0%Z) H1 H2).
Defined.

(** X11: the destructor in the fast build frees every node of the list,
    the two sentinels included, and no other node; in the checked build
    it frees nothing: every node of the list stays in the heap, and only
    the link of the head sentinel is written. *)
Theorem destructor_frees_in_fast_build_only NDEBUG fuel h l hd ns tl :
  is_list h l hd ns tl -> length ns + 2 <= fuel ->
  exists h',
    forward_list_destroy NDEBUG fuel l h = Done tt h' /\
    (forall a, a ∉ (hd :: ns ++ [tl]).*1 -> h' !! a = h !! a) /\
    (forall a, a ∈ (hd :: ns ++ [tl]).*1 ->
       if NDEBUG then h' !! a = None
       else is_Some (h' !! a) /\ (a <> hd.1 -> h' !! a = h !! a)).
Proof. apply forward_list_destroy_is_list. Qed.

Lemma destructor_frees_in_fast_build_only_witness :
  (is_list example_heap example_list (0, 0%Z) example_cells (4, 0%Z) /\
   length example_cells + 2 <= 10) /\
  exists h',
    forward_list_destroy true 10 example_list example_heap = Done tt h' /\
    (forall a, a ∉ ((0, 0%Z) :: example_cells ++ [(4, 0%Z)]).*1 ->
               h' !! a = example_heap !! a) /\
    (forall a, a ∈ ((0, 0%Z) :: example_cells ++ [(4, 0%Z)]).*1 ->
       if true then h' !! a = None
       else is_Some (h' !! a) /\ (a <> 0 -> h' !! a = example_heap !! a)).
Proof.
  assert (H1 : is_list example_heap example_list (0, 0%Z) example_cells (4, 0%Z))
    by solve_is_list.
  assert (H2 : length example_cells + 2 <= 10) by (simpl; lia).
  split; [exact (conj H1 H2)|].
  exact (destructor_frees_in_fast_build_only true 10 example_heap example_list
           (0, 0%Z) example_cells (4, 0%Z) H1 H2).
Defined.

(** X12: [erase_after(iter1)] with [iter1] at the [k]-th element frees
    the erased nodes in the fast build only; in the checked build they
    stay in the heap as they were, out of reach of the list.  [clear()]
    is the case [k = 0]. *)
Theorem erase_after_frees_in_fast_build_only NDEBUG fuel h l hd ns tl k :
  is_list h l hd ns tl -> k < length ns -> length ns + 2 <= fuel ->
  exists l' h',
    erase_after1 NDEBUG fuel l (ptr_at ns k) h = Done l' h' /\
    is_list h' l' hd (take k ns) tl /\
    (forall a, a ∈ (drop k ns).*1 -> h' !! a = if NDEBUG then None else h !! a) /\
    (k = 0 -> clear NDEBUG fuel l h = Done l' h').
Proof.
  intros I Hk Hf.
  destruct (lookup_lt_is_Some_2 (hd :: ns) k ltac:(simpl; lia)) as [x Ex].
  destruct (erase_after1_heap NDEBUG fuel h l hd ns tl k x I Ex Hk Hf)
    as (l' & h' & E & I' & _ & _ & _ & Hin & _).
  exists l', h'. split; [done|]. split; [done|]. split; [done|].
  intros ->. unfold clear, cbegin.
  destruct (is_list_head _ _ _ _ _ I) as (Hh & _ & Hhd & _). rewrite Hh.
  step ((get_succ_Some _ _ _ Hhd)). cbn [succ].
  destruct ns as [|n ns]; [simpl in Hk; lia|]. exact E.
Qed.

Lemma erase_after_frees_in_fast_build_only_witness :
  (is_list example_heap example_list (0, 0%Z) example_cells (4, 0%Z) /\
   0 < length example_cells /\ length example_cells + 2 <= 10) /\
  exists l' h',
    erase_after1 false 10 example_list (ptr_at example_cells 0) example_heap
    = Done l' h' /\
    is_list h' l' (0, 0%Z) (take 0 example_cells) (4, 0%Z) /\
    (forall a, a ∈ (drop 0 example_cells).*1 ->
               h' !! a = if false then None else example_heap !! a) /\
    (0 = 0 -> clear false 10 example_list example_heap = Done l' h').
Proof.
  assert (H1 : is_list example_heap example_list (0, 0%Z) example_cells (4, 0%Z))
    by solve_is_list.
  assert (H2 : 0 < length example_cells) by (simpl; lia).
  assert (H3 : length example_cells + 2 <= 10) by (simpl; lia).
  split; [exact (conj H1 (conj H2 H3))|].
  exact (erase_after_frees_in_fast_build_only false 10 example_heap example_list
           (0, 0%Z) example_cells (4, 0%Z) 0 H1 H2 H3).
Defined.

(** X13: [link(other)] in the checked build appends the elements of
    [other] to the receiver, in their order; the size is the sum of both
    sizes.  The nodes linked in are those of a copy, new in the heap, but
    for the old tail sentinel of the receiver, which takes the first of
    the appended elements. *)
Theorem link_checked_build junk fuel h l list_ hd ns tl hd' ns' tl' :
  is_list h l hd ns tl -> is_list h list_ hd' ns' tl' ->
  (Z.of_nat (length ns + length ns') < 2 ^ 64)%Z -> length ns' + 2 <= fuel ->
  exists l' h' ms tl1,
    link false junk fuel l list_ h = Done l' h' /\
    is_list h' l' hd (ns ++ ms) tl1 /\
    elems (ns ++ ms) = elems ns ++ elems ns' /\
    size l' = (size l + size list_)%Z /\
    (forall n, n ∈ ms -> n.1 = tl.1 \/ h !! n.1 = None).
Proof.
  intros I Io Hfit Hf.
  destruct (link_is_list junk fuel h l list_ hd ns tl hd' ns' tl' I Io Hfit Hf)
    as (l' & h' & ms & tl1 & E & I' & El & O).
  exists l', h', ms, tl1. split; [done|]. split; [done|].
  split; [by rewrite elems_app, El|]. split; [|done].
  destruct I as (_ & Hsz & _). destruct Io as (_ & Hszo & _).
  destruct I' as (_ & Hsz' & _). unfold size. rewrite Hsz, Hszo, Hsz', length_app.
  rewrite <- (elems_length ms), El, elems_length. lia.
Qed.

Lemma link_checked_build_witness :
  (is_list example_heap example_list (0, 0%Z) example_cells (4, 0%Z) /\
   is_list example_heap example_other (5, 0%Z) example_other_cells (8, 0%Z) /\
   (Z.of_nat (length example_cells + length example_other_cells) < 2 ^ 64)%Z /\
   length example_other_cells + 2 <= 10) /\
  exists l' h' ms tl1,
    link false 0%Z 10 example_list example_other example_heap = Done l' h' /\
    is_list h' l' (0, 0%Z) (example_cells ++ ms) tl1 /\
    elems (example_cells ++ ms) = elems example_cells ++ elems example_other_cells /\
    size l' = (size example_list + size example_other)%Z /\
    (forall n : cell, n ∈ ms -> n.1 = 4 \/ example_heap !! n.1 = None).
Proof.
  assert (H1 : is_list example_heap example_list (0, 0%Z) example_cells (4, 0%Z))
    by solve_is_list.
  assert (H2 : is_list example_heap example_other (5, 0%Z) example_other_cells (8, 0%Z))
    by solve_is_list.
  assert (H3 : (Z.of_nat (length example_cells + length example_other_cells)
                < 2 ^ 64)%Z) by (simpl; lia).
  assert (H4 : length example_other_cells + 2 <= 10) by (simpl; lia).
  split; [exact (conj H1 (conj H2 (conj H3 H4)))|].
  exact (link_checked_build 0%Z 10 example_heap example_list example_other (0, 0%Z)
           example_cells (4, 0%Z) (5, 0%Z) example_other_cells (8, 0%Z) H1 H2 H3 H4).
Defined.

(** X14: [link(other)] in the fast build, for a non-empty [other],
    returns with the receiver's tail sentinel freed: the destructor of
    the local copy has deleted the nodes that were just linked in, and a
    [push_back] on the receiver then writes to a freed node. *)
Theorem link_fast_build_frees_the_tail junk fuel h l list_ hd ns tl hd' ns' tl' :
  is_list h l hd ns tl -> is_list h list_ hd' ns' tl' -> 0 < length ns' ->
  length ns' + 2 <= fuel ->
  exists l' h' t,
    link true junk fuel l list_ h = Done l' h' /\
    tail l' = Some t /\ h' !! t = None /\
    (forall x, push_back junk l' x h' = Undefined).
Proof.
  intros I Io Hlen Hf.
  destruct (link_frees_tail junk fuel h l list_ hd ns tl hd' ns' tl' I Io Hlen Hf)
    as (l' & h' & t & E & Ht & Hn).
  exists l', h', t. split; [done|]. split; [done|]. split; [done|].
  intros x. unfold push_back, bind, set_data, bind, load. by rewrite Ht, Hn.
Qed.

Lemma link_fast_build_frees_the_tail_witness :
  (is_list example_heap example_list (0, 0%Z) example_cells (4, 0%Z) /\
   is_list example_heap example_other (5, 0%Z) example_other_cells (8, 0%Z) /\
   0 < length example_other_cells /\ length example_other_cells + 2 <= 10) /\
  exists l' h' t,
    link true 0%Z 10 example_list example_other example_heap = Done l' h' /\
    tail l' = Some t /\ h' !! t = None /\
    (forall x, push_back 0%Z l' x h' = Undefined).
Proof.
  assert (H1 : is_list example_heap example_list (0, 0%Z) example_cells (4, 0%Z))
    by solve_is_list.
  assert (H2 : is_list example_heap example_other (5, 0%Z) example_other_cells (8, 0%Z))
    by solve_is_list.
  assert (H3 : 0 < length example_other_cells) by (simpl; lia).
  assert (H4 : length example_other_cells + 2 <= 10) by (simpl; lia).
  split; [exact (conj H1 (conj H2 (conj H3 H4)))|].
  exact (link_fast_build_frees_the_tail 0%Z 10 example_heap example_list example_other
           (0, 0%Z) example_cells (4, 0%Z) (5, 0%Z) example_other_cells (8, 0%Z)
           H1 H2 H3 H4).
Defined.

(** X15: on a list of two elements or more in which no element equals
    its right neighbour, but for the last two, which may be equal (and
    which is ascending, where the checked build tests that), [unique()]
    removes the last element when it equals the one before it and
    changes nothing else. *)
Theorem unique_without_inner_duplicates NDEBUG fuel h l hd ns0 a b tl :
  is_list h l hd (ns0 ++ [a; b]) tl ->
  no_equal_neighbours (elems (ns0 ++ [a])) = true ->
  (NDEBUG = false -> is_sorted true (elems (ns0 ++ [a; b])) = true) ->
  length ns0 + 4 <= fuel ->
  exists l' h',
    unique NDEBUG fuel l h = Done l' h' /\
    is_list h' l' hd (if (a.2 =? b.2)%Z then ns0 ++ [a] else ns0 ++ [a; b]) tl.
Proof. apply unique_is_list. Qed.

Lemma unique_without_inner_duplicates_witness :
  (is_list example_heap example_list (0, 0%Z) ([(1, 10%Z)] ++ [(2, 20%Z); (3, 30%Z)])
     (4, 0%Z) /\
   no_equal_neighbours (elems ([(1, 10%Z)] ++ [(2, 20%Z)])) = true /\
   (false = false ->
    is_sorted true (elems ([(1, 10%Z)] ++ [(2, 20%Z); (3, 30%Z)])) = true) /\
   length [(1, 10%Z)] + 4 <= 10) /\
  exists l' h',
    unique false 10 example_list example_heap = Done l' h' /\
    is_list h' l' (0, 0%Z)
      (if ((2, 20%Z).2 =? (3, 30%Z).2)%Z then [(1, 10%Z)] ++ [(2, 20%Z)]
       else [(1, 10%Z)] ++ [(2, 20%Z); (3, 30%Z)]) (4, 0%Z).
Proof.
  assert (H1 : is_list example_heap example_list (0, 0%Z)
                 ([(1, 10%Z)] ++ [(2, 20%Z); (3, 30%Z)]) (4, 0%Z)) by solve_is_list.
  assert (H2 : no_equal_neighbours (elems ([(1, 10%Z)] ++ [(2, 20%Z)])) = true)
    by reflexivity.
  assert (H3 : false = false ->
               is_sorted true (elems ([(1, 10%Z)] ++ [(2, 20%Z); (3, 30%Z)])) = true)
    by reflexivity.
  assert (H4 : length [(1, 10%Z)] + 4 <= 10) by (simpl; lia).
  split; [exact (conj H1 (conj H2 (conj H3 H4)))|].
  exact (unique_without_inner_duplicates false 10 example_heap example_list (0, 0%Z)
           [(1, 10%Z)] (2, 20%Z) (3, 30%Z) (4, 0%Z) H1 H2 H3 H4).
Defined.

(** X16: both overloads of [erase_after] leave the list and the heap as
    they were when [iter1] is not at an element of the list, so for
    [end()], [before_begin()], a null cursor or a cursor into another
    list. *)
Theorem erase_after_not_an_element NDEBUG fuel h l hd ns tl iter1 iter2 :
  is_list h l hd ns tl -> (forall n, n ∈ ns -> iter1 <> Some n.1) ->
  length ns + 1 < fuel ->
  erase_after1 NDEBUG fuel l iter1 h = Done l h /\
  erase_after2 NDEBUG fuel l iter1 iter2 h = Done l h.
Proof.
  intros I Hit Hf. pose proof I as (C & _).
  assert (Hj : forall j, 0 < j < length (hd :: ns ++ [tl]) - 1 ->
                 ptr_at (hd :: ns ++ [tl]) j <> iter1).
  { intros j Hj E. rewrite chain_length in Hj.
    destruct j as [|j]; [lia|]. rewrite ptr_at_cons, ptr_at_app_l in E by lia.
    destruct (ptr_at_lt ns j ltac:(lia)) as (n & En & Pn).
    apply (Hit n); [by eapply list_elem_of_lookup_2|]. by rewrite <- E. }
  unfold erase_after1, erase_after2. destruct (empty l); [done|].
  unfold cbefore_begin. rewrite (head_at l _ (proj2 C)). split.
  - apply (erase_after1_loop_not_found NDEBUG h l _ iter1 (cend l) fuel C Hj);
      rewrite chain_length; lia.
  - apply (erase_after2_loop_not_found NDEBUG h l _ iter1 iter2 fuel C Hj);
      rewrite chain_length; lia.
Qed.

Lemma erase_after_not_an_element_witness :
  (is_list example_heap example_list (0, 0%Z) example_cells (4, 0%Z) /\
   (forall n : cell, n ∈ example_cells -> before_begin example_list <> Some n.1) /\
   length example_cells + 1 < 10) /\
  erase_after1 false 10 example_list (before_begin example_list) example_heap
  = Done example_list example_heap /\
  erase_after2 false 10 example_list (before_begin example_list)
    (end_ example_list) example_heap
  = Done example_list example_heap.
Proof.
  assert (H1 : is_list example_heap example_list (0, 0%Z) example_cells (4, 0%Z))
    by solve_is_list.
  assert (H2 : forall n : cell, n ∈ example_cells ->
                 before_begin example_list <> Some n.1).
  { intros n Hn. unfold example_cells in Hn.
    repeat (apply elem_of_cons in Hn as [->|Hn]; [simpl; congruence|]).
    by apply elem_of_nil in Hn. }
  assert (H3 : length example_cells + 1 < 10) by (simpl; lia).
  split; [exact (conj H1 (conj H2 H3))|].
  exact (erase_after_not_an_element false 10 example_heap example_list (0, 0%Z)
           example_cells (4, 0%Z) (before_begin example_list) (end_ example_list)
           H1 H2 H3).
Defined.

(** X17: the mutable [back()] returns the cursor at the last element,
    one step before [end()]; on the empty list that is
    [before_begin()]. *)
Theorem back_is_last_element NDEBUG fuel h l hd ns tl :
  is_list h l hd ns tl -> length ns < fuel ->
  back NDEBUG fuel l h = Done (ptr_at (hd :: ns) (length ns)) h /\
  op_plus NDEBUG l (ptr_at (hd :: ns) (length ns)) 1 h = Done (end_ l) h /\
  (ns = [] -> ptr_at (hd :: ns) (length ns) = before_begin l).
Proof.
  intros I Hf. pose proof I as (C & _).
  split; [by apply (back_cursor NDEBUG fuel h l hd ns tl)|]. split.
  - assert (E : ptr_at (hd :: ns) (length ns) = ptr_at (hd :: ns ++ [tl]) (length ns)).
    { rewrite app_comm_cons. symmetry. apply ptr_at_app_l. simpl. lia. }
    rewrite E.
    rewrite (op_plus_chain NDEBUG l _ (proj2 C) h (length ns) 1 (proj1 C))
      by (rewrite chain_length; lia).
    unfold end_. rewrite (proj1 (proj2 (proj2 (proj2 C)))), chain_length.
    do 2 f_equal. lia.
  - intros ->. destruct (is_list_head _ _ _ _ _ I) as (Hh & _).
    unfold before_begin. by rewrite Hh.
Qed.

Lemma back_is_last_element_witness :
  (is_list example_heap example_list (0, 0%Z) example_cells (4, 0%Z) /\
   length example_cells < 10) /\
  back false 10 example_list example_heap
  = Done (ptr_at ((0, 0%Z) :: example_cells) (length example_cells)) example_heap /\
  op_plus false example_list
    (ptr_at ((0, 0%Z) :: example_cells) (length example_cells)) 1 example_heap
  = Done (end_ example_list) example_heap /\
  (example_cells = [] ->
   ptr_at ((0, 0%Z) :: example_cells) (length example_cells)
   = before_begin example_list).
Proof.
  assert (H1 : is_list example_heap example_list (0, 0%Z) example_cells (4, 0%Z))
    by solve_is_list.
  assert (H2 : length example_cells < 10) by (simpl; lia).
  split; [exact (conj H1 H2)|].
  exact (back_is_last_element false 10 example_heap example_list (0, 0%Z)
           example_cells (4, 0%Z) H1 H2).
Defined.

(** X18: the list built by the constructor from two pointers [arr + b]
    and [arr + e] into an array, [b <= e], holds the elements of the
    array from [b] up to [e], in their order: traversing it from
    [begin()] to [end()] reads them back, [size()] is [e - b], and
    [empty()] tells whether [b = e].  The nodes that were in the heap
    stay as they were.  With a null [i_beg] or a null [i_end] the checked
    build throws the null-pointer error; the fast build has no such
    check, and two null pointers give it the empty list. *)
Theorem array_constructor_round_trip NDEBUG junk fuel h arr b e :
  b <= e <= length arr -> (Z.of_nat (e - b) < 2 ^ 64)%Z -> e - b < fuel ->
  (exists l h',
     forward_list_of_pointers NDEBUG junk fuel arr (Some b) (Some e) h = Done l h' /\
     printForwardList NDEBUG fuel l h' = Done (take (e - b) (drop b arr)) h' /\
     size l = Z.of_nat (e - b) /\
     empty l = bool_decide (b = e) /\
     extends h h') /\
  (forall i_beg i_end, i_beg = None \/ i_end = None ->
     forward_list_of_pointers false junk fuel arr i_beg i_end h
     = Throw TVJ_FORWARD_LIST_NULLPTR) /\
  forward_list_of_pointers true junk fuel arr None None h = forward_list_new junk h.
Proof.
  intros Hbe Hfit Hf.
  assert (Hlen : length (take (e - b) (drop b arr)) = e - b)
    by (rewrite length_take, length_drop; lia).
  split; [|split].
  - destruct (forward_list_of_array_is_list junk h (take (e - b) (drop b arr)))
      as (l & h' & hd & ns & tl & E & I & El & X); [by rewrite Hlen|].
    assert (Hns : length ns = e - b) by (by rewrite <- Hlen, <- El, elems_length).
    exists l, h'.
    rewrite (forward_list_of_pointers_array NDEBUG junk fuel h arr b e Hbe Hf).
    split; [done|]. split; [|split; [|split; [|done]]].
    + rewrite (printForwardList_is_list NDEBUG fuel h' l hd ns tl I) by lia.
      by rewrite El.
    + destruct I as (_ & Hsz & _). unfold size. by rewrite Hsz, Hns.
    + destruct I as (_ & Hsz & _). unfold empty. rewrite Hsz, Hns.
      destruct (decide (b = e)) as [->|Hne].
      * rewrite bool_decide_eq_true_2 by done. by rewrite Nat.sub_diag.
      * rewrite bool_decide_eq_false_2 by done. apply Z.eqb_neq. lia.
  - intros i_beg i_end Hn. by apply forward_list_of_pointers_null.
  - unfold forward_list_of_pointers, bind.
    destruct (forward_list_new junk h) as [l h'| | |]; try done.
    destruct fuel as [|fuel]; [lia|]. done.
Qed.

Lemma array_constructor_round_trip_witness :
  (0 <= 8 <= length [1; 2; 3; 3; 3; 4; 7; 7; 10]%Z /\
   (Z.of_nat (8 - 0) < 2 ^ 64)%Z /\ 8 - 0 < 10) /\
  (exists l h',
     forward_list_of_pointers false 0%Z 10 [1; 2; 3; 3; 3; 4; 7; 7; 10]%Z
       (Some 0) (Some 8) ∅ = Done l h' /\
     printForwardList false 10 l h'
     = Done (take (8 - 0) (drop 0 [1; 2; 3; 3; 3; 4; 7; 7; 10]%Z)) h' /\
     size l = Z.of_nat (8 - 0) /\
     empty l = bool_decide (0 = 8) /\
     extends ∅ h') /\
  (forall i_beg i_end, i_beg = None \/ i_end = None ->
     forward_list_of_pointers false 0%Z 10 [1; 2; 3; 3; 3; 4; 7; 7; 10]%Z i_beg i_end ∅
     = Throw TVJ_FORWARD_LIST_NULLPTR) /\
  forward_list_of_pointers true 0%Z 10 [1; 2; 3; 3; 3; 4; 7; 7; 10]%Z None None ∅
  = forward_list_new 0%Z ∅.
Proof.
  assert (H1 : 0 <= 8 <= length [1; 2; 3; 3; 3; 4; 7; 7; 10]%Z) by (simpl; lia).
  assert (H2 : (Z.of_nat (8 - 0) < 2 ^ 64)%Z) by (simpl; lia).
  assert (H3 : 8 - 0 < 10) by (simpl; lia).
  split; [exact (conj H1 (conj H2 H3))|].
  exact (array_constructor_round_trip false 0%Z 10 ∅ [1; 2; 3; 3; 3; 4; 7; 7; 10]%Z
           0 8 H1 H2 H3).
Defined.

(** X19: [sort(is_ascending)] on a list whose elements are pairwise
    distinct leaves the list sorted in the order asked for, with the same
    elements in the same nodes (relinked, or with their elements
    exchanged), the same sentinels and the same size; [sorted] then
    answers true, and no node outside the list is written. *)
Theorem sort_distinct_elements NDEBUG fuel h l hd ns tl asc :
  is_list h l hd ns tl -> NoDup (elems ns) -> length ns + 3 <= fuel ->
  exists h' ns',
    sort fuel l asc h = Done tt h' /\
    is_list h' l hd ns' tl /\
    elems ns' ≡ₚ elems ns /\
    is_sorted asc (elems ns') = true /\
    sorted NDEBUG fuel l asc h' = Done true h' /\
    ns'.*1 ≡ₚ ns.*1 /\
    (forall a, a ∉ (hd :: ns).*1 -> h' !! a = h !! a).
Proof.
  intros I ND Hf.
  destruct (sort_is_list fuel h l hd ns tl asc I ND Hf)
    as (h' & ns' & E & I' & S & P & Pa & F).
  exists h', ns'. split; [done|]. split; [done|]. split; [done|]. split; [done|].
  split; [|done].
  apply (sorted_is_list NDEBUG fuel h' l hd ns' tl asc I' S).
  apply Permutation_length in P. rewrite !elems_length in P. lia.
Qed.

Lemma sort_distinct_elements_witness :
  (is_list example_mixed_heap example_mixed (0, 0%Z) example_mixed_cells (4, 0%Z) /\
   NoDup (elems example_mixed_cells) /\ length example_mixed_cells + 3 <= 10) /\
  exists h' ns',
    sort 10 example_mixed true example_mixed_heap = Done tt h' /\
    is_list h' example_mixed (0, 0%Z) ns' (4, 0%Z) /\
    elems ns' ≡ₚ elems example_mixed_cells /\
    is_sorted true (elems ns') = true /\
    sorted false 10 example_mixed true h' = Done true h' /\
    ns'.*1 ≡ₚ example_mixed_cells.*1 /\
    (forall a, a ∉ ((0, 0%Z) :: example_mixed_cells).*1 ->
               h' !! a = example_mixed_heap !! a).
Proof.
  assert (H1 : is_list example_mixed_heap example_mixed (0, 0%Z) example_mixed_cells
                 (4, 0%Z)) by solve_is_list.
  assert (H2 : NoDup (elems example_mixed_cells)) by (by apply (bool_decide_unpack _)).
  assert (H3 : length example_mixed_cells + 3 <= 10) by (simpl; lia).
  split; [exact (conj H1 (conj H2 H3))|].
  exact (sort_distinct_elements false 10 example_mixed_heap example_mixed (0, 0%Z)
           example_mixed_cells (4, 0%Z) true H1 H2 H3).
Defined.

(** X20: in the checked build the cursor operations and [assign] refuse
    the sentinels of a well-formed list: reading or assigning at
    [before_begin()] throws the underflow error, reading, assigning or
    stepping at [end()] the overflow error, and assigning at a null
    cursor the null-pointer error; nothing is written.  Stepping from
    [before_begin()] is allowed and gives [begin()]. *)
Theorem checked_build_guards_sentinels h l hd ns tl elem :
  is_list h l hd ns tl ->
  op_deref false l (before_begin l) h = Throw TVJ_FORWARD_LIST_UNDERFLOW /\
  op_deref false l (end_ l) h = Throw TVJ_FORWARD_LIST_OVERFLOW /\
  op_incr false l (end_ l) h = Throw TVJ_FORWARD_LIST_OVERFLOW /\
  op_plus false l (end_ l) 1 h = Throw TVJ_FORWARD_LIST_OVERFLOW /\
  assign false l (before_begin l) elem h = Throw TVJ_FORWARD_LIST_UNDERFLOW /\
  assign false l (end_ l) elem h = Throw TVJ_FORWARD_LIST_OVERFLOW /\
  assign false l None elem h = Throw TVJ_FORWARD_LIST_NULLPTR /\
  op_incr false l (before_begin l) h = begin_ l h.
Proof.
  intros I. destruct (checks_at_sentinels h l hd ns tl I) as (D1 & D2 & A1 & A2).
  destruct (is_list_head _ _ _ _ _ I) as (Hh & Ht & _ & Hne).
  unfold op_deref, op_incr, op_plus, assign, before_begin, end_, begin_, bind.
  rewrite D1, D2, A1, A2.
  rewrite Hh, Ht, !is_null_Some, !ptr_eqb_refl, !ptr_neq by done. done.
Qed.

Lemma checked_build_guards_sentinels_witness :
  is_list example_heap example_list (0, 0%Z) example_cells (4, 0%Z) /\
  op_deref false example_list (before_begin example_list) example_heap
  = Throw TVJ_FORWARD_LIST_UNDERFLOW /\
  op_deref false example_list (end_ example_list) example_heap
  = Throw TVJ_FORWARD_LIST_OVERFLOW /\
  op_incr false example_list (end_ example_list) example_heap
  = Throw TVJ_FORWARD_LIST_OVERFLOW /\
  op_plus false example_list (end_ example_list) 1 example_heap
  = Throw TVJ_FORWARD_LIST_OVERFLOW /\
  assign false example_list (before_begin example_list) 7%Z example_heap
  = Throw TVJ_FORWARD_LIST_UNDERFLOW /\
  assign false example_list (end_ example_list) 7%Z example_heap
  = Throw TVJ_FORWARD_LIST_OVERFLOW /\
  assign false example_list None 7%Z example_heap = Throw TVJ_FORWARD_LIST_NULLPTR /\
  op_incr false example_list (before_begin example_list) example_heap
  = begin_ example_list example_heap.
Proof.
  assert (H1 : is_list example_heap example_list (0, 0%Z) example_cells (4, 0%Z))
    by solve_is_list.
  split; [exact H1|].
  exact (checked_build_guards_sentinels example_heap example_list (0, 0%Z)
           example_cells (4, 0%Z) 7%Z H1).
Defined.

(** X21: [it + n] follows [n] links from a cursor at [before_begin()] or
    at an element: up to [end()] it is the cursor [n] places further; one
    link beyond [end()] it is the null cursor, returned without an error
    in the checked build too; any further link is a dereference of
    null. *)
Theorem op_plus_walks_links NDEBUG h l hd ns tl k n :
  is_list h l hd ns tl -> k <= length ns ->
  op_plus NDEBUG l (ptr_at (hd :: ns) k) n h
  = (if decide (k + n <= length ns + 2)
     then Done (ptr_at (hd :: ns ++ [tl]) (k + n)) h
     else Undefined) /\
  ptr_at (hd :: ns ++ [tl]) (length ns + 1) = end_ l /\
  ptr_at (hd :: ns ++ [tl]) (length ns + 2) = None.
Proof.
  intros I Hk. pose proof I as ((L & C) & _).
  set (c := hd :: ns ++ [tl]) in *.
  assert (Hc : length c = length ns + 2) by apply chain_length.
  assert (E : ptr_at (hd :: ns) k = ptr_at c k).
  { unfold c. rewrite app_comm_cons. symmetry. apply ptr_at_app_l. simpl. lia. }
  rewrite E. split; [|split].
  - destruct (decide (k + n <= length ns + 2)) as [Hle|Hgt].
    + apply (op_plus_chain NDEBUG l c C h k n L); lia.
    + unfold op_plus.
      step ((check_advance_chain NDEBUG l c C h k ltac:(lia))).
      replace n with ((length c - k) + S (k + n - length c - 1)) by lia.
      rewrite advance_add.
      step ((advance_chain h c (length c - k) k L ltac:(lia))).
      rewrite ptr_at_None by lia. apply advance_null.
  - destruct (is_list_head _ _ _ _ _ I) as (_ & Ht & _). unfold end_. rewrite Ht.
    rewrite <- (chain_tail_ptr hd ns tl). fold c. f_equal. lia.
  - apply ptr_at_None. lia.
Qed.

Lemma op_plus_walks_links_witness :
  (is_list example_heap example_list (0, 0%Z) example_cells (4, 0%Z) /\
   3 <= length example_cells) /\
  op_plus false example_list (ptr_at ((0, 0%Z) :: example_cells) 3) 2 example_heap
  = (if decide (3 + 2 <= length example_cells + 2)
     then Done (ptr_at ((0, 0%Z) :: example_cells ++ [(4, 0%Z)]) (3 + 2)) example_heap
     else Undefined) /\
  ptr_at ((0, 0%Z) :: example_cells ++ [(4, 0%Z)]) (length example_cells + 1)
  = end_ example_list /\
  ptr_at ((0, 0%Z) :: example_cells ++ [(4, 0%Z)]) (length example_cells + 2) = None.
Proof.
  assert (H1 : is_list example_heap example_list (0, 0%Z) example_cells (4, 0%Z))
    by solve_is_list.
  assert (H2 : 3 <= length example_cells) by (simpl; lia).
  split; [exact (conj H1 H2)|].
  exact (op_plus_walks_links false example_heap example_list (0, 0%Z)
           example_cells (4, 0%Z) 3 2 H1 H2).
Defined.

(** X22: [unique()] in the checked build on a list of two or more
    pairwise distinct elements first sorts it ascending where it is not
    sorted, and then removes nothing: the list is left ascending with the
    elements it had. *)
Theorem unique_sorts_in_checked_build fuel h l hd ns tl :
  is_list h l hd ns tl -> NoDup (elems ns) -> 2 <= length ns ->
  length ns + 3 <= fuel ->
  exists l' h' ns',
    unique false fuel l h = Done l' h' /\
    is_list h' l' hd ns' tl /\
    is_sorted true (elems ns') = true /\ elems ns' ≡ₚ elems ns.
Proof. apply unique_distinct. Qed.

Lemma unique_sorts_in_checked_build_witness :
  (is_list example_mixed_heap example_mixed (0, 0%Z) example_mixed_cells (4, 0%Z) /\
   NoDup (elems example_mixed_cells) /\ 2 <= length example_mixed_cells /\
   length example_mixed_cells + 3 <= 10) /\
  exists l' h' ns',
    unique false 10 example_mixed example_mixed_heap = Done l' h' /\
    is_list h' l' (0, 0%Z) ns' (4, 0%Z) /\
    is_sorted true (elems ns') = true /\ elems ns' ≡ₚ elems example_mixed_cells.
Proof.
  assert (H1 : is_list example_mixed_heap example_mixed (0, 0%Z) example_mixed_cells
                 (4, 0%Z)) by solve_is_list.
  assert (H2 : NoDup (elems example_mixed_cells)) by (by apply (bool_decide_unpack _)).
  assert (H3 : 2 <= length example_mixed_cells) by (simpl; lia).
  assert (H4 : length example_mixed_cells + 3 <= 10) by (simpl; lia).
  split; [exact (conj H1 (conj H2 (conj H3 H4)))|].
  exact (unique_sorts_in_checked_build 10 example_mixed_heap example_mixed (0, 0%Z)
           example_mixed_cells (4, 0%Z) H1 H2 H3 H4).
Defined.

(** X23: [_inplace_merge(first_, mid_, last_)] on two adjacent ranges
    [(first_, mid_]] and [(mid_, last_]] that are sorted in the order
    asked for and whose last elements differ, with the chain going on
    behind them: the nodes of both ranges are relinked between [first_]
    and the rest of the chain in sorted order, and the node returned is
    the last one of the merged range.  No element and no node outside the
    ranges is written. *)
Theorem inplace_merge_sorted_ranges asc fuel h (f : cell) A (mid : cell) B
  (lst : cell) rest :
  last A = Some mid -> last B = Some lst -> rest <> [] ->
  links h (f :: A ++ B ++ rest) None -> NoDup (f :: A ++ B ++ rest).*1 ->
  is_sorted asc (elems A) = true -> is_sorted asc (elems B) = true ->
  mid.2 <> lst.2 -> length (A ++ B ++ rest) + 2 <= fuel ->
  exists r h' M,
    _inplace_merge fuel (Some f.1) (Some mid.1) (Some lst.1) asc h
    = Done (Some r.1) h' /\
    links h' (f :: M ++ rest) None /\ last M = Some r /\
    M ≡ₚ A ++ B /\ is_sorted asc (elems M) = true /\
    (forall a, a ∉ (f :: A ++ B).*1 -> h' !! a = h !! a).
Proof.
  intros LA LB Hr L ND SA SB Hne Hf.
  destruct (_inplace_merge_chain asc fuel h f A mid B lst rest LA LB Hr L ND SA SB
              Hne Hf) as (r & h' & E & Lr & L' & F).
  exists r, h', (inplace_merge_cells asc A B).
  split; [done|]. split; [done|]. split; [done|].
  split; [apply inplace_merge_cells_perm|].
  split; [by apply inplace_merge_cells_sorted|done].
Qed.

Lemma inplace_merge_sorted_ranges_witness :
  (last [(1, 30%Z)] = Some (1, 30%Z) /\
   last [(2, 10%Z); (3, 20%Z)] = Some (3, 20%Z) /\
   [(4, 0%Z)] <> [] /\
   links example_mixed_heap
     ((0, 0%Z) :: [(1, 30%Z)] ++ [(2, 10%Z); (3, 20%Z)] ++ [(4, 0%Z)]) None /\
   NoDup ((0, 0%Z) :: [(1, 30%Z)] ++ [(2, 10%Z); (3, 20%Z)] ++ [(4, 0%Z)]).*1 /\
   is_sorted true (elems [(1, 30%Z)]) = true /\
   is_sorted true (elems [(2, 10%Z); (3, 20%Z)]) = true /\
   (1, 30%Z).2 <> (3, 20%Z).2 /\
   length ([(1, 30%Z)] ++ [(2, 10%Z); (3, 20%Z)] ++ [(4, 0%Z)]) + 2 <= 10) /\
  exists r h' M,
    _inplace_merge 10 (Some (0, 0%Z).1) (Some (1, 30%Z).1) (Some (3, 20%Z).1) true
      example_mixed_heap = Done (Some r.1) h' /\
    links h' ((0, 0%Z) :: M ++ [(4, 0%Z)]) None /\ last M = Some r /\
    M ≡ₚ [(1, 30%Z)] ++ [(2, 10%Z); (3, 20%Z)] /\
    is_sorted true (elems M) = true /\
    (forall a, a ∉ ((0, 0%Z) :: [(1, 30%Z)] ++ [(2, 10%Z); (3, 20%Z)]).*1 ->
               h' !! a = example_mixed_heap !! a).
Proof.
  assert (H1 : last [(1, 30%Z)] = Some (1, 30%Z)) by reflexivity.
  assert (H2 : last [(2, 10%Z); (3, 20%Z)] = Some (3, 20%Z)) by reflexivity.
  assert (H3 : [(4, 0%Z)] <> ([] : list cell)) by discriminate.
  assert (H4 : links example_mixed_heap
                 ((0, 0%Z) :: [(1, 30%Z)] ++ [(2, 10%Z); (3, 20%Z)] ++ [(4, 0%Z)]) None)
    by (repeat split; vm_compute; reflexivity).
  assert (H5 : NoDup ((0, 0%Z) :: [(1, 30%Z)] ++ [(2, 10%Z); (3, 20%Z)]
                        ++ [(4, 0%Z)]).*1) by (by apply (bool_decide_unpack _)).
  assert (H6 : is_sorted true (elems [(1, 30%Z)]) = true) by reflexivity.
  assert (H7 : is_sorted true (elems [(2, 10%Z); (3, 20%Z)]) = true) by reflexivity.
  assert (H8 : (1, 30%Z).2 <> (3, 20%Z).2) by (simpl; lia).
  assert (H9 : length ([(1, 30%Z)] ++ [(2, 10%Z); (3, 20%Z)] ++ [(4, 0%Z)]) + 2 <= 10)
    by (simpl; lia).
  split; [exact (conj H1 (conj H2 (conj H3 (conj H4 (conj H5 (conj H6 (conj H7
                   (conj H8 H9))))))))|].
  exact (inplace_merge_sorted_ranges true 10 example_mixed_heap (0, 0%Z) [(1, 30%Z)]
           (1, 30%Z) [(2, 10%Z); (3, 20%Z)] (3, 20%Z) [(4, 0%Z)]
           H1 H2 H3 H4 H5 H6 H7 H8 H9).
Defined.
